(** * Zillow real-estate pipeline: crawl orchestration and resilient fetch

    A shallow embedding of [zipwiseproperties.py], [propertyfields.py] and
    [scraper.py].  Python values keep their shape: JSON documents are an
    inductive type with insertion-ordered dictionaries, a fetched page is the
    tag tree BeautifulSoup builds, raised exceptions are the [Raise] branch
    of a result type, and everything that touches the network, the clock or
    the CSV files threads an explicit [World]. *)

From Stdlib Require Import ZArith String Ascii List Lia Permutation Sorted.
From stdpp Require Import base option list strings gmap pretty.

#[local] Set Warnings "-register-all".

Open Scope string_scope.
Open Scope list_scope.
Open Scope Z_scope.

(** ** Python results *)

Inductive PyExn :=
| KeyError | TypeError | AttributeError | IndexError | ValueError
| JSONDecodeError | StopIteration | FileNotFoundError.

Inductive Res (A : Type) :=
| Ok (a : A)
| Raise (e : PyExn).
Arguments Ok {A} a.
Arguments Raise {A} e.

#[global] Instance Res_ret : MRet Res := fun A a => Ok a.
#[global] Instance Res_bind : MBind Res := fun A B k r =>
  match r with
  | Ok a => k a
  | Raise e => Raise e
  end.

Definition raises {A} (r : Res A) : Prop :=
  match r with Ok _ => False | Raise _ => True end.

Definition returns {A} (r : Res A) : Prop :=
  match r with Ok _ => True | Raise _ => False end.

(** ** Python strings *)

Module PyStr.

Definition is_empty (s : string) : bool :=
  match s with
  | EmptyString => true
  | String _ _ => false
  end.

(** [strip_prefix p s] is what follows [p] when [s] starts with [p]. *)
Fixpoint strip_prefix (p s : string) : option string :=
  match p, s with
  | EmptyString, _ => Some s
  | String a p', String b s' =>
    if Ascii.eqb a b then strip_prefix p' s' else None
  | String _ _, EmptyString => None
  end.

(** The text before and after the first place where [sep] occurs. *)
Fixpoint find_sep (sep s : string) : option (string * string) :=
  match strip_prefix sep s with
  | Some rest => Some (EmptyString, rest)
  | None =>
    match s with
    | EmptyString => None
    | String c s' =>
      match find_sep sep s' with
      | Some (before, rest) => Some (String c before, rest)
      | None => None
      end
    end
  end.

(** [s.split(sep)] for a non-empty [sep]: every cut takes at least one
    character, so [length s] cuts are enough. *)
Fixpoint split_fuel (fuel : nat) (sep s : string) : list string :=
  match fuel with
  | O => [s]
  | S fuel' =>
    match find_sep sep s with
    | None => [s]
    | Some (before, rest) => before :: split_fuel fuel' sep rest
    end
  end.

Definition split (sep s : string) : list string :=
  split_fuel (String.length s) sep s.

Definition contains (sub s : string) : bool :=
  match find_sep sub s with
  | Some _ => true
  | None => false
  end.

(** [s.rstrip(ch)] for a single character. *)
Fixpoint rstrip_char (ch : ascii) (s : string) : string :=
  match s with
  | EmptyString => EmptyString
  | String c s' =>
    let r := rstrip_char ch s' in
    if is_empty r && Ascii.eqb c ch then EmptyString else String c r
  end.

(** [str.isspace] on one character.  A string of the model is a sequence
    of characters below U+0100; of these Python takes as white space the
    space, tab, newline, vertical tab, form feed, carriage return, the four
    separators 28 to 31, the next-line character U+0085 and the no-break
    space U+00A0. *)
Definition is_space (c : ascii) : bool :=
  let n := nat_of_ascii c in
  (Nat.eqb n 32 || (Nat.leb 9 n && Nat.leb n 13)
   || (Nat.leb 28 n && Nat.leb n 31)
   || Nat.eqb n 133 || Nat.eqb n 160)%bool.

Fixpoint lstrip (s : string) : string :=
  match s with
  | EmptyString => EmptyString
  | String c s' => if is_space c then lstrip s' else s
  end.

Fixpoint rstrip (s : string) : string :=
  match s with
  | EmptyString => EmptyString
  | String c s' =>
    let r := rstrip s' in
    if is_empty r && is_space c then EmptyString else String c r
  end.

Definition strip (s : string) : string := rstrip (lstrip s).

(** [s.split()] with no argument: the maximal runs of non-space. *)
Fixpoint split_ws_go (cur : string) (s : string) : list string :=
  match s with
  | EmptyString => if is_empty cur then [] else [cur]
  | String c s' =>
    if is_space c then
      (if is_empty cur then split_ws_go EmptyString s'
       else cur :: split_ws_go EmptyString s')
    else split_ws_go (cur +:+ String c EmptyString) s'
  end.

Definition split_ws (s : string) : list string := split_ws_go EmptyString s.

End PyStr.

(** ** JSON values, with Python's dictionaries

    A dictionary keeps its keys in insertion order and holds each key
    once.  Numbers are the integers; the claims never need a float. *)

Inductive Json :=
| JNull
| JBool (b : bool)
| JNum (n : Z)
| JStr (s : string)
| JArr (items : list Json)
| JObj (fields : list (string * Json)).

Module PyDict.

Fixpoint lookup (k : string) (d : list (string * Json)) : option Json :=
  match d with
  | [] => None
  | (k', v) :: d' => if String.eqb k k' then Some v else lookup k d'
  end.

(** [d[k] = v]: overwrite in place, or append a new key. *)
Fixpoint store (k : string) (v : Json) (d : list (string * Json))
    : list (string * Json) :=
  match d with
  | [] => [(k, v)]
  | (k', v') :: d' =>
    if String.eqb k k' then (k', v) :: d' else (k', v') :: store k v d'
  end.

Fixpoint remove (k : string) (d : list (string * Json)) : list (string * Json) :=
  match d with
  | [] => []
  | (k', v') :: d' =>
    if String.eqb k k' then d' else (k', v') :: remove k d'
  end.

End PyDict.

(** [obj[key]] for a string key. *)
Definition getitem (obj : Json) (key : string) : Res Json :=
  match obj with
  | JObj d =>
    match PyDict.lookup key d with
    | Some v => Ok v
    | None => Raise KeyError
    end
  | _ => Raise TypeError
  end.

(** [obj[key] = v] for a string key. *)
Definition setitem (obj : Json) (key : string) (v : Json) : Res Json :=
  match obj with
  | JObj d => Ok (JObj (PyDict.store key v d))
  | _ => Raise TypeError
  end.

(** [obj[k1][k2] = v]: the inner dictionary is changed where it sits. *)
Definition setitem2 (obj : Json) (k1 k2 : string) (v : Json) : Res Json :=
  inner ← getitem obj k1;
  inner' ← setitem inner k2 v;
  setitem obj k1 inner'.

Definition is_JStr (key : string) (j : Json) : bool :=
  match j with
  | JStr s => String.eqb s key
  | _ => false
  end.

(** [key in obj]. *)
Definition py_in (key : string) (obj : Json) : Res bool :=
  match obj with
  | JObj d => Ok (bool_decide (is_Some (PyDict.lookup key d)))
  | JArr items => Ok (existsb (is_JStr key) items)
  | JStr s => Ok (PyStr.contains key s)
  | _ => Raise TypeError
  end.

(** [del obj[key]]. *)
Definition delitem (obj : Json) (key : string) : Res Json :=
  match obj with
  | JObj d =>
    match PyDict.lookup key d with
    | Some _ => Ok (JObj (PyDict.remove key d))
    | None => Raise KeyError
    end
  | JArr _ => Raise TypeError
  | _ => Raise TypeError
  end.

(** [obj.pop(key)]: the value and the dictionary without the key. *)
Definition pop (obj : Json) (key : string) : Res (Json * Json) :=
  match obj with
  | JObj d =>
    match PyDict.lookup key d with
    | Some v => Ok (v, JObj (PyDict.remove key d))
    | None => Raise KeyError
    end
  | JArr _ => Raise TypeError
  | _ => Raise AttributeError
  end.

(** The [json] module: [json.loads] and [json.dumps]. *)
Class JsonLib := {
  json_loads : string -> Res Json;
  json_dumps : Json -> string
}.

(** ** Documents

    [Html] is the tree [BeautifulSoup(html, 'html.parser')] walks: elements
    with their attributes and children, and text.  The empty string is the
    empty forest, which is what Python's [if html:] tests. *)

Inductive Node :=
| Elem (tag : string) (attrs : list (string * string)) (children : list Node)
| Text (s : string).

Definition Html := list Node.

Definition truthy_html (html : Html) : bool :=
  match html with
  | [] => false
  | _ :: _ => true
  end.

(** ** urllib.parse: percent-encoding of byte strings *)

Module Urllib.

(** The characters [quote] never escapes: letters, digits and [_.-~]. *)
Definition always_safe (c : ascii) : bool :=
  let n := nat_of_ascii c in
  ((Nat.leb 65 n && Nat.leb n 90) || (Nat.leb 97 n && Nat.leb n 122)
   || (Nat.leb 48 n && Nat.leb n 57)
   || Nat.eqb n 95 || Nat.eqb n 46 || Nat.eqb n 45 || Nat.eqb n 126)%bool.

Definition hex_digit (n : nat) : ascii :=
  if Nat.ltb n 10 then ascii_of_nat (48 + n) else ascii_of_nat (55 + n).

Definition hex_value (c : ascii) : option nat :=
  let n := nat_of_ascii c in
  if (Nat.leb 48 n && Nat.leb n 57)%bool then Some (n - 48)%nat
  else if (Nat.leb 65 n && Nat.leb n 70)%bool then Some (n - 55)%nat
  else if (Nat.leb 97 n && Nat.leb n 102)%bool then Some (n - 87)%nat
  else None.

Definition quote_char (c : ascii) : string :=
  if (always_safe c || Ascii.eqb c "/")%bool then String c EmptyString
  else
    let n := nat_of_ascii c in
    String "%" (String (hex_digit (n / 16)) (String (hex_digit (n mod 16)) EmptyString)).

(** [urllib.parse.quote(s)] with the default [safe='/']. *)
Fixpoint quote (s : string) : string :=
  match s with
  | EmptyString => EmptyString
  | String c s' => quote_char c +:+ quote s'
  end.

(** [urllib.parse.unquote(s)]: a percent sign followed by two hex digits
    is one byte, any other percent sign stays. *)
Fixpoint unquote (s : string) : string :=
  match s with
  | EmptyString => EmptyString
  | String c s' =>
    if Ascii.eqb c "%" then
      match s' with
      | String h1 (String h2 s'') =>
        match hex_value h1, hex_value h2 with
        | Some a, Some b => String (ascii_of_nat (16 * a + b)) (unquote s'')
        | _, _ => String c (unquote s')
        end
      | _ => String c (unquote s')
      end
    else String c (unquote s')
  end.

End Urllib.

(** ** bs4: the queries the scraper makes on a parsed page *)

Module Bs4.

(** [BeautifulSoup(markup, 'html.parser')]; [None] has no length. *)
Definition BeautifulSoup (markup : option Html) : Res Html :=
  match markup with
  | Some html => Ok html
  | None => Raise TypeError
  end.

Definition attr (name : string) (attrs : list (string * string)) : option string :=
  snd <$> List.find (fun kv => String.eqb (fst kv) name) attrs.

(** A tag and every tag below it that satisfies [p], in document order. *)
Fixpoint matching (p : string -> list (string * string) -> bool) (n : Node)
    : list Node :=
  match n with
  | Text _ => []
  | Elem tag attrs children =>
    (if p tag attrs then [n] else []) ++ flat_map (matching p) children
  end.

Definition find_all_in (p : string -> list (string * string) -> bool)
    (forest : list Node) : list Node :=
  flat_map (matching p) forest.

Definition find_in (p : string -> list (string * string) -> bool)
    (forest : list Node) : option Node :=
  head (find_all_in p forest).

Definition children_of (n : Node) : list Node :=
  match n with
  | Elem _ _ children => children
  | Text _ => []
  end.

(** [tag.text]: all the text below the tag. *)
Fixpoint text (n : Node) : string :=
  match n with
  | Text s => s
  | Elem _ _ children => String.concat EmptyString (map text children)
  end.

(** [tag.string]: the text of a tag whose only content is one string,
    possibly through a chain of only children. *)
Fixpoint string_of (n : Node) : option string :=
  match n with
  | Text s => Some s
  | Elem _ _ [child] => string_of child
  | Elem _ _ _ => None
  end.

Definition has_tag (name : string) : string -> list (string * string) -> bool :=
  fun tag _ => String.eqb tag name.

Definition has_tag_attr (name key value : string)
    : string -> list (string * string) -> bool :=
  fun tag attrs =>
    (String.eqb tag name &&
     match attr key attrs with
     | Some v => String.eqb v value
     | None => false
     end)%bool.

(** The selector [name[key*=part]]. *)
Definition has_tag_attr_containing (name key part : string)
    : string -> list (string * string) -> bool :=
  fun tag attrs =>
    (String.eqb tag name &&
     match attr key attrs with
     | Some v => PyStr.contains part v
     | None => false
     end)%bool.

(** [tag.get('class')] is falsy when the attribute is missing or lists no
    class. *)
Definition has_class (n : Node) : bool :=
  match n with
  | Elem _ attrs _ =>
    match attr "class" attrs with
    | Some v => negb (PyStr.is_empty (PyStr.strip v))
    | None => false
    end
  | Text _ => false
  end.

End Bs4.

(** ** The world outside the process *)

(** What one POST to the extraction service can do. *)
Inductive Body :=
| HttpResponseBody (html : Html)     (* base64 body that decodes as UTF-8 *)
| NotJson (msg : string)             (* response.json() raises JSONDecodeError *)
| Undecodable (msg : string).        (* missing key, bad base64, bad UTF-8 *)

Inductive Reply :=
| Response (status_code : Z) (reason : string) (body : Body)
| RaiseTimeout (msg : string)
| RaiseRequestException (ok_status : option Z) (msg : string)
| RaiseOther (msg : string).

Inductive Event :=
| EvPost (target : string)
| EvSleep (delay : Z).

(** A CSV file is its rows, the header row included. *)
Definition Row := list string.
Definition File := list Row.

Record World := mkWorld {
  upstream : nat -> string -> Reply;  (* reply to the k-th POST, asking for a url *)
  posts : nat;                        (* POSTs made so far *)
  events : list Event;                (* POSTs and sleeps, oldest first *)
  today : string;                     (* datetime.now() as %Y-%m-%d *)
  clock : nat -> string;              (* datetime.now() as a timestamp, by POST count *)
  fs : gmap string File               (* the files on disk, by path *)
}.

Definition requests_post (url : string) (w : World) : Reply * World :=
  (upstream w (posts w) url,
   mkWorld (upstream w) (S (posts w)) (events w ++ [EvPost url])
           (today w) (clock w) (fs w)).

Definition time_sleep (delay : Z) (w : World) : World :=
  mkWorld (upstream w) (posts w) (events w ++ [EvSleep delay])
          (today w) (clock w) (fs w).

Definition set_fs (files : gmap string File) (w : World) : World :=
  mkWorld (upstream w) (posts w) (events w) (today w) (clock w) files.

Definition now_timestamp (w : World) : string := clock w (posts w).

(** * zipwiseproperties.py *)

Module Zipwiseproperties.

(** ** fetch_html_with_zyte *)

Definition FetchResult : Type := option Html * option string.

Definition retry_statuses : list Z := [429; 503; 520].

Definition is_retry_status (status : Z) : bool :=
  existsb (Z.eqb status) retry_statuses.

(** [response.raise_for_status()] raises [HTTPError] for 4xx and 5xx. *)
Definition http_error_message (status : Z) (reason : string) : option string :=
  if (400 <=? status) && (status <? 500) then
    Some (pretty status +:+ " Client Error: " +:+ reason
          +:+ " for url: https://api.zyte.com/v1/extract")
  else if (500 <=? status) && (status <? 600) then
    Some (pretty status +:+ " Server Error: " +:+ reason
          +:+ " for url: https://api.zyte.com/v1/extract")
  else None.

(** [e.response.status_code if e.response else 'No response']: a response
    is truthy only when its status is below 400. *)
Definition request_error_message (ok_status : option Z) (msg : string) : string :=
  match ok_status with
  | Some status => pretty status +:+ ": " +:+ msg
  | None => "No response: " +:+ msg
  end.

(** The [while retry_count < max_retries] loop.  [budget] is
    [max_retries - retry_count]: every branch that loops again adds one to
    [retry_count], so the loop runs while [budget] is positive.  The
    [JSONDecodeError] of [response.json()] is a [RequestException] that
    carries no response. *)
Fixpoint retry_loop (url : string) (budget : nat) (retry_delay : Z)
    (last_error_message : option string) (w : World) : FetchResult * World :=
  match budget with
  | O => ((None, last_error_message), w)
  | S budget' =>
    let (reply, w1) := requests_post url w in
    match reply with
    | Response status reason body =>
      if is_retry_status status then
        let w2 := time_sleep retry_delay w1 in
        retry_loop url budget' (retry_delay * 2)
                   (Some (pretty status +:+ ": " +:+ reason)) w2
      else
        match http_error_message status reason with
        | Some msg =>
          retry_loop url budget' retry_delay
                     (Some (request_error_message None msg)) w1
        | None =>
          match body with
          | HttpResponseBody html => ((Some html, None), w1)
          | NotJson msg =>
            retry_loop url budget' retry_delay
                       (Some (request_error_message None msg)) w1
          | Undecodable msg => ((None, Some msg), w1)
          end
        end
    | RaiseTimeout msg =>
      retry_loop url budget' retry_delay (Some ("Timeout: " +:+ msg)) w1
    | RaiseRequestException ok_status msg =>
      retry_loop url budget' retry_delay
                 (Some (request_error_message ok_status msg)) w1
    | RaiseOther msg => ((None, Some msg), w1)
    end
  end.

Definition fetch_html_with_zyte_opts (url : string) (max_retries : nat)
    (initial_retry_delay : Z) (w : World) : FetchResult * World :=
  retry_loop url max_retries initial_retry_delay None w.

Definition fetch_html_with_zyte (url : string) (w : World) : FetchResult * World :=
  fetch_html_with_zyte_opts url 5 1 w.

Section Codec.
Context `{JsonLib}.

(** [json.loads(data_script.string)]: a tag with no single string gives
    [None], which [json.loads] rejects. *)
Definition loads_string (data_script : Node) : Res Json :=
  match Bs4.string_of data_script with
  | Some text => json_loads text
  | None => Raise TypeError
  end.

Definition find_next_data (soup : Html) : option Node :=
  Bs4.find_in (Bs4.has_tag_attr "script" "id" "__NEXT_DATA__") soup.

(** [obj[k1][k2]...] along a path of keys. *)
Fixpoint getpath (obj : Json) (path : list string) : Res Json :=
  match path with
  | [] => Ok obj
  | key :: path' => inner ← getitem obj key; getpath inner path'
  end.

(** [[property['detailUrl'] for property in property_data]].  Iterating a
    dictionary yields its keys and iterating a string its characters, and
    neither can be indexed by ['detailUrl']. *)
Definition detail_urls (property_data : Json) : Res (list Json) :=
  match property_data with
  | JArr items => mapM (M := Res) (fun property => getitem property "detailUrl") items
  | JObj [] => Ok []
  | JObj (_ :: _) => Raise TypeError
  | JStr EmptyString => Ok []
  | JStr (String _ _) => Raise TypeError
  | _ => Raise TypeError
  end.

(** ** parse_properties *)
Definition parse_properties (html : option Html) : Res (option (list Json)) :=
  soup ← Bs4.BeautifulSoup html;
  match find_next_data soup with
  | Some data_script =>
    data_json ← loads_string data_script;
    property_data ← getpath data_json
      ["props"; "pageProps"; "searchPageState"; "cat1"; "searchResults"; "listResults"];
    links ← detail_urls property_data;
    Ok (Some links)
  | None => Ok None
  end.

(** ** total_pages *)
Definition total_pages (html : option Html) : Res Json :=
  soup ← Bs4.BeautifulSoup html;
  match find_next_data soup with
  | Some data_script =>
    data_json ← loads_string data_script;
    getpath data_json
      ["props"; "pageProps"; "searchPageState"; "cat1"; "searchList"; "totalPages"]
  | None => Raise AttributeError        (* None.string *)
  end.

(** ** The URL mutators *)

Definition separator : string := "?searchQueryState=".

(** [url_parts[0].rstrip('/')] and [json.loads(unquote(url_parts[1]))]. *)
Definition split_url (base_url : string) : Res (string * Json) :=
  match PyStr.split separator base_url with
  | part0 :: part1 :: _ =>
    search_query_state ← json_loads (Urllib.unquote part1);
    Ok (PyStr.rstrip_char "/" part0, search_query_state)
  | _ => Raise IndexError
  end.

Definition min_max (lo : Z) (hi : option Z) : Json :=
  match hi with
  | None => JObj [("min", JNum lo)]
  | Some hi => JObj [("min", JNum lo); ("max", JNum hi)]
  end.

Definition update_url_with_price_mp (base_url : string) (min_price : Z)
    (max_price : option Z) (min_mp : Z) (max_mp : option Z) : Res string :=
  '(base_part, search_query_state) ← split_url base_url;
  search_query_state ← setitem2 search_query_state "filterState" "price"
                                (min_max min_price max_price);
  search_query_state ← setitem2 search_query_state "filterState" "mp"
                                (min_max min_mp max_mp);
  let encoded_query_state := Urllib.quote (json_dumps search_query_state) in
  Ok (base_part +:+ "/?searchQueryState=" +:+ encoded_query_state).

(** [update_url_with_price(base_url, min_price, max_price)] with the
    defaults [min_mp=0, max_mp=None]. *)
Definition update_url_with_price (base_url : string) (min_price : Z)
    (max_price : option Z) : Res string :=
  update_url_with_price_mp base_url min_price max_price 0 None.

Definition update_url_with_beds (base_url : string) (min_beds : Z)
    (max_beds : option Z) : Res string :=
  '(base_part, search_query_state) ← split_url base_url;
  search_query_state ← setitem2 search_query_state "filterState" "beds"
                                (min_max min_beds max_beds);
  let encoded_query_state := Urllib.quote (json_dumps search_query_state) in
  Ok (base_part +:+ "/?searchQueryState=" +:+ encoded_query_state).

Definition update_url_with_page (base_url : string) (page_number : Z) : Res string :=
  '(base_part, search_query_state) ← split_url base_url;
  search_query_state ← setitem search_query_state "pagination"
                               (JObj [("currentPage", JNum page_number)]);
  let encoded_query_state := Urllib.quote (json_dumps search_query_state) in
  Ok (base_part +:+ "/" +:+ pretty page_number +:+ "_p/?searchQueryState="
      +:+ encoded_query_state).

(** ** parse_queryState and parse_soldQueryState *)

Definition value_of (b : bool) : Json := JObj [("value", JBool b)].

(** A run of [queryState['filterState'][key] = value] assignments. *)
Fixpoint set_filters (queryState : Json) (filters : list (string * Json)) : Res Json :=
  match filters with
  | [] => Ok queryState
  | (key, value) :: filters' =>
    queryState ← setitem2 queryState "filterState" key value;
    set_filters queryState filters'
  end.

(** The two renames both entry points end with: drop [isAllHomes], move
    [sortSelection] to [sort]. *)
Definition normalize_filters (queryState : Json) : Res Json :=
  filterState ← getitem queryState "filterState";
  has_all ← py_in "isAllHomes" filterState;
  filterState ← (if (has_all : bool) then delitem filterState "isAllHomes" else Ok filterState);
  has_sort ← py_in "sortSelection" filterState;
  filterState ← (if (has_sort : bool) then
                   popped ← pop filterState "sortSelection";
                   setitem (snd popped) "sort" (fst popped)
                 else Ok filterState);
  setitem queryState "filterState" filterState.

Definition parse_queryState (html : option Html) : Res (option (Json * Json)) :=
  soup ← Bs4.BeautifulSoup html;
  match find_next_data soup with
  | Some data_script =>
    data_json ← loads_string data_script;
    baseurl ← getpath data_json
      ["props"; "pageProps"; "searchPageState"; "searchPageSeoObject"; "baseUrl"];
    queryState ← getpath data_json
      ["props"; "pageProps"; "searchPageState"; "queryState"];
    queryState ← setitem queryState "ah" (value_of true);
    queryState ← setitem queryState "isListVisible" (JBool true);
    queryState ← setitem queryState "mapZoom" (JNum 15);
    queryState ← setitem queryState "pagination" (JObj []);
    queryState ← set_filters queryState
      [("mf", value_of false); ("con", value_of false); ("land", value_of false);
       ("apa", value_of false); ("manu", value_of false); ("apco", value_of false)];
    queryState ← normalize_filters queryState;
    Ok (Some (baseurl, queryState))
  | None => Ok None
  end.

Definition parse_soldQueryState (html : option Html) : Res (option (Json * Json)) :=
  soup ← Bs4.BeautifulSoup html;
  match find_next_data soup with
  | Some data_script =>
    data_json ← loads_string data_script;
    baseurl ← getpath data_json
      ["props"; "pageProps"; "searchPageState"; "searchPageSeoObject"; "baseUrl"];
    queryState ← getpath data_json
      ["props"; "pageProps"; "searchPageState"; "queryState"];
    queryState ← setitem queryState "isListVisible" (JBool true);
    queryState ← setitem queryState "mapZoom" (JNum 15);
    queryState ← setitem queryState "pagination" (JObj []);
    queryState ← set_filters queryState
      [("mf", value_of false); ("con", value_of false); ("land", value_of false);
       ("apa", value_of false); ("manu", value_of false); ("rs", value_of true);
       ("fsba", value_of false); ("fsbo", value_of false); ("nc", value_of false);
       ("cmsn", value_of false); ("auc", value_of false); ("fore", value_of false);
       ("doz", JObj [("value", JStr "24m")])];
    queryState ← normalize_filters queryState;
    Ok (Some (baseurl, queryState))
  | None => Ok None
  end.

End Codec.

End Zipwiseproperties.

(** * propertyfields.py *)

Module Propertyfields.

Definition NA : string := "N/A".

(** ** extractPropertyInfo *)

(** The [try] block: [soup.title.text], then the unpacking of the first
    two [|]-separated parts. *)
Definition title_fields (soup : Html) : Res (string * string) :=
  match Bs4.find_in (Bs4.has_tag "title") soup with
  | None => Raise AttributeError
  | Some title =>
    let title_text := Bs4.text title in
    match firstn 2 (PyStr.split "|" title_text) with
    | [address; mls] =>
      let address := PyStr.strip address in
      let MLS := PyStr.strip (List.last (PyStr.split "#" (PyStr.strip mls)) EmptyString) in
      Ok (address, MLS)
    | _ => Raise ValueError
    end
  end.

Definition attr_or (n : Node) (name default : string) : string :=
  match n with
  | Elem _ attrs _ => from_option id default (Bs4.attr name attrs)
  | Text _ => default
  end.

Definition extractPropertyInfo (soup : Html) : Res (string * string * string) :=
  '(address, MLS) ←
    match title_fields soup with
    | Ok fields => Ok fields
    | Raise AttributeError | Raise ValueError => Ok (NA, NA)
    | Raise e => Raise e
    end;
  listed_price ←
    match Bs4.find_in (Bs4.has_tag_attr "meta" "name" "description") soup with
    | Some meta_tag =>
      let content := attr_or meta_tag "content" EmptyString in
      match PyStr.split "$" content with
      | _ :: part1 :: _ =>
        match PyStr.split_ws part1 with
        | price :: _ => Ok price
        | [] => Raise IndexError
        end
      | _ => Ok NA
      end
    | None => Ok NA
    end;
  Ok (address, MLS, listed_price).

(** ** extractStats *)

(** [dt_elements[i].find('strong').text if len(dt_elements) > i else "N/A"] *)
Definition strong_text (dt_elements : list Node) (i : nat) : Res string :=
  match dt_elements !! i with
  | Some dt =>
    match Bs4.find_in (Bs4.has_tag "strong") (Bs4.children_of dt) with
    | Some strong => Ok (Bs4.text strong)
    | None => Raise AttributeError
    end
  | None => Ok NA
  end.

Definition extractStats (soup : Html) : Res (string * string * string) :=
  match Bs4.find_in (Bs4.has_tag_attr_containing "dl" "class" "StyledOverviewStats") soup with
  | Some stats =>
    let dt_elements :=
      filter (fun dt => Bs4.has_class dt = false)
             (Bs4.find_all_in (Bs4.has_tag "dt") (Bs4.children_of stats)) in
    days_on_zillow ← strong_text dt_elements 0;
    views ← strong_text dt_elements 1;
    saves ← strong_text dt_elements 2;
    Ok (days_on_zillow, views, saves)
  | None => Ok (NA, NA, NA)
  end.

(** ** parsePropertyFields *)

Record PropertyDetails := mkDetails {
  address : string;
  listed_price : string;
  MLS : string;
  days_on_zillow : string;
  views : string;
  saves : string;
  url : string
}.

Definition parsePropertyFields (html : Html) (url : string) : Res PropertyDetails :=
  soup ← Bs4.BeautifulSoup (Some html);
  '(address, MLS, listed_price) ← extractPropertyInfo soup;
  '(days_on_zillow, views, saves) ← extractStats soup;
  Ok (mkDetails address listed_price MLS days_on_zillow views saves url).

End Propertyfields.

(** * scraper.py *)

Module Scraper.
Import Zipwiseproperties.

(** ** The CSV sinks *)

Definition read_file (filename : string) (w : World) : File :=
  default [] (fs w !! filename).

(** [open(filename, 'a')]: the file is created when it is missing, and
    the position [file.tell()] reports is 0 exactly when the file is empty
    at that moment. *)
Definition open_append (filename : string) (w : World) : bool * World :=
  let old := read_file filename w in
  (match old with [] => true | _ :: _ => false end,
   set_fs (<[filename := old]> (fs w)) w).

(** Leaving the [with] block: the rows handed to the writer, which it
    keeps in its buffer until then, reach the file in one piece, behind
    what the file holds by then. *)
Definition close_append (filename : string) (rows : list Row) (w : World) : World :=
  set_fs (<[filename := read_file filename w ++ rows]> (fs w)) w.

(** The header goes first [if file.tell() == 0]. *)
Definition with_header (empty : bool) (header row : Row) : list Row :=
  if empty then [header; row] else [row].

(** A call that no other thread interrupts: open, write, close. *)
Definition append_row (header row : Row) (filename : string) (w : World) : World :=
  let '(empty, w1) := open_append filename w in
  close_append filename (with_header empty header row) w1.

Definition details_header : Row :=
  ["address"; "listed_price"; "MLS #"; "days_on_zillow"; "views"; "saves";
   "url"; "timestamp"].

Definition details_row (d : Propertyfields.PropertyDetails) (timestamp : string) : Row :=
  [Propertyfields.address d; Propertyfields.listed_price d; Propertyfields.MLS d;
   Propertyfields.days_on_zillow d; Propertyfields.views d; Propertyfields.saves d;
   Propertyfields.url d; timestamp].

Definition save_property_details_to_csv (property_details : Propertyfields.PropertyDetails)
    (timestamp : string) (filename : string) (w : World) : World :=
  append_row details_header (details_row property_details timestamp) filename w.

Definition error_header : Row := ["Error URL"; "Error Message"].

(** [str(error)] *)
Definition str_error (error : option string) : string :=
  default "None" error.

Definition save_error_urls (url : string) (error : option string)
    (filename : string) (w : World) : World :=
  append_row error_header [url; str_error error] filename w.

(** ** Truth values and integers *)

Definition truthy (html : option Html) : bool :=
  match html with
  | Some h => truthy_html h
  | None => false
  end.

Definition truthy_links (links : option (list Json)) : bool :=
  match links with
  | Some (_ :: _) => true
  | _ => false
  end.

(** A JSON value used as an integer: [True] is 1 and [False] is 0;
    anything else but a number is a [TypeError]. *)
Definition as_int (j : Json) : Res Z :=
  match j with
  | JNum n => Ok n
  | JBool b => Ok (if b then 1 else 0)
  | _ => Raise TypeError
  end.

(** [range(lo, hi)] *)
Definition range (lo hi : Z) : list Z := seqZ lo (hi - lo).

(** ** Loops that an exception cuts short

    A loop body takes the links gathered so far and the world, and either
    finishes or raises; what it gathered and did before raising stays. *)

Definition Step : Type := list Json -> World -> list Json * World * option PyExn.

Fixpoint for_each {A} (xs : list A) (body : A -> Step) : Step :=
  fun all_links w =>
    match xs with
    | [] => (all_links, w, None)
    | x :: xs' =>
      match body x all_links w with
      | (all_links', w', None) => for_each xs' body all_links' w'
      | stopped => stopped
      end
    end.

Section Discovery.
Context `{JsonLib}.

(** ** scrape_all_pages *)

Definition page_step (base_url : string) (page_number : Z) : Step :=
  fun all_links w =>
    match update_url_with_page base_url page_number with
    | Raise e => (all_links, w, Some e)
    | Ok url =>
      let '((html, error), w1) := fetch_html_with_zyte url w in
      if truthy html then
        match parse_properties html with
        | Raise e => (all_links, w1, Some e)
        | Ok links =>
          if truthy_links links then (all_links ++ default [] links, w1, None)
          else (all_links, w1, None)
        end
      else (all_links, w1, None)
    end.

Definition scrape_all_pages (zip_code base_url : string) (total_pages_count : Json)
    (w : World) : Res (list Json) * World :=
  match as_int total_pages_count with
  | Raise e => (Raise e, w)
  | Ok n =>
    match for_each (range 2 (n + 1)) (page_step base_url) [] w with
    | (all_links, w', None) => (Ok all_links, w')
    | (_, w', Some e) => (Raise e, w')
    end
  end.

(** ** scrape_properties *)

Definition price_filters : list (Z * option Z) :=
  [(0, Some 300000); (300001, Some 400000); (400001, Some 450000);
   (450001, Some 500000); (500001, Some 600000); (600001, Some 800000);
   (800001, None)].

Definition bed_filters : list (Z * option Z) :=
  [(0, Some 0); (1, Some 1); (2, Some 2); (3, Some 3); (4, Some 4); (5, None)].

Definition bed_step (zip_code filtered_url : string) (beds : Z * option Z) : Step :=
  fun all_links w =>
    let '(min_beds, max_beds) := beds in
    match update_url_with_beds filtered_url min_beds max_beds with
    | Raise e => (all_links, w, Some e)
    | Ok bed_filtered_url =>
      let '((html, error), w1) := fetch_html_with_zyte bed_filtered_url w in
      match total_pages html with
      | Raise e => (all_links, w1, Some e)
      | Ok pages_count =>
        match parse_properties html with
        | Raise e => (all_links, w1, Some e)
        | Ok links =>
          let all_links1 :=
            if truthy_links links then all_links ++ default [] links else all_links in
          match links with
          | None => (all_links1, w1, Some TypeError)     (* len(None) *)
          | Some _ =>
            match scrape_all_pages zip_code bed_filtered_url pages_count w1 with
            | (Ok more, w2) => (all_links1 ++ more, w2, None)
            | (Raise e, w2) => (all_links1, w2, Some e)
            end
          end
        end
      end
    end.

Definition price_step (zip_code base_url : string) (price_filter : Z * option Z) : Step :=
  fun all_links w =>
    let '(min_price, max_price) := price_filter in
    match update_url_with_price base_url min_price max_price with
    | Raise e => (all_links, w, Some e)
    | Ok filtered_url => for_each bed_filters (bed_step zip_code filtered_url) all_links w
    end.

(** [total_pages_count >= 20] *)
Definition at_least (j : Json) (bound : Z) : Res bool :=
  n ← as_int j; Ok (bound <=? n).

(** What follows the first two statements of the [try] block once the
    base page is in hand. *)
Definition walk (zip_code base_url : string) (html : option Html) : Step :=
  fun all_links w =>
    match parse_properties html with
    | Raise e => (all_links, w, Some e)
    | Ok links =>
      let all_links :=
        if truthy_links links then all_links ++ default [] links else all_links in
      match total_pages html with
      | Raise e => (all_links, w, Some e)
      | Ok total_pages_count =>
        match at_least total_pages_count 20 with
        | Raise e => (all_links, w, Some e)
        | Ok true => for_each price_filters (price_step zip_code base_url) all_links w
        | Ok false =>
          match scrape_all_pages zip_code base_url total_pages_count w with
          | (Ok more, w') => (all_links ++ more, w', None)
          | (Raise e, w') => (all_links, w', Some e)
          end
        end
      end
    end.

(** Python never hashes a list or a dictionary. *)
Definition hashable (j : Json) : bool :=
  match j with
  | JArr _ | JObj _ => false
  | _ => true
  end.

(** [==] on hashable values: [True == 1] and [False == 0]. *)
Definition py_eq (a b : Json) : bool :=
  match a, b with
  | JNull, JNull => true
  | JStr s, JStr t => String.eqb s t
  | JStr _, _ | _, JStr _ => false
  | _, _ =>
    match as_int a, as_int b with
    | Ok m, Ok n => m =? n
    | _, _ => false
    end
  end.

(** The members of a set, each once.  Python fixes no order on them; the
    model lists them by first insertion. *)
Fixpoint set_members (seen items : list Json) : list Json :=
  match items with
  | [] => []
  | x :: items' =>
    if existsb (py_eq x) seen then set_members seen items'
    else x :: set_members (x :: seen) items'
  end.

(** [list(set(all_links))] *)
Definition list_set (all_links : list Json) : Res (list Json) :=
  if forallb hashable all_links then Ok (set_members [] all_links)
  else Raise TypeError.

(** The [try] block, with the links gathered when it ends or raises. *)
Definition scrape_properties_try (zip_code base_url : string) (w : World)
    : list Json * World * option PyExn :=
  let '((html, error), w1) := fetch_html_with_zyte base_url w in
  if negb (truthy html) then ([], w1, None)       (* return all_links *)
  else walk zip_code base_url html [] w1.

(** The early [return all_links] hands back the empty list, which is also
    what [list(set([]))] is. *)
Definition scrape_properties (zip_code base_url : string) (w : World)
    : Res (list Json) * World :=
  let '(all_links, w', _) := scrape_properties_try zip_code base_url w in
  (list_set all_links, w').

End Discovery.

(** ** process_url

    One harvest pass shares two counters, Python lists that grow by one
    [1] per URL, beside the world. *)

Record Pass := mkPass {
  world : World;
  success_counter : list Z;
  error_counter : list Z
}.

Definition process_url (url results_file error_file : string) (p : Pass)
    : Res unit * Pass :=
  let timestamp := now_timestamp (world p) in
  let '((html, error), w1) := fetch_html_with_zyte url (world p) in
  match html with
  | Some page =>
    if truthy_html page then
      match Propertyfields.parsePropertyFields page url with
      | Ok property_details =>
        let w2 := save_property_details_to_csv property_details timestamp results_file w1 in
        (Ok (), mkPass w2 (success_counter p ++ [1]) (error_counter p))
      | Raise e => (Raise e, mkPass w1 (success_counter p) (error_counter p))
      end
    else
      let w2 := save_error_urls url error error_file w1 in
      (Ok (), mkPass w2 (success_counter p) (error_counter p ++ [1]))
  | None =>
    let w2 := save_error_urls url error error_file w1 in
    (Ok (), mkPass w2 (success_counter p) (error_counter p ++ [1]))
  end.

(** ** One call of process_url, step by step

    The workers of a pool run at the same time.  A worker is at one of
    the places below, with the local variables it has there; a step takes
    it to the next place through one action on what the workers share:
    reading the clock, a POST, a sleep, opening a file, closing it,
    appending to a counter.  Between two steps of a worker any other
    worker may take steps of its own. *)

Inductive Counter := Success | Error.

#[global] Instance Counter_eq_dec : EqDecision Counter.
Proof. solve_decision. Defined.

Inductive Worker :=
| Started
| Fetching (timestamp : string) (budget : nat) (retry_delay : Z)
           (last_error_message : option string)      (* at the head of the loop *)
| Backing_off (timestamp : string) (budget : nat) (retry_delay : Z)
              (last_error_message : option string)   (* at [time.sleep] *)
| Opening (counter : Counter) (row : Row)             (* at [open(filename, 'a')] *)
| Closing (counter : Counter) (empty : bool) (row : Row)   (* at the end of [with] *)
| Counting (counter : Counter) (row : Row)            (* at [counter.append(1)] *)
| Saved (counter : Counter) (row : Row)               (* returned *)
| Raised (e : PyExn).                                 (* raised *)

Definition with_world (w : World) (p : Pass) : Pass :=
  mkPass w (success_counter p) (error_counter p).

Definition count (counter : Counter) (p : Pass) : Pass :=
  match counter with
  | Success => mkPass (world p) (success_counter p ++ [1]) (error_counter p)
  | Error => mkPass (world p) (success_counter p) (error_counter p ++ [1])
  end.

Section Worker.
Variables url results_file error_file : string.

Definition sink (counter : Counter) : string :=
  match counter with
  | Success => results_file
  | Error => error_file
  end.

Definition header_of (counter : Counter) : Row :=
  match counter with
  | Success => details_header
  | Error => error_header
  end.

(** From the return of the fetch to the [open] of a sink. *)
Definition fetched (timestamp : string) (result : FetchResult) : Worker :=
  let '(html, error) := result in
  match html with
  | Some page =>
    if truthy_html page then
      match Propertyfields.parsePropertyFields page url with
      | Ok property_details => Opening Success (details_row property_details timestamp)
      | Raise e => Raised e
      end
    else Opening Error [url; str_error error]
  | None => Opening Error [url; str_error error]
  end.

Definition step (worker : Worker) (p : Pass) : Worker * Pass :=
  match worker with
  | Started => (Fetching (now_timestamp (world p)) 5 1 None, p)
  | Fetching timestamp O retry_delay last_error_message =>
    (fetched timestamp (None, last_error_message), p)
  | Fetching timestamp (S budget') retry_delay last_error_message =>
    let (reply, w1) := requests_post url (world p) in
    let p1 := with_world w1 p in
    match reply with
    | Response status reason body =>
      if is_retry_status status then
        (Backing_off timestamp budget' retry_delay
                     (Some (pretty status +:+ ": " +:+ reason)), p1)
      else
        match http_error_message status reason with
        | Some msg =>
          (Fetching timestamp budget' retry_delay
                    (Some (request_error_message None msg)), p1)
        | None =>
          match body with
          | HttpResponseBody html => (fetched timestamp (Some html, None), p1)
          | NotJson msg =>
            (Fetching timestamp budget' retry_delay
                      (Some (request_error_message None msg)), p1)
          | Undecodable msg => (fetched timestamp (None, Some msg), p1)
          end
        end
    | RaiseTimeout msg =>
      (Fetching timestamp budget' retry_delay (Some ("Timeout: " +:+ msg)), p1)
    | RaiseRequestException ok_status msg =>
      (Fetching timestamp budget' retry_delay
                (Some (request_error_message ok_status msg)), p1)
    | RaiseOther msg => (fetched timestamp (None, Some msg), p1)
    end
  | Backing_off timestamp budget retry_delay last_error_message =>
    (Fetching timestamp budget (retry_delay * 2) last_error_message,
     with_world (time_sleep retry_delay (world p)) p)
  | Opening counter row =>
    let '(empty, w1) := open_append (sink counter) (world p) in
    (Closing counter empty row, with_world w1 p)
  | Closing counter empty row =>
    (Counting counter row,
     with_world (close_append (sink counter)
                              (with_header empty (header_of counter) row) (world p)) p)
  | Counting counter row => (Saved counter row, count counter p)
  | Saved counter row => (Saved counter row, p)
  | Raised e => (Raised e, p)
  end.

(** A bound on the steps a worker has left. *)
Definition steps_left (worker : Worker) : nat :=
  match worker with
  | Started => 2 * 5 + 5
  | Fetching _ budget _ _ => 2 * budget + 4
  | Backing_off _ budget _ _ => 2 * budget + 5
  | Opening _ _ => 3
  | Closing _ _ _ => 2
  | Counting _ _ => 1
  | Saved _ _ | Raised _ => 0
  end.

Fixpoint work (n : nat) (worker : Worker) (p : Pass) : Worker * Pass :=
  match n with
  | O => (worker, p)
  | S n' => let '(worker', p') := step worker p in work n' worker' p'
  end.

End Worker.

(** What a call that has ended hands to [future.result()]. *)
Definition result_of (worker : Worker) : Res unit :=
  match worker with
  | Raised e => Raise e
  | _ => Ok ()
  end.

(** ** The thread pool

    [executor.submit] starts a worker for every URL and [future.result()]
    waits for them in submission order.  A schedule names, step by step,
    the worker that moves next; when it is used up the workers that have
    not returned are run to their end, so every list of numbers is a
    schedule and every worker has returned when the pool is left, also
    when a [future.result()] raises.  The bound [max_workers] on the
    workers running at once is not modelled: it only rules schedules
    out. *)

Definition Job : Type := nat * string.

Definition number (urls : list string) : list Job :=
  zip (seq 0 (length urls)) urls.

Definition Pool : Type := list (string * Worker).

Section Pool.
Variables results_file error_file : string.

Definition step_at (i : nat) (pool : Pool) (p : Pass) : Pool * Pass :=
  match pool !! i with
  | Some (url, worker) =>
    let '(worker', p') := step url results_file error_file worker p in
    (<[i := (url, worker')]> pool, p')
  | None => (pool, p)
  end.

Fixpoint interleave (schedule : list nat) (pool : Pool) (p : Pass) : Pool * Pass :=
  match schedule with
  | [] => (pool, p)
  | i :: schedule' =>
    let '(pool', p') := step_at i pool p in interleave schedule' pool' p'
  end.

(** Worker [i] runs on until it has returned. *)
Definition finish_at (i : nat) (pool : Pool) (p : Pass) : Pool * Pass :=
  match pool !! i with
  | Some (url, worker) => interleave (replicate (steps_left worker) i) pool p
  | None => (pool, p)
  end.

Fixpoint complete (indices : list nat) (pool : Pool) (p : Pass) : Pool * Pass :=
  match indices with
  | [] => (pool, p)
  | i :: indices' =>
    let '(pool', p') := finish_at i pool p in complete indices' pool' p'
  end.

Definition run_workers (schedule : list nat) (urls : list string) (p : Pass)
    : Pool * Pass :=
  let '(pool, p1) := interleave schedule (map (fun url => (url, Started)) urls) p in
  complete (seq 0 (length urls)) pool p1.

(** [for future in futures: future.result()] *)
Fixpoint collect (pool : Pool) : Res unit :=
  match pool with
  | [] => Ok ()
  | (_, Raised e) :: _ => Raise e
  | _ :: pool' => collect pool'
  end.

Definition run_pool (schedule : list nat) (urls : list string) (p : Pass)
    : Res unit * Pass :=
  let '(pool, p') := run_workers schedule urls p in
  (collect pool, p').

End Pool.

Definition results_path (city : string) (w : World) : string :=
  "scraped_results/" +:+ city +:+ "/" +:+ today w +:+ "/" +:+ city
  +:+ "_property_details.csv".

Definition error_path (city : string) (w : World) : string :=
  "scraped_errors/" +:+ city +:+ "/" +:+ today w +:+ "/error_property_urls.csv".

(** [next(reader)] then [[row[0] for row in reader]] *)
Definition first_column (file : File) : Res (list string) :=
  match file with
  | [] => Raise StopIteration
  | _header :: rows =>
    mapM (M := Res) (fun row : Row =>
                       match row with
                       | cell :: _ => Ok cell
                       | [] => Raise IndexError
                       end) rows
  end.

(** ** scrape_city

    The pass is returned with its counters, which the source only logs. *)
Definition scrape_city (schedule : list nat) (city csv_filename : string)
    (max_workers : nat) (w : World) : Res unit * Pass :=
  let results_file := results_path city w in
  let error_file := error_path city w in
  match fs w !! csv_filename with
  | None => (Raise FileNotFoundError, mkPass w [] [])
  | Some file =>
    match first_column file with
    | Raise e => (Raise e, mkPass w [] [])
    | Ok property_links =>
      run_pool results_file error_file schedule property_links (mkPass w [] [])
    end
  end.

(** ** retry_failed_urls *)
Definition retry_failed_urls (schedule : list nat) (city : string) (max_workers : nat)
    (w : World) : Res unit * Pass :=
  let error_file := error_path city w in
  match fs w !! error_file with
  | None => (Ok (), mkPass w [] [])              (* no error file: skip *)
  | Some file =>
    match first_column file with
    | Raise e => (Raise e, mkPass w [] [])
    | Ok [] => (Ok (), mkPass w [] [])           (* nothing to retry *)
    | Ok error_urls =>
      let results_file := results_path city w in
      let w1 := set_fs (delete error_file (fs w)) w in      (* os.remove *)
      run_pool results_file error_file schedule error_urls (mkPass w1 [] [])
    end
  end.

(** ** main: steps 2 and 3 of the loop body, for one city, each pool
    with a schedule of its own *)
Definition main_scrape_and_retry (first second : list nat) (city filename : string)
    (w : World) : Res unit * World :=
  match scrape_city first city filename 14 w with
  | (Raise e, p) => (Raise e, world p)
  | (Ok _, p) =>
    let '(r, p') := retry_failed_urls second city 14 (world p) in
    (r, world p')
  end.

End Scraper.

(** * zipwiseproperties.py: the search URL of a zip code *)

Module Zipcodes.
Import Zipwiseproperties.

(** [not value] for a JSON value. *)
Definition falsy (value : Json) : bool :=
  match value with
  | JNull => true
  | JBool b => negb b
  | JNum n => n =? 0
  | JStr s => PyStr.is_empty s
  | JArr [] => true
  | JArr (_ :: _) => false
  | JObj [] => true
  | JObj (_ :: _) => false
  end.

Definition fetch_zipcode_url (zipcode : string) (w : World) : option Html * World :=
  let base_url := "https://www.zillow.com/homes/" +:+ zipcode +:+ "_rb/" in
  let '((html, error), w') := fetch_html_with_zyte base_url w in
  (html, w').

Section Zipcodes.
Context `{JsonLib}.

(** How an f-string prints a value that is not a string: Python's [repr]
    of numbers, lists and dictionaries, which the model leaves open. *)
Variable py_repr : Json -> string.

(** [f"{value}"] *)
Definition formatted (value : Json) : string :=
  match value with
  | JStr s => s
  | _ => py_repr value
  end.

(** The part both generators share, after the page is parsed. *)
Definition final_url (prefix suffix : string)
    (parsed : Res (option (Json * Json))) : Res (option string) :=
  match parsed with
  | Raise e => Raise e
  | Ok None => Ok None                           (* not None *)
  | Ok (Some (baseurl, queryState)) =>
    if (falsy baseurl || falsy queryState)%bool then Ok None
    else
      let queryState_json := json_dumps queryState in
      Ok (Some (prefix +:+ formatted baseurl +:+ suffix +:+ queryState_json))
  end.

Definition generate_zipcode_url_sold (zipcode : string) (w : World)
    : Res (option string) * World :=
  let '(html, w') := fetch_zipcode_url zipcode w in
  match html with
  | Some page =>
    if truthy_html page then
      (final_url "https://www.zillow.com" "sold/?searchQueryState="
                 (parse_soldQueryState html), w')
    else (Ok None, w')
  | None => (Ok None, w')
  end.

Definition generate_zipcode_url (zipcode : string) (w : World)
    : Res (option string) * World :=
  let '(html, w') := fetch_zipcode_url zipcode w in
  match html with
  | Some page =>
    if truthy_html page then
      (final_url "https://www.zillow.com/homes" "?searchQueryState="
                 (parse_queryState html), w')
    else (Ok None, w')
  | None => (Ok None, w')
  end.

End Zipcodes.

End Zipcodes.

(** * scraper.py: the links of a metropolitan area *)

Module Msa.
Import Zipwiseproperties Scraper Zipcodes.

(** What [csv.writer] writes for a field, as [csv.reader] reads it back:
    a string as it is, [None] as the empty string, anything else through
    [str]. *)
Definition csv_cell (py_repr : Json -> string) (value : Json) : string :=
  match value with
  | JStr s => s
  | JNull => EmptyString
  | JBool true => "True"
  | JBool false => "False"
  | JNum n => pretty n
  | _ => py_repr value
  end.

(** [for future in as_completed(futures)], with the handler of the
    [try]: the message it formats indexes the list [futures] with a
    future, which is a [TypeError]. *)
Fixpoint await (results : list (nat * Res unit)) : Res unit :=
  match results with
  | [] => Ok ()
  | (_, Ok _) :: results' => await results'
  | (_, Raise _) :: _ => Raise TypeError
  end.

Section Msa.
Context `{JsonLib}.
Variable py_repr : Json -> string.

(** [pd.read_csv], [drop_duplicates] and [to_csv(index=False)] on the
    links file: what pandas makes of a file is left open. *)
Variable pandas_drop_duplicates : File -> Res File.

Variable schedule : list Job -> list Job.

(** Open for append and write one row per link; no header. *)
Definition save_links_to_csv (links : list Json) (filename : string) (w : World)
    : World :=
  let rows := map (fun link => [csv_cell py_repr link]) links in
  set_fs (<[filename := read_file filename w ++ rows]> (fs w)) w.

Definition process_zip_code (zip_code filename : string) (w : World)
    : Res unit * World :=
  let '(generated, w1) := generate_zipcode_url py_repr zip_code w in
  match generated with
  | Raise e => (Raise e, w1)
  | Ok None => (Ok (), w1)
  | Ok (Some base_url) =>
    if PyStr.is_empty base_url then (Ok (), w1)
    else
      let '(scraped, w2) := scrape_properties zip_code base_url w1 in
      match scraped with
      | Raise e => (Raise e, w2)
      | Ok [] => (Ok (), w2)                       (* no links found *)
      | Ok links => (Ok (), save_links_to_csv links filename w2)
      end
  end.

(** The workers of [process_msa], each run to completion, in the order
    they complete. *)
Fixpoint run_zip_codes (filename : string) (jobs : list Job) (w : World)
    : list (nat * Res unit) * World :=
  match jobs with
  | [] => ([], w)
  | (i, zip_code) :: jobs' =>
    let '(r, w1) := process_zip_code zip_code filename w in
    let '(rs, w2) := run_zip_codes filename jobs' w1 in
    ((i, r) :: rs, w2)
  end.

(** The file is opened with ['w'], so what it held is gone; the pool
    waits for every worker before an exception leaves the [with] block.
    Directories are not modelled. *)
Definition process_msa (msa_name : string) (msa_zipcodes : list string)
    (filename : string) (w : World) : Res unit * World :=
  let w0 := set_fs (<[filename := [["Property Link"]]]> (fs w)) w in
  let '(results, w1) := run_zip_codes filename (schedule (number msa_zipcodes)) w0 in
  match await results with
  | Raise e => (Raise e, w1)
  | Ok _ =>
    match pandas_drop_duplicates (read_file filename w1) with
    | Raise e => (Raise e, w1)
    | Ok df_links => (Ok (), set_fs (<[filename := df_links]> (fs w1)) w1)
    end
  end.

End Msa.

End Msa.

(** * A small [json] module to run the model on

    Integers, strings in which only the quote and the backslash are
    escaped, arrays and objects, printed the way [json.dumps] prints them. *)

Module MiniJson.

(** A [json] to run the model with.  [dumps] writes as [json.dumps] does
    with its default arguments: the separators [, ] and [: ], and every
    character outside the printable ASCII range escaped.  [loads] reads
    the grammar [json.loads] reads, but for what the type [Json] cannot
    hold: a number with a fraction or an exponent, [NaN] and [Infinity],
    and a character escaped as backslash-u that is not below U+0100; on
    these it raises. *)

Definition dquote : ascii := "034".
Definition backslash : ascii := "092".

Definition hex_digit (n : nat) : ascii :=
  ascii_of_nat (if Nat.ltb n 10 then 48 + n else 87 + n).

(** One character as [json.dumps] writes it inside a string. *)
Definition escape_char (c : ascii) : string :=
  let n := nat_of_ascii c in
  if Ascii.eqb c dquote then String backslash (String dquote EmptyString)
  else if Ascii.eqb c backslash then String backslash (String backslash EmptyString)
  else if Nat.eqb n 10 then String backslash "n"
  else if Nat.eqb n 13 then String backslash "r"
  else if Nat.eqb n 9 then String backslash "t"
  else if Nat.eqb n 8 then String backslash "b"
  else if Nat.eqb n 12 then String backslash "f"
  else if (Nat.ltb n 32 || Nat.ltb 126 n)%bool then
    String backslash
           ("u00" +:+ String (hex_digit (Nat.div n 16))
                             (String (hex_digit (Nat.modulo n 16)) EmptyString))
  else String c EmptyString.

Definition quoted (s : string) : string :=
  let fix escape (s : string) : string :=
    match s with
    | EmptyString => EmptyString
    | String c s' => escape_char c +:+ escape s'
    end in
  String dquote (escape s) +:+ String dquote EmptyString.

Definition join (sep : string) (parts : list string) : string :=
  String.concat sep parts.

Fixpoint dumps (j : Json) : string :=
  match j with
  | JNull => "null"
  | JBool true => "true"
  | JBool false => "false"
  | JNum n => pretty n
  | JStr s => quoted s
  | JArr items => "[" +:+ join ", " (map dumps items) +:+ "]"
  | JObj fields =>
    "{" +:+ join ", " (map (fun kv => quoted (fst kv) +:+ ": " +:+ dumps (snd kv)) fields)
    +:+ "}"
  end.

(** The white space of JSON: space, tab, newline, carriage return. *)
Definition is_ws (c : ascii) : bool :=
  let n := nat_of_ascii c in
  (Nat.eqb n 32 || Nat.eqb n 9 || Nat.eqb n 10 || Nat.eqb n 13)%bool.

Fixpoint skip_ws (s : string) : string :=
  match s with
  | String c s' => if is_ws c then skip_ws s' else s
  | EmptyString => EmptyString
  end.

Definition hex_value (c : ascii) : option nat :=
  let n := nat_of_ascii c in
  if (Nat.leb 48 n && Nat.leb n 57)%bool then Some (n - 48)%nat
  else if (Nat.leb 97 n && Nat.leb n 102)%bool then Some (n - 87)%nat
  else if (Nat.leb 65 n && Nat.leb n 70)%bool then Some (n - 55)%nat
  else None.

(** The character of four hexadecimal digits, when it is below U+0100. *)
Definition hex4 (a b c d : ascii) : option ascii :=
  match hex_value a, hex_value b, hex_value c, hex_value d with
  | Some O, Some O, Some h, Some l => Some (ascii_of_nat (16 * h + l))
  | _, _, _, _ => None
  end.

(** The character a backslash and one letter stand for. *)
Definition simple_escape (e : ascii) : option ascii :=
  if Ascii.eqb e dquote then Some dquote
  else if Ascii.eqb e backslash then Some backslash
  else if Ascii.eqb e "/" then Some "/"%char
  else if Ascii.eqb e "b" then Some "008"%char
  else if Ascii.eqb e "f" then Some "012"%char
  else if Ascii.eqb e "n" then Some "010"%char
  else if Ascii.eqb e "r" then Some "013"%char
  else if Ascii.eqb e "t" then Some "009"%char
  else None.

(** The text up to the closing quote, and what follows it.  A control
    character may not stand in a string unescaped. *)
Fixpoint string_body (s : string) : option (string * string) :=
  match s with
  | EmptyString => None
  | String c s' =>
    if Ascii.eqb c dquote then Some (EmptyString, s')
    else if Ascii.eqb c backslash then
      match s' with
      | String e s'' =>
        if Ascii.eqb e "u" then
          match s'' with
          | String h1 (String h2 (String h3 (String h4 s4))) =>
            match hex4 h1 h2 h3 h4, string_body s4 with
            | Some ch, Some (body, rest) => Some (String ch body, rest)
            | _, _ => None
            end
          | _ => None
          end
        else
          match simple_escape e, string_body s'' with
          | Some ch, Some (body, rest) => Some (String ch body, rest)
          | _, _ => None
          end
      | EmptyString => None
      end
    else if Nat.ltb (nat_of_ascii c) 32 then None
    else
      match string_body s' with
      | Some (body, rest) => Some (String c body, rest)
      | None => None
      end
  end.

Definition digit_value (c : ascii) : option Z :=
  let n := nat_of_ascii c in
  if (Nat.leb 48 n && Nat.leb n 57)%bool then Some (Z.of_nat (n - 48)) else None.

Fixpoint digits (acc : Z) (s : string) : Z * string :=
  match s with
  | String c s' =>
    match digit_value c with
    | Some d => digits (10 * acc + d) s'
    | None => (acc, s)
    end
  | EmptyString => (acc, s)
  end.

(** An integer without a sign: [0], or digits that begin with none. *)
Definition natural (s : string) : option (Z * string) :=
  match s with
  | String c s' =>
    match digit_value c with
    | Some 0 => Some (0, s')
    | Some _ => Some (digits 0 s)
    | None => None
    end
  | EmptyString => None
  end.

(** A number is an integer when no fraction and no exponent follow. *)
Definition integer_ends (rest : string) : bool :=
  match rest with
  | String c _ => negb (Ascii.eqb c "." || Ascii.eqb c "e" || Ascii.eqb c "E")
  | EmptyString => true
  end.

Definition number (s : string) : option (Z * string) :=
  let signed :=
    match s with
    | String c s' =>
      if Ascii.eqb c "-" then (fun r : Z * string => (- r.1, r.2)) <$> natural s'
      else natural s
    | EmptyString => None
    end in
  match signed with
  | Some (n, rest) => if integer_ends rest then Some (n, rest) else None
  | None => None
  end.

Fixpoint value (fuel : nat) (s : string) : option (Json * string) :=
  match fuel with
  | O => None
  | S fuel =>
    let items :=
      fix items (n : nat) (s : string) : option (list Json * string) :=
        match n with
        | O => None
        | S n =>
          match value fuel s with
          | Some (v, rest) =>
            match skip_ws rest with
            | String c rest' =>
              if Ascii.eqb c "," then
                match items n rest' with
                | Some (vs, r) => Some (v :: vs, r)
                | None => None
                end
              else if Ascii.eqb c "]" then Some ([v], rest')
              else None
            | EmptyString => None
            end
          | None => None
          end
        end in
    let fields :=
      fix fields (n : nat) (s : string) : option (list (string * Json) * string) :=
        match n with
        | O => None
        | S n =>
          match skip_ws s with
          | String q s1 =>
            if Ascii.eqb q dquote then
              match string_body s1 with
              | Some (key, s2) =>
                match skip_ws s2 with
                | String colon s3 =>
                  if Ascii.eqb colon ":" then
                    match value fuel s3 with
                    | Some (v, rest) =>
                      match skip_ws rest with
                      | String c rest' =>
                        if Ascii.eqb c "," then
                          match fields n rest' with
                          | Some (kvs, r) => Some ((key, v) :: kvs, r)
                          | None => None
                          end
                        else if Ascii.eqb c "}" then Some ([(key, v)], rest')
                        else None
                      | EmptyString => None
                      end
                    | None => None
                    end
                  else None
                | EmptyString => None
                end
              | None => None
              end
            else None
          | EmptyString => None
          end
        end in
    match skip_ws s with
    | EmptyString => None
    | String c rest as text =>
      if Ascii.eqb c "[" then
        match skip_ws rest with
        | String c' rest' =>
          if Ascii.eqb c' "]" then Some (JArr [], rest')
          else (fun r => (JArr r.1, r.2)) <$> items fuel rest
        | EmptyString => None
        end
      else if Ascii.eqb c "{" then
        match skip_ws rest with
        | String c' rest' =>
          if Ascii.eqb c' "}" then Some (JObj [], rest')
          else (fun r => (JObj r.1, r.2)) <$> fields fuel rest
        | EmptyString => None
        end
      else if Ascii.eqb c dquote then
        (fun r => (JStr r.1, r.2)) <$> string_body rest
      else
        match PyStr.strip_prefix "null" text, PyStr.strip_prefix "true" text,
              PyStr.strip_prefix "false" text with
        | Some r, _, _ => Some (JNull, r)
        | _, Some r, _ => Some (JBool true, r)
        | _, _, Some r => Some (JBool false, r)
        | _, _, _ => (fun r => (JNum r.1, r.2)) <$> number text
        end
    end
  end.

Definition loads (s : string) : Res Json :=
  match value (S (String.length s)) s with
  | Some (v, rest) =>
    if PyStr.is_empty (skip_ws rest) then Ok v else Raise JSONDecodeError
  | None => Raise JSONDecodeError
  end.

#[export] Instance lib : JsonLib := {| json_loads := loads; json_dumps := dumps |}.

End MiniJson.

(** * Vocabulary of the statements *)

Module Traces.
Import Zipwiseproperties.

(** The POSTs and sleeps of [n] rate-limited attempts from delay [d]. *)
Fixpoint backoff_trace (url : string) (n : nat) (d : Z) : list Event :=
  match n with
  | O => []
  | S n' => EvPost url :: EvSleep d :: backoff_trace url n' (d * 2)
  end.

(** The message the loop keeps for a reply that carries a status. *)
Definition status_line (r : Reply) : option string :=
  match r with
  | Response status reason _ => Some (pretty status +:+ ": " +:+ reason)
  | _ => None
  end.

Definition transient_status (r : Reply) : Prop :=
  match r with
  | Response status _ _ => is_retry_status status = true
  | _ => False
  end.

Definition timed_out (r : Reply) : Prop :=
  match r with
  | RaiseTimeout _ => True
  | _ => False
  end.

Definition timeout_line (r : Reply) : option string :=
  match r with
  | RaiseTimeout msg => Some ("Timeout: " +:+ msg)
  | _ => None
  end.

Definition always_429 (url : string) (w : World) : Prop :=
  forall k, exists reason body, upstream w k url = Response 429 reason body.

Definition always_times_out (url : string) (w : World) : Prop :=
  forall k, exists msg, upstream w k url = RaiseTimeout msg.

Definition is_sleep (e : Event) : bool :=
  match e with
  | EvSleep _ => true
  | EvPost _ => false
  end.

End Traces.

(** What the sinks hold, and what became of each URL of a pass. *)

Module Sinks.
Import Zipwiseproperties Scraper.

(** A column of a CSV file, the header row left out. *)
Definition column (i : nat) (file : File) : list string :=
  omap (fun row : Row => row !! i) (drop 1 file).

Definition result_urls (results_file : string) (w : World) : list string :=
  column 6 (read_file results_file w).

Definition ledger_urls (error_file : string) (w : World) : list string :=
  column 0 (read_file error_file w).

(** What a file gains from a sequence of writes, each one a row with
    the header before it or without. *)
Definition written (header : Row) (writes : list (bool * Row)) : list Row :=
  flat_map (fun write : bool * Row =>
              if write.1 then [header; write.2] else [write.2]) writes.

(** A file that grew by such writes.  A header is written only into a
    file that was empty before the first of them, and the first write
    into such a file has one. *)
Definition grown (header : Row) (old new : File) (writes : list (bool * Row)) : Prop :=
  new = old ++ written header writes
  /\ (old <> [] -> Forall (fun write : bool * Row => write.1 = false) writes)
  /\ (old = [] -> forall write, head writes = Some write -> write.1 = true).

(** The page of a fetch that passes [if html:]. *)
Definition content (result : FetchResult) : option Html :=
  match result.1 with
  | Some page => if truthy_html page then Some page else None
  | None => None
  end.

(** The file after one write that nothing interrupts. *)
Definition appended (header row : Row) (old : File) : File :=
  match old with
  | [] => [header; row]
  | _ :: _ => old ++ [row]
  end.

(** The rows of the workers that have saved to a sink and returned, and
    the exceptions of those that have raised, in submission order. *)
Definition saved (counter : Counter) (pool : Pool) : list Row :=
  flat_map (fun job : string * Worker =>
              match job.2 with
              | Saved c row => if decide (c = counter) then [row] else []
              | _ => []
              end) pool.

Definition raised (pool : Pool) : list PyExn :=
  flat_map (fun job : string * Worker =>
              match job.2 with
              | Raised e => [e]
              | _ => []
              end) pool.

Definition finished (worker : Worker) : Prop :=
  match worker with
  | Saved _ _ | Raised _ => True
  | _ => False
  end.

Definition counter_of (counter : Counter) (p : Pass) : list Z :=
  match counter with
  | Success => success_counter p
  | Error => error_counter p
  end.

(** ** Where a worker's row comes from

    The workers share the upstream, and a reply depends on how many POSTs
    all of them have made.  [replay w0 ks n] is the world of one worker's
    fetch taken alone: its [m]-th POST is answered as the upstream answered
    the POST numbered [ks !! m] of the pool. *)
Definition replay (w0 : World) (ks : list nat) (n : nat) : World :=
  mkWorld (fun m url => upstream w0 (nth m ks 0%nat) url) n []
          (today w0) (clock w0) (fs w0).

(** What a fetch returned and the POST count it ended at. *)
Definition outcome (run : FetchResult * World) : FetchResult * nat :=
  (run.1, posts run.2).

(** A worker read the clock when [k0] POSTs had been made, and its own
    POSTs are the ones numbered [ks], in the order it made them. *)
Definition posts_of (p0 p : Pass) (k0 : nat) (ks : list nat) : Prop :=
  (posts (world p0) <= k0 <= posts (world p))%nat
  /\ StronglySorted lt ks
  /\ Forall (fun k => (k0 <= k < posts (world p))%nat) ks.

(** The header of each sink, as the source spells it. *)
Definition header_row (counter : Counter) : Row :=
  match counter with
  | Success => ["address"; "listed_price"; "MLS #"; "days_on_zillow"; "views"; "saves";
                "url"; "timestamp"]
  | Error => ["Error URL"; "Error Message"]
  end.

(** How a call of [process_url] ends on the result of its fetch: with
    the record of the page saved, with what the extractor raised, or with
    the URL and the message of the fetch saved. *)
Definition ending (url timestamp : string) (result : FetchResult) : Worker :=
  match content result with
  | Some page =>
    match Propertyfields.parsePropertyFields page url with
    | Ok d =>
      Saved Success [Propertyfields.address d; Propertyfields.listed_price d;
                     Propertyfields.MLS d; Propertyfields.days_on_zillow d;
                     Propertyfields.views d; Propertyfields.saves d;
                     Propertyfields.url d; timestamp]
    | Raise e => Raised e
    end
  | None =>
    Saved Error [url; match result.2 with
                      | Some message => message
                      | None => "None"
                      end]
  end.

(** A worker that has ended as [process_url] ends on the result of
    [fetch_html_with_zyte] over the replies to the worker's own POSTs,
    all of them used, with the time the worker read before them. *)
Definition settled (p0 p : Pass) (job : string * Worker) : Prop :=
  exists (k0 : nat) (ks : list nat) (result : FetchResult),
    posts_of p0 p k0 ks
    /\ outcome (fetch_html_with_zyte job.1 (replay (world p0) ks 0)) = (result, length ks)
    /\ job.2 = ending job.1 (clock (world p0) k0) result.

(** What a pool has done when it is left: a worker for every URL, each
    one ended; each sink grown by the rows of the workers that saved to
    it, in the order they closed it; each counter by a [1] for each of
    them; a sink that no worker saved to is on disk, or is not, as
    before; nothing else written. *)
Definition harvested (results_file error_file : string) (p0 : Pass)
    (urls : list string) (pool : Pool) (p : Pass) : Prop :=
  pool.*1 = urls
  /\ Forall (settled p0 p) pool
  /\ (forall counter,
        exists writes,
          grown (header_row counter)
                (read_file (sink results_file error_file counter) (world p0))
                (read_file (sink results_file error_file counter) (world p))
                writes
          /\ writes.*2 ≡ₚ saved counter pool)
  /\ (forall counter,
        counter_of counter p
        = counter_of counter p0 ++ replicate (length (saved counter pool)) 1)
  /\ (forall counter,
        saved counter pool = [] ->
        fs (world p) !! sink results_file error_file counter
        = fs (world p0) !! sink results_file error_file counter)
  /\ today (world p) = today (world p0)
  /\ upstream (world p) = upstream (world p0)
  /\ (forall f, f <> results_file -> f <> error_file ->
                fs (world p) !! f = fs (world p0) !! f).

(** What stays as it was when code only talks to the network: the
    upstream, the files and the date. *)
Definition untouched (w w' : World) : Prop :=
  upstream w' = upstream w /\ fs w' = fs w /\ today w' = today w.

(** A CSV file that, when it exists, has a header row and no blank row
    under it. *)
Definition kept_ledger (filename : string) (w : World) : Prop :=
  forall file, fs w !! filename = Some file ->
    exists header rows, file = header :: rows /\ Forall (fun row : Row => row <> []) rows.


End Sinks.

(** What a search URL carries, and what the price mutator writes. *)

Module States.
Import Zipwiseproperties.

Section States.
Context `{JsonLib}.

(** The state a URL decodes to, by the steps the mutators take. *)
Definition decode (url : string) : Res Json :=
  parts ← split_url url; Ok parts.2.

(** [search_query_state['filterState'][key]] *)
Definition filter_of (search_query_state : Json) (key : string) : Res Json :=
  filterState ← getitem search_query_state "filterState";
  getitem filterState key.

(** The two assignments of [update_url_with_price]. *)
Definition priced (search_query_state : Json) (min_price : Z) (max_price : option Z)
    : Res Json :=
  search_query_state ← setitem2 search_query_state "filterState" "price"
                                (min_max min_price max_price);
  setitem2 search_query_state "filterState" "mp" (min_max 0 None).

(** The filters [parse_queryState] writes, in the order it writes them. *)
Definition sale_filters : list (string * Json) :=
  [("mf", value_of false); ("con", value_of false); ("land", value_of false);
   ("apa", value_of false); ("manu", value_of false); ("apco", value_of false)].

(** The filters [parse_soldQueryState] writes. *)
Definition sold_filters : list (string * Json) :=
  [("mf", value_of false); ("con", value_of false); ("land", value_of false);
   ("apa", value_of false); ("manu", value_of false); ("rs", value_of true);
   ("fsba", value_of false); ("fsbo", value_of false); ("nc", value_of false);
   ("cmsn", value_of false); ("auc", value_of false); ("fore", value_of false);
   ("doz", JObj [("value", JStr "24m")])].

(** A dictionary after a run of assignments [d[key] = value]. *)
Definition assigned (filters d : list (string * Json)) : list (string * Json) :=
  fold_left (fun d kv => PyDict.store kv.1 kv.2 d) filters d.

(** A dictionary of filters after [isAllHomes] is deleted and
    [sortSelection] is moved to [sort]. *)
Definition renamed (d : list (string * Json)) : list (string * Json) :=
  let d1 := match PyDict.lookup "isAllHomes" d with
            | Some _ => PyDict.remove "isAllHomes" d
            | None => d
            end in
  match PyDict.lookup "sortSelection" d1 with
  | Some v => PyDict.store "sort" v (PyDict.remove "sortSelection" d1)
  | None => d1
  end.

(** The keys under which the page keeps the area's base URL and its
    query state. *)
Definition baseUrl_path : list string :=
  ["props"; "pageProps"; "searchPageState"; "searchPageSeoObject"; "baseUrl"].

Definition queryState_path : list string :=
  ["props"; "pageProps"; "searchPageState"; "queryState"].

End States.

End States.

(** The requests a walk over an upstream that serves every page makes. *)

Module Plan.
Import Zipwiseproperties Scraper.

Definition urls_of (r : Res string) : list string :=
  match r with
  | Ok url => [url]
  | Raise _ => []
  end.

(** A value that lies in a band of a filter: at or above its minimum,
    and at or below its maximum when it has one. *)
Definition in_band (band : Z * option Z) (x : Z) : bool :=
  (band.1 <=? x)
  && match band.2 with
     | Some high => x <=? high
     | None => true
     end.

Section Plan.
Context `{JsonLib}.

(** Every POST is answered with status 200 and the page [site] has for
    the URL. *)
Definition served (site : string -> Html) (w : World) : Prop :=
  forall k url, upstream w k url = Response 200 "OK" (HttpResponseBody (site url)).

(** The URLs of pages 2 to [n] of a query. *)
Definition paging (base_url : string) (n : Z) : list string :=
  flat_map (fun page_number => urls_of (update_url_with_page base_url page_number))
           (range 2 (n + 1)).

(** The sub-queries: every price band, and within it every bedroom band,
    the price written into the state first and the beds second. *)
Definition bed_urls (filtered_url : string) : list string :=
  flat_map (fun beds : Z * option Z =>
              urls_of (update_url_with_beds filtered_url beds.1 beds.2))
           bed_filters.

Definition facet_urls (base_url : string) : list string :=
  flat_map (fun price : Z * option Z =>
              flat_map bed_urls (urls_of (update_url_with_price base_url price.1 price.2)))
           price_filters.

Definition pages_reported (site : string -> Html) (url : string) : Z :=
  match total_pages (Some (site url)) with
  | Ok count => match as_int count with Ok n => n | Raise _ => 0 end
  | Raise _ => 0
  end.

(** A sub-query and then its own pages 2 to the count its first page
    reports. *)
Definition sub_query_requests (site : string -> Html) (url : string) : list string :=
  url :: paging url (pages_reported site url).

Definition facet_requests (site : string -> Html) (base_url : string) : list string :=
  flat_map (sub_query_requests site) (facet_urls base_url).

(** A page that [scrape_all_pages] takes without raising: one that is
    empty, or one whose links can be read. *)
Definition clean_page (site : string -> Html) (url : string) : Prop :=
  truthy_html (site url) = false
  \/ exists links, parse_properties (Some (site url)) = Ok links.

Definition clean_pages (site : string -> Html) (base_url : string) (n : Z) : Prop :=
  Forall (fun page_number =>
            exists url, update_url_with_page base_url page_number = Ok url
                        /\ clean_page site url)
         (range 2 (n + 1)).

(** A sub-query whose first page gives a page count and a link list, and
    whose further pages are clean. *)
Definition clean_facet (site : string -> Html) (url : string) : Prop :=
  exists count n links,
    total_pages (Some (site url)) = Ok count /\ as_int count = Ok n
    /\ parse_properties (Some (site url)) = Ok (Some links)
    /\ clean_pages site url n.

Definition clean_facets (site : string -> Html) (base_url : string) : Prop :=
  Forall (fun price : Z * option Z =>
            exists filtered_url,
              update_url_with_price base_url price.1 price.2 = Ok filtered_url
              /\ Forall (fun beds : Z * option Z =>
                           exists url,
                             update_url_with_beds filtered_url beds.1 beds.2 = Ok url
                             /\ clean_facet site url)
                        bed_filters)
         price_filters.

(** An upstream that refuses some URLs outright and serves the others. *)
Definition answers (site : string -> option Html) (refusal : string) (w : World) : Prop :=
  forall k url,
    upstream w k url = match site url with
                       | Some html => Response 200 "OK" (HttpResponseBody html)
                       | None => RaiseOther refusal
                       end.

(** The links [scrape_all_pages] takes from one page of such a site. *)
Definition links_of (site : string -> option Html) (url : string) : list Json :=
  match site url with
  | Some html =>
    if truthy_html html then
      match parse_properties (Some html) with
      | Ok (Some links) => links
      | _ => []
      end
    else []
  | None => []
  end.

(** A page that is refused, or empty, or whose links can be read. *)
Definition readable (site : string -> option Html) (url : string) : Prop :=
  match site url with
  | Some html =>
    truthy_html html = false \/ exists links, parse_properties (Some html) = Ok links
  | None => True
  end.

End Plan.

End Plan.

(** How the retry loop classifies a reply. *)

Module Replies.
Import Zipwiseproperties.

(** The result a reply settles the fetch with, when it settles it: a page,
    or the message of an exception that is not retried. *)
Definition verdict (r : Reply) : option FetchResult :=
  match r with
  | Response status reason body =>
    if is_retry_status status then None
    else match http_error_message status reason with
         | Some _ => None
         | None => match body with
                   | HttpResponseBody html => Some (Some html, None)
                   | NotJson _ => None
                   | Undecodable msg => Some (None, Some msg)
                   end
         end
  | RaiseOther msg => Some (None, Some msg)
  | RaiseTimeout _ | RaiseRequestException _ _ => None
  end.

(** The message kept for a reply that is retried without a sleep: a
    timeout, a transport error, an HTTP error status outside the three
    that are slept on, or a body that is not JSON. *)
Definition retried_at_once (r : Reply) : option string :=
  match r with
  | Response status reason body =>
    if is_retry_status status then None
    else match http_error_message status reason with
         | Some msg => Some (request_error_message None msg)
         | None => match body with
                   | NotJson msg => Some (request_error_message None msg)
                   | _ => None
                   end
         end
  | RaiseTimeout msg => Some ("Timeout: " +:+ msg)
  | RaiseRequestException ok_status msg => Some (request_error_message ok_status msg)
  | RaiseOther _ => None
  end.

Definition is_post (e : Event) : bool :=
  match e with
  | EvPost _ => true
  | EvSleep _ => false
  end.

(** The delays of [n] attempts from the delay [d]: [d], [2d], [4d], ... *)
Definition delays (d : Z) (n : nat) : list Z :=
  map (fun i => d * 2 ^ Z.of_nat i) (seq 0 n).

End Replies.

(** * Pages and worlds to run the model on *)

Module Fixtures.
Import Zipwiseproperties.

Definition mkworld (net : nat -> string -> Reply) : World :=
  mkWorld net 0 [] "2024-05-01" (fun k => "2024-05-01 10:00:" +:+ pretty k) ∅.

Definition listing : string := "https://www.zillow.com/homedetails/1-Main-St/1_zpid/".

(** An upstream that is rate-limiting every request. *)
Definition throttled : World :=
  mkworld (fun _ _ => Response 429 "Too Many Requests" (Undecodable "httpResponseBody")).

(** An upstream that never answers in time. *)
Definition stalled : World :=
  mkworld (fun _ _ => RaiseTimeout "Read timed out. (read timeout=30)").

(** A page with no [__NEXT_DATA__] script. *)
Definition captcha_page : Html :=
  [Elem "html" []
     [Elem "head" [] [Elem "title" [] [Text "Access to this page has been denied"]];
      Elem "body" [] [Elem "p" [] [Text "Press and hold"]]]].

(** A listing whose statistics carry no [strong] tag. *)
Definition plain_stats_page : Html :=
  [Elem "html" []
     [Elem "head" [] [Elem "title" [] [Text "1 Main St, Boston, MA | MLS #731 | Zillow"]];
      Elem "body" []
        [Elem "dl" [("class", "hdp__sc-StyledOverviewStats")]
           [Elem "dt" [] [Text "5 days"]; Elem "dd" [] [Text "on Zillow"]]]]].

(** A listing whose description ends at the dollar sign. *)
Definition bare_dollar_page : Html :=
  [Elem "html" []
     [Elem "head" []
        [Elem "title" [] [Text "1 Main St, Boston, MA | MLS #731 | Zillow"];
         Elem "meta" [("name", "description"); ("content", "Listed for $")] []]]].

(** A listing with every field in place. *)
Definition full_page : Html :=
  [Elem "html" []
     [Elem "head" []
        [Elem "title" [] [Text "1 Main St, Boston, MA | MLS #731 | Zillow"];
         Elem "meta" [("name", "description");
                      ("content", "For sale: $450,000 3 bd 2 ba")] []];
      Elem "body" []
        [Elem "dl" [("class", "hdp__sc-StyledOverviewStats")]
           [Elem "dt" [] [Elem "strong" [] [Text "5 days"]; Text "on Zillow"];
            Elem "dt" [("class", "divider")] [Text "|"];
            Elem "dt" [] [Elem "strong" [] [Text "120"]; Text "views"];
            Elem "dt" [] [Elem "strong" [] [Text "7"]; Text "saves"]]]]].

(** The structured data of a search page: its listing links and the page
    count it reports. *)
Definition search_data (links : list string) (total_pages : Json) : Json :=
  JObj [("props", JObj [("pageProps", JObj [("searchPageState", JObj
    [("cat1", JObj
       [("searchResults", JObj
           [("listResults",
             JArr (map (fun link => JObj [("zpid", JStr "1"); ("detailUrl", JStr link)])
                       links))]);
        ("searchList", JObj [("totalPages", total_pages)])])])])])].

Definition page_with (data : Json) : Html :=
  [Elem "html" []
     [Elem "head" [] [Elem "title" [] [Text "Real Estate"]];
      Elem "body" []
        [Elem "script" [("id", "__NEXT_DATA__"); ("type", "application/json")]
           [Text (MiniJson.dumps data)]]]].

Definition search_page (links : list string) (total_pages : Z) : Html :=
  page_with (search_data links (JNum total_pages)).

(** The search URL of an area, as [generate_zipcode_url] writes it. *)
Definition area_state : Json :=
  JObj [("pagination", JObj []);
        ("isListVisible", JBool true);
        ("mapZoom", JNum 15);
        ("filterState", JObj [("sort", JObj [("value", JStr "globalrelevanceex")]);
                              ("mf", JObj [("value", JBool false)]);
                              ("land", JObj [("value", JBool false)])]);
        ("ah", JObj [("value", JBool true)])].

Definition area_url : string :=
  "https://www.zillow.com/homes/02118_rb/?searchQueryState="
  +:+ MiniJson.dumps area_state.

Definition ok (html : Html) : Reply := Response 200 "OK" (HttpResponseBody html).

(** One page of results, the same listing twice but for a trailing space. *)
Definition padded : World :=
  mkworld (fun _ _ => ok (search_page [listing; listing +:+ " "] 1)).

(** Listings to harvest: the first is served, the second is refused. *)
Definition second_listing : string :=
  "https://www.zillow.com/homedetails/2-Elm-St/2_zpid/".

Definition third_listing : string :=
  "https://www.zillow.com/homedetails/3-Oak-St/3_zpid/".

Definition flaky_upstream (k : nat) (url : string) : Reply :=
  if String.eqb url second_listing then RaiseOther "Connection aborted"
  else ok full_page.

Definition flaky : World := mkworld flaky_upstream.

Definition results_csv : string := "scraped_results/boston/2024-05-01/boston_property_details.csv".
Definition errors_csv : string := "scraped_errors/boston/2024-05-01/error_property_urls.csv".

(** The world after a pass that left two URLs in the ledger; on the next
    try the upstream serves the third listing and still refuses the
    second. *)
Definition after_first_pass : World :=
  mkWorld flaky_upstream 7 [] "2024-05-01"
          (fun k => "2024-05-01 10:00:" +:+ pretty k)
          {[ errors_csv := [["Error URL"; "Error Message"];
                            [second_listing; "Connection aborted"];
                            [third_listing; "503: Service Unavailable"]] ]}.

(** A search URL whose state already carries a monthly-payment filter. *)
Definition budget_state : Json :=
  JObj [("pagination", JObj []);
        ("filterState", JObj [("sort", JObj [("value", JStr "globalrelevanceex")]);
                              ("mp", JObj [("min", JNum 500); ("max", JNum 2000)])])].

Definition budget_url : string :=
  "https://www.zillow.com/homes/02118_rb/?searchQueryState="
  +:+ MiniJson.dumps budget_state.

(** A search page whose structured data has no [searchList]. *)
Definition countless_page : Html :=
  page_with
    (JObj [("props", JObj [("pageProps", JObj [("searchPageState", JObj
       [("cat1", JObj [("searchResults", JObj [("listResults", JArr [])])])])])])]).

(** The area reports 20 pages; the first sub-query is refused and every
    later request would be served. *)
Definition first_facet_refused : World :=
  mkworld (fun k _ =>
             match k with
             | O => ok (search_page [listing] 20)
             | S O => RaiseOther "Connection aborted"
             | _ => ok (search_page [second_listing] 1)
             end).

(** The area reports 3 pages; page 2 is refused and page 3 is served. *)
Definition second_page_refused : World :=
  mkworld (fun k _ =>
             match k with
             | O => ok (search_page [listing] 3)
             | S O => RaiseOther "Connection aborted"
             | _ => ok (search_page [third_listing] 3)
             end).

(** The area reports 20 pages; the sub-queries are answered with pages
    that carry no page count. *)
Definition countless_facets : World :=
  mkworld (fun k _ =>
             match k with
             | O => ok (search_page [listing] 20)
             | _ => ok countless_page
             end).

(** A site whose every query reports three pages. *)
Definition small_site (url : string) : Html := search_page [listing; second_listing] 3.

(** A site whose area reports 45 pages and whose narrower queries report
    two. *)
Definition large_site (url : string) : Html :=
  if String.eqb url area_url then search_page [listing] 45
  else search_page [second_listing; third_listing] 2.

Definition serving (site : string -> Html) : World := mkworld (fun _ url => ok (site url)).

(** A site whose every page reports 19 pages, and one whose area reports
    20 pages and whose narrower queries report one. *)
Definition nineteen_site (url : string) : Html := search_page [listing; second_listing] 19.

Definition twenty_site (url : string) : Html :=
  if String.eqb url area_url then search_page [listing] 20
  else search_page [second_listing; third_listing] 1.

(** The URL of page [n] of the area. *)
Definition area_page (n : Z) : string :=
  match Zipwiseproperties.update_url_with_page (H := MiniJson.lib) area_url n with
  | Ok url => url
  | Raise _ => EmptyString
  end.

(** A site that refuses page 2 of the area and serves every other page. *)
Definition patchy_site (url : string) : option Html :=
  if String.eqb url (area_page 2) then None
  else Some (search_page [url] 4).

Definition patchy : World :=
  mkworld (fun _ url =>
             match patchy_site url with
             | Some html => ok html
             | None => RaiseOther "Connection aborted"
             end).

(** Two rate-limited replies, then the page. *)
Definition recovering : World :=
  mkworld (fun k _ =>
             match k with
             | O => Response 429 "Too Many Requests" (Undecodable "httpResponseBody")
             | S O => Response 503 "Service Unavailable" (Undecodable "httpResponseBody")
             | _ => ok full_page
             end).

(** An upstream that answers 404 to everything. *)
Definition missing : World :=
  mkworld (fun _ _ => Response 404 "Not Found" (Undecodable "httpResponseBody")).

(** The page of a zip code: the query state the site itself uses, with
    its own names for the sort order and the all-homes switch. *)
Definition zip_filters : list (string * Json) :=
  [("sortSelection", JObj [("value", JStr "globalrelevanceex")]);
   ("isAllHomes", JObj [("value", JBool true)]);
   ("mf", JObj [("value", JBool true)]);
   ("price", JObj [("min", JNum 100000)])].

Definition zip_query : list (string * Json) :=
  [("pagination", JObj [("currentPage", JNum 3)]);
   ("usersSearchTerm", JStr "02118");
   ("regionSelection", JArr [JObj [("regionId", JNum 58653); ("regionType", JNum 7)]]);
   ("filterState", JObj zip_filters);
   ("isMapVisible", JBool true)].

Definition zip_data : Json :=
  JObj [("props", JObj [("pageProps", JObj [("searchPageState", JObj
    [("searchPageSeoObject", JObj [("baseUrl", JStr "/boston-ma-02118/")]);
     ("queryState", JObj zip_query)])])])].

Definition zip_script : Node :=
  Elem "script" [("id", "__NEXT_DATA__"); ("type", "application/json")]
    [Text (MiniJson.dumps zip_data)].

Definition zip_page : Html :=
  [Elem "html" [] [Elem "head" [] []; Elem "body" [] [zip_script]]].

(** A city whose three links are on file.  The third listing is always
    refused; the second is refused for the first three requests. *)
Definition links_csv : string :=
  "property_links/2024-05-01/boston cambridge newton ma nh_properties.csv".

Definition links_file : File :=
  [["Property Link"]; [listing]; [second_listing]; [third_listing]].

Definition city_upstream (k : nat) (url : string) : Reply :=
  if String.eqb url third_listing then RaiseOther "Connection aborted"
  else if (String.eqb url second_listing && (k <? 3)%nat)%bool
       then RaiseOther "Connection aborted"
       else ok full_page.

Definition city : World :=
  mkWorld city_upstream 0 [] "2024-05-01"
          (fun k => "2024-05-01 10:00:" +:+ pretty k)
          {[ links_csv := links_file ]}.

(** The same city when the page of the second listing has statistics
    without a [strong] tag. *)
Definition broken_upstream (k : nat) (url : string) : Reply :=
  if String.eqb url third_listing then RaiseOther "Connection aborted"
  else if String.eqb url second_listing then ok plain_stats_page
       else ok full_page.

(** The page of a zip code whose data block has a base URL and no query
    state, and a site that has it for one zip code. *)
Definition stateless_page : Html :=
  page_with
    (JObj [("props", JObj [("pageProps", JObj [("searchPageState", JObj
       [("searchPageSeoObject", JObj [("baseUrl", JStr "/boston-ma-02119/")])])])])]).

Definition msa_site (url : string) : Html :=
  if String.eqb url "https://www.zillow.com/homes/02119_rb/" then stateless_page
  else zip_page.

(** A site with the page of one zip code and, at every other URL, a page
    of results that lists two links. *)
Definition listed_site (url : string) : Html :=
  if String.eqb url "https://www.zillow.com/homes/02118_rb/" then zip_page
  else search_page [listing; second_listing] 1.

Definition broken_city : World :=
  mkWorld broken_upstream 0 [] "2024-05-01"
          (fun k => "2024-05-01 10:00:" +:+ pretty k)
          {[ links_csv := links_file ]}.


End Fixtures.

(** * Properties of the resilient fetch *)

Module FetchSpec.
Import Zipwiseproperties Traces.

Lemma requests_post_spec url w :
  requests_post url w =
  (upstream w (posts w) url,
   mkWorld (upstream w) (S (posts w)) (events w ++ [EvPost url])
           (today w) (clock w) (fs w)).
Proof. reflexivity. Qed.

(** Rate-limited replies only: every attempt is a POST followed by a sleep
    of the current delay, the delay doubles, and the budget is used up. *)
Lemma retry_loop_transient url n :
  forall d last w,
    (forall k, (k < n)%nat -> transient_status (upstream w (posts w + k)%nat url)) ->
    let '(result, w') := retry_loop url n d last w in
    result = (None,
              match n with
              | O => last
              | S m => status_line (upstream w (posts w + m)%nat url)
              end)
    /\ events w' = events w ++ backoff_trace url n d
    /\ posts w' = (posts w + n)%nat
    /\ upstream w' = upstream w /\ fs w' = fs w.
Proof.
  induction n as [|n IH]; intros d last w Hall.
  - cbn. rewrite app_nil_r, Nat.add_0_r. auto.
  - cbn [retry_loop]. rewrite requests_post_spec.
    pose proof (Hall 0%nat ltac:(lia)) as H0. rewrite Nat.add_0_r in H0.
    destruct (upstream w (posts w) url) as [status reason body| | |] eqn:E;
      try (exfalso; exact H0).
    change (is_retry_status status = true) in H0. rewrite H0.
    match goal with |- context [retry_loop url n ?d' ?l' ?w'] =>
      specialize (IH d' l' w') end.
    cbn [posts upstream events fs time_sleep] in IH.
    destruct (retry_loop url n _ _ _) as [result w'].
    destruct IH as (Hr & He & Hp & Hu & Hf).
    { intros k Hk. specialize (Hall (S k) ltac:(lia)).
      replace (S (posts w) + k)%nat with (posts w + S k)%nat by lia. exact Hall. }
    repeat split.
    + rewrite Hr. f_equal. destruct n as [|m].
      * rewrite Nat.add_0_r, E. reflexivity.
      * replace (S (posts w) + m)%nat with (posts w + S m)%nat by lia. reflexivity.
    + rewrite He. cbn [backoff_trace]. rewrite <- !app_assoc. reflexivity.
    + lia.
    + exact Hu.
    + exact Hf.
Qed.

(** Timeouts only: every attempt is a POST and nothing else. *)
Lemma retry_loop_timeouts url n :
  forall d last w,
    (forall k, (k < n)%nat -> timed_out (upstream w (posts w + k)%nat url)) ->
    let '(result, w') := retry_loop url n d last w in
    result = (None,
              match n with
              | O => last
              | S m => timeout_line (upstream w (posts w + m)%nat url)
              end)
    /\ events w' = events w ++ repeat (EvPost url) n
    /\ posts w' = (posts w + n)%nat.
Proof.
  induction n as [|n IH]; intros d last w Hall.
  - cbn. rewrite app_nil_r, Nat.add_0_r. auto.
  - cbn [retry_loop]. rewrite requests_post_spec.
    pose proof (Hall 0%nat ltac:(lia)) as H0. rewrite Nat.add_0_r in H0.
    destruct (upstream w (posts w) url) as [| msg | |] eqn:E;
      try (exfalso; exact H0).
    match goal with |- context [retry_loop url n ?d' ?l' ?w'] =>
      specialize (IH d' l' w') end.
    cbn [posts upstream events] in IH.
    destruct (retry_loop url n _ _ _) as [result w'].
    destruct IH as (Hr & He & Hp).
    { intros k Hk. specialize (Hall (S k) ltac:(lia)).
      replace (S (posts w) + k)%nat with (posts w + S k)%nat by lia. exact Hall. }
    repeat split.
    + rewrite Hr. f_equal. destruct n as [|m].
      * rewrite Nat.add_0_r, E. reflexivity.
      * replace (S (posts w) + m)%nat with (posts w + S m)%nat by lia. reflexivity.
    + rewrite He. cbn [repeat]. rewrite <- !app_assoc. reflexivity.
    + lia.
Qed.

(** C2.  When every attempt on a URL is answered with HTTP 429,
    [fetch_html_with_zyte] makes exactly five POSTs, sleeps 1, 2, 4, 8 and
    16 time units after them in turn, and then returns the failure pair
    carrying the status line of the last reply; it does not raise. *)
Theorem fetch_always_429 (url : string) (w : World) :
  always_429 url w ->
  exists reason body w',
    upstream w (posts w + 4)%nat url = Response 429 reason body
    /\ fetch_html_with_zyte url w = ((None, Some ("429: " +:+ reason)), w')
    /\ posts w' = (posts w + 5)%nat
    /\ events w' = events w ++
         [EvPost url; EvSleep 1; EvPost url; EvSleep 2; EvPost url; EvSleep 4;
          EvPost url; EvSleep 8; EvPost url; EvSleep 16].
Proof.
  intros Hall.
  destruct (Hall (posts w + 4)%nat) as (reason & body & Hlast).
  pose proof (retry_loop_transient url 5 1 None w) as L.
  unfold fetch_html_with_zyte, fetch_html_with_zyte_opts.
  destruct (retry_loop url 5 1 None w) as [result w'].
  destruct L as (Hr & He & Hp & _).
  { intros k _. destruct (Hall (posts w + k)%nat) as (r & b & ->). reflexivity. }
  exists reason, body, w'. rewrite Hlast in Hr. cbn in Hr.
  repeat split; [exact Hlast | rewrite Hr; reflexivity | exact Hp | exact He].
Qed.

Lemma fetch_always_429_witness :
  exists reason body w',
    upstream Fixtures.throttled (posts Fixtures.throttled + 4)%nat Fixtures.listing
      = Response 429 reason body
    /\ fetch_html_with_zyte Fixtures.listing Fixtures.throttled
       = ((None, Some ("429: " +:+ reason)), w')
    /\ posts w' = (posts Fixtures.throttled + 5)%nat
    /\ events w' = events Fixtures.throttled ++
         [EvPost Fixtures.listing; EvSleep 1; EvPost Fixtures.listing; EvSleep 2;
          EvPost Fixtures.listing; EvSleep 4; EvPost Fixtures.listing; EvSleep 8;
          EvPost Fixtures.listing; EvSleep 16].
Proof.
  apply (fetch_always_429 Fixtures.listing Fixtures.throttled).
  intros k. eexists _, _. reflexivity.
Defined.

(** C3, where the code departs from it.  When every attempt on a URL times
    out, [fetch_html_with_zyte] uses up its five attempts back to back: the
    trace holds the five POSTs and not one sleep, so no retry after a
    timeout is preceded by the backoff delay. *)
Theorem fetch_timeouts_without_backoff (url : string) (w : World) :
  always_times_out url w ->
  exists msg w',
    upstream w (posts w + 4)%nat url = RaiseTimeout msg
    /\ fetch_html_with_zyte url w = ((None, Some ("Timeout: " +:+ msg)), w')
    /\ posts w' = (posts w + 5)%nat
    /\ events w' = events w ++ repeat (EvPost url) 5
    /\ filter (fun e => is_sleep e = true) (drop (length (events w)) (events w')) = [].
Proof.
  intros Hall.
  destruct (Hall (posts w + 4)%nat) as (msg & Hlast).
  pose proof (retry_loop_timeouts url 5 1 None w) as L.
  unfold fetch_html_with_zyte, fetch_html_with_zyte_opts.
  destruct (retry_loop url 5 1 None w) as [result w'].
  destruct L as (Hr & He & Hp).
  { intros k _. destruct (Hall (posts w + k)%nat) as (m & ->). exact I. }
  exists msg, w'. rewrite Hlast in Hr. cbn in Hr.
  repeat split; [exact Hlast | rewrite Hr; reflexivity | exact Hp | exact He |].
  rewrite He, drop_app_length. reflexivity.
Qed.

Lemma fetch_timeouts_without_backoff_witness :
  exists msg w',
    upstream Fixtures.stalled (posts Fixtures.stalled + 4)%nat Fixtures.listing
      = RaiseTimeout msg
    /\ fetch_html_with_zyte Fixtures.listing Fixtures.stalled
       = ((None, Some ("Timeout: " +:+ msg)), w')
    /\ posts w' = (posts Fixtures.stalled + 5)%nat
    /\ events w' = events Fixtures.stalled ++ repeat (EvPost Fixtures.listing) 5
    /\ filter (fun e => is_sleep e = true)
              (drop (length (events Fixtures.stalled)) (events w')) = [].
Proof.
  apply (fetch_timeouts_without_backoff Fixtures.listing Fixtures.stalled).
  intros k. eexists. reflexivity.
Defined.

End FetchSpec.

(** * Properties of the page decoders *)

Module DecodeSpec.
Import Zipwiseproperties.

Section Absent.
Context `{JsonLib}.

(** C4, where the code departs from it.  On a page without the
    [__NEXT_DATA__] script, [parse_queryState], [parse_soldQueryState] and
    [parse_properties] hand back their not-found value, but [total_pages]
    raises [AttributeError]. *)
Theorem total_pages_raises_when_block_absent (html : Html) :
  find_next_data html = None ->
  parse_queryState (Some html) = Ok None
  /\ parse_soldQueryState (Some html) = Ok None
  /\ parse_properties (Some html) = Ok None
  /\ total_pages (Some html) = Raise AttributeError.
Proof.
  intros Hnone.
  unfold parse_queryState, parse_soldQueryState, parse_properties, total_pages.
  cbn. rewrite Hnone. auto.
Qed.

End Absent.

#[local] Existing Instance MiniJson.lib.

Lemma total_pages_raises_when_block_absent_witness :
  parse_queryState (Some Fixtures.captcha_page) = Ok None
  /\ parse_soldQueryState (Some Fixtures.captcha_page) = Ok None
  /\ parse_properties (Some Fixtures.captcha_page) = Ok None
  /\ total_pages (Some Fixtures.captcha_page) = Raise AttributeError.
Proof.
  apply (total_pages_raises_when_block_absent Fixtures.captcha_page).
  reflexivity.
Defined.

End DecodeSpec.

(** * Properties of the field extractor *)

Module ExtractSpec.
Import Propertyfields.

(** C9, where the code departs from it.  A statistics entry without a
    [strong] tag makes [parsePropertyFields] raise [AttributeError], and a
    description that stops at the dollar sign makes it raise [IndexError];
    a page with every field in place yields the seven-field record. *)
Theorem parsePropertyFields_can_raise (url : string) :
  parsePropertyFields Fixtures.plain_stats_page url = Raise AttributeError
  /\ parsePropertyFields Fixtures.bare_dollar_page url = Raise IndexError
  /\ parsePropertyFields Fixtures.full_page url =
       Ok (mkDetails "1 Main St, Boston, MA" "450,000" "731" "5 days" "120" "7" url).
Proof. repeat split. Qed.

End ExtractSpec.

(** * Properties of the link set *)

Module LinkSetSpec.
Import Zipwiseproperties Scraper.

Lemma py_eq_sym (a b : Json) : py_eq a b = py_eq b a.
Proof.
  destruct a, b; cbn; try reflexivity;
    try apply Z.eqb_sym; try apply String.eqb_sym;
    repeat match goal with |- context [if ?b then _ else _] => destruct b end;
    reflexivity.
Qed.

Lemma py_eq_strings (s t : string) : py_eq (JStr s) (JStr t) = false -> s <> t.
Proof. cbn. intros E ->. rewrite String.eqb_refl in E. discriminate. Qed.

Definition fresh (seen : list Json) (x : Json) : Prop :=
  forall y, y ∈ seen -> py_eq x y = false.

Definition pairwise_distinct (links : list Json) : Prop :=
  forall i j a b, i <> j -> links !! i = Some a -> links !! j = Some b ->
                  py_eq a b = false.

Lemma existsb_py_eq_false (x : Json) (seen : list Json) :
  existsb (py_eq x) seen = false <-> fresh seen x.
Proof.
  unfold fresh. induction seen as [|y seen IH]; cbn.
  - split; [intros _ y Hy; inversion Hy | reflexivity].
  - rewrite orb_false_iff, IH. split.
    + intros [Hy Hs] z Hz. apply elem_of_cons in Hz as [->|Hz]; auto.
    + intros Hall. split; [apply Hall; left | intros z Hz; apply Hall; right; exact Hz].
Qed.

Lemma set_members_fresh (items : list Json) :
  forall seen x, x ∈ set_members seen items -> fresh seen x.
Proof.
  induction items as [|y items IH]; intros seen x Hx; cbn in Hx.
  - inversion Hx.
  - destruct (existsb (py_eq y) seen) eqn:E.
    + eauto.
    + apply elem_of_cons in Hx as [->|Hx].
      * apply existsb_py_eq_false, E.
      * intros z Hz. apply (IH _ _ Hx). right. exact Hz.
Qed.

Lemma set_members_distinct (items : list Json) :
  forall seen, pairwise_distinct (set_members seen items).
Proof.
  induction items as [|y items IH]; intros seen; cbn.
  - intros i j a b _ Ha. rewrite lookup_nil in Ha. discriminate.
  - destruct (existsb (py_eq y) seen) eqn:E; [apply IH|].
    assert (Hlater : forall k c, set_members (y :: seen) items !! k = Some c ->
                                 py_eq c y = false).
    { intros k c Hk. apply (set_members_fresh items (y :: seen) c).
      - eapply list_elem_of_lookup_2, Hk.
      - left. }
    intros [|i] [|j] a b Hij Ha Hb; cbn in Ha, Hb.
    + congruence.
    + injection Ha as <-. rewrite py_eq_sym. eauto.
    + injection Hb as <-. eauto.
    + eapply (IH (y :: seen) i j); eauto.
Qed.

Section Unique.
Context `{JsonLib}.

(** C6, as the code has it.  Whenever [scrape_properties] returns, no two
    places of the returned list hold equal links, and two string links at
    different places are different strings; equality is exact, with no
    trimming.  It returns unless one of the gathered [detailUrl] values is
    a list or a dictionary, which a set cannot hold. *)
Theorem scrape_properties_links_unique (zip_code base_url : string) (w : World) :
  match (scrape_properties zip_code base_url w).1 with
  | Ok links =>
    pairwise_distinct links
    /\ (forall i j s t, i <> j -> links !! i = Some (JStr s) ->
                        links !! j = Some (JStr t) -> s <> t)
  | Raise e =>
    e = TypeError
    /\ forallb hashable (scrape_properties_try zip_code base_url w).1.1 = false
  end.
Proof.
  unfold scrape_properties.
  destruct (scrape_properties_try zip_code base_url w) as [[all_links w'] e].
  cbn. unfold list_set. destruct (forallb hashable all_links) eqn:E.
  - pose proof (set_members_distinct all_links []) as D. split; [exact D|].
    intros i j s t Hij Hi Hj. apply py_eq_strings. eapply D; eauto.
  - auto.
Qed.

End Unique.

#[local] Existing Instance MiniJson.lib.

(** Two links that differ only by a trailing space are both returned:
    after trimming they are the same string. *)
Lemma trimmed_duplicates_are_kept :
  exists links i j s t,
    (scrape_properties "02118" Fixtures.area_url Fixtures.padded).1 = Ok links
    /\ i <> j
    /\ links !! i = Some (JStr s) /\ links !! j = Some (JStr t)
    /\ PyStr.strip s = PyStr.strip t.
Proof.
  exists [JStr Fixtures.listing; JStr (Fixtures.listing +:+ " ")], 0%nat, 1%nat,
         Fixtures.listing, (Fixtures.listing +:+ " ").
  split; [vm_compute; reflexivity|]. split; [discriminate|].
  split; [reflexivity|]. split; [reflexivity|]. vm_compute. reflexivity.
Qed.

End LinkSetSpec.

(** * Properties of the harvest pool and the retry ledger *)

Module HarvestSpec.
Import Zipwiseproperties Scraper Sinks.

(** The fetch only talks to the network: files, date and clock stay. *)
Lemma retry_loop_frame url n :
  forall d last w,
    let w' := (retry_loop url n d last w).2 in
    fs w' = fs w /\ today w' = today w /\ clock w' = clock w
    /\ upstream w' = upstream w.
Proof.
  induction n as [|n IH]; intros d last w; cbn [retry_loop]; [cbn; auto|].
  unfold requests_post.
  destruct (upstream w (posts w) url) as [status reason body|msg|st msg|msg].
  - destruct (is_retry_status status).
    + match goal with |- context [retry_loop url n ?d' ?l' ?w'] =>
        destruct (IH d' l' w') as (?&?&?&?) end. cbn in *. auto.
    + destruct (http_error_message status reason).
      * match goal with |- context [retry_loop url n ?d' ?l' ?w'] =>
          destruct (IH d' l' w') as (?&?&?&?) end. cbn in *. auto.
      * destruct body; [cbn; auto| |cbn; auto].
        match goal with |- context [retry_loop url n ?d' ?l' ?w'] =>
          destruct (IH d' l' w') as (?&?&?&?) end. cbn in *. auto.
  - match goal with |- context [retry_loop url n ?d' ?l' ?w'] =>
      destruct (IH d' l' w') as (?&?&?&?) end. cbn in *. auto.
  - match goal with |- context [retry_loop url n ?d' ?l' ?w'] =>
      destruct (IH d' l' w') as (?&?&?&?) end. cbn in *. auto.
  - cbn. auto.
Qed.

Lemma fetch_frame url w :
  fs (fetch_html_with_zyte url w).2 = fs w
  /\ today (fetch_html_with_zyte url w).2 = today w.
Proof.
  destruct (retry_loop_frame url 5 1 None w) as (?&?&?&?). auto.
Qed.

Lemma number_indices (urls : list string) :
  (number urls).*1 = seq 0 (length urls) /\ (number urls).*2 = urls.
Proof.
  unfold number. split.
  - apply fst_zip. rewrite length_seq. lia.
  - apply snd_zip. rewrite length_seq. lia.
Qed.

(** ** Reading a file after a write *)

Lemma read_set_fs_same (f : string) (file : File) (w : World) :
  read_file f (set_fs (<[f := file]> (fs w)) w) = file.
Proof. unfold read_file, set_fs. cbn. unfold File. rewrite lookup_insert_eq. reflexivity. Qed.

Lemma read_set_fs_other (f g : string) (file : File) (w : World) :
  f <> g -> read_file g (set_fs (<[f := file]> (fs w)) w) = read_file g w.
Proof.
  intros Hne. unfold read_file, set_fs. cbn. unfold File.
  rewrite lookup_insert_ne by exact Hne. reflexivity.
Qed.

Lemma read_open (f g : string) (w : World) :
  read_file g (open_append f w).2 = read_file g w.
Proof.
  unfold open_append. cbn [snd]. destruct (decide (f = g)) as [->|Hne].
  - apply read_set_fs_same.
  - apply read_set_fs_other, Hne.
Qed.

Lemma read_close_same (f : string) (rows : list Row) (w : World) :
  read_file f (close_append f rows w) = read_file f w ++ rows.
Proof. apply read_set_fs_same. Qed.

Lemma read_close_other (f g : string) (rows : list Row) (w : World) :
  f <> g -> read_file g (close_append f rows w) = read_file g w.
Proof. apply read_set_fs_other. Qed.

Lemma read_append_same (header row : Row) (f : string) (w : World) :
  read_file f (append_row header row f w) = appended header row (read_file f w).
Proof.
  unfold append_row.
  pose proof (read_open f f w) as Hopen.
  unfold open_append in *. cbn [fst snd] in *.
  rewrite read_close_same, Hopen. destruct (read_file f w); reflexivity.
Qed.

Lemma read_after_fetch (f url : string) (w : World) :
  read_file f (fetch_html_with_zyte url w).2 = read_file f w.
Proof. unfold read_file. destruct (fetch_frame url w) as [-> _]. reflexivity. Qed.

Lemma lookup_set_fs_other (f g : string) (file : File) (w : World) :
  f <> g -> fs (set_fs (<[f := file]> (fs w)) w) !! g = fs w !! g.
Proof. intros Hne. unfold set_fs. cbn. unfold File. apply lookup_insert_ne, Hne. Qed.

Lemma paths_differ (city : string) (w : World) :
  results_path city w <> error_path city w.
Proof.
  unfold results_path, error_path. intros E.
  apply (f_equal (fun s => String.get 8 s)) in E.
  cbv in E. discriminate.
Qed.

Lemma first_column_ok (header : Row) (rows : list Row) :
  Forall (fun row => row <> []) rows ->
  first_column (header :: rows) = Ok (column 0 (header :: rows)).
Proof.
  unfold column. cbn. rewrite drop_0.
  induction 1 as [|[|cell row] rows Hrow _ IH]; [reflexivity|congruence|].
  cbn in *. rewrite IH. reflexivity.
Qed.

(** ** Lists of jobs *)

Lemma flat_map_insert {A B : Type} (f : A -> list B) (l : list A) (i : nat) (a b : A) :
  l !! i = Some a -> flat_map f (<[i := b]> l) ++ f a ≡ₚ flat_map f l ++ f b.
Proof.
  revert i. induction l as [|x l IH]; intros i Hi; [discriminate|].
  destruct i as [|i]; cbn in *.
  - injection Hi as ->. rewrite <- !app_assoc.
    rewrite (Permutation_app_comm (f b) (flat_map f l ++ f a)).
    rewrite (Permutation_app_comm (flat_map f l) (f a)), <- app_assoc. reflexivity.
  - rewrite <- !app_assoc. apply Permutation_app_head, IH, Hi.
Qed.

Lemma flat_map_insert_same {A B : Type} (f : A -> list B) (l : list A) (i : nat) (a b : A) :
  l !! i = Some a -> f b = f a -> flat_map f (<[i := b]> l) ≡ₚ flat_map f l.
Proof.
  intros Hi Hf. pose proof (flat_map_insert f l i a b Hi) as Hp. rewrite Hf in Hp.
  exact (Permutation_app_inv_r _ _ _ Hp).
Qed.

Lemma flat_map_insert_gain {A B : Type} (f : A -> list B) (l : list A) (i : nat) (a b : A) :
  l !! i = Some a -> f a = [] -> flat_map f (<[i := b]> l) ≡ₚ flat_map f l ++ f b.
Proof.
  intros Hi Hf. pose proof (flat_map_insert f l i a b Hi) as Hp.
  rewrite Hf, app_nil_r in Hp. exact Hp.
Qed.

(** ** What holds of a pool between any two steps *)

(** The rows of the workers that have closed a sink. *)
Definition landed (counter : Counter) (pool : Pool) : list Row :=
  flat_map (fun job : string * Worker =>
              match job.2 with
              | Counting c row | Saved c row => if decide (c = counter) then [row] else []
              | _ => []
              end) pool.

(** [p0] is the pass when the pool began.  Each sink has grown by the
    writes of the workers that have closed it; a worker that saw an empty
    sink when it opened it did so in a pass that began with that sink
    empty, and a worker that saw rows in it leaves rows in it. *)
Section Between.
Variables results_file error_file : string.
Variable p0 : Pass.

Definition placed (p : Pass) (job : string * Worker) : Prop :=
  match job.2 with
  | Closing counter true _ =>
    read_file (sink results_file error_file counter) (world p0) = []
  | Closing counter false _ =>
    read_file (sink results_file error_file counter) (world p) <> []
  | _ => True
  end.

Definition between (pool : Pool) (p : Pass) : Prop :=
  exists writes : Counter -> list (bool * Row),
    (forall counter,
        grown (header_of counter)
              (read_file (sink results_file error_file counter) (world p0))
              (read_file (sink results_file error_file counter) (world p))
              (writes counter)
        /\ (writes counter).*2 ≡ₚ landed counter pool)
    /\ Forall (placed p) pool
    /\ today (world p) = today (world p0)
    /\ (forall f, f <> results_file -> f <> error_file ->
                  fs (world p) !! f = fs (world p0) !! f).

End Between.

(** ** One step of one worker *)

Lemma fetched_place (url timestamp : string) (result : FetchResult) :
  match fetched url timestamp result with
  | Opening _ _ | Raised _ => True
  | _ => False
  end.
Proof.
  unfold fetched. destruct result as [[page|] error]; [|exact I].
  destruct (truthy_html page); [|exact I].
  destruct (Propertyfields.parsePropertyFields page url); exact I.
Qed.

(** A worker that has not reached a sink's end adds nothing to what has
    landed or was saved. *)
Definition early (worker : Worker) : Prop :=
  match worker with
  | Counting _ _ | Saved _ _ => False
  | _ => True
  end.

Section Steps.
Variables results_file error_file : string.
Hypothesis files_differ : results_file <> error_file.
Variable p0 : Pass.

Lemma placed_mono (p p' : Pass) (job : string * Worker) :
  (forall counter, read_file (sink results_file error_file counter) (world p) <> [] ->
                   read_file (sink results_file error_file counter) (world p') <> []) ->
  placed results_file error_file p0 p job -> placed results_file error_file p0 p' job.
Proof.
  intros Hgrow. unfold placed. destruct job as [url [| | | |c [|] row| | |]]; cbn; auto.
Qed.

(** A step that neither closes a sink nor counts. *)
Lemma quiet_step (pool : Pool) (p p' : Pass) (i : nat) (url : string)
    (worker worker' : Worker) :
  between results_file error_file p0 pool p ->
  pool !! i = Some (url, worker) ->
  early worker -> early worker' ->
  (forall f, read_file f (world p') = read_file f (world p)) ->
  (forall f, f <> results_file -> f <> error_file ->
             fs (world p') !! f = fs (world p) !! f) ->
  today (world p') = today (world p) ->
  placed results_file error_file p0 p' (url, worker') ->
  between results_file error_file p0 (<[i := (url, worker')]> pool) p'.
Proof.
  intros (writes & Hsinks & Hplaced & Htoday & Hother) Hi He He' Hread Hfs Ht Hnew.
  exists writes. split; [|split; [|split]].
  - intros counter. destruct (Hsinks counter) as (Hgrown & Hlanded).
    rewrite Hread. split; [exact Hgrown|].
    rewrite Hlanded. symmetry. apply (flat_map_insert_same _ _ _ _ _ Hi).
    cbn. destruct worker, worker'; cbn in *; try contradiction; reflexivity.
  - apply Forall_insert; [|exact Hnew].
    eapply Forall_impl; [exact Hplaced|]. intros job. apply placed_mono.
    intros counter. rewrite Hread. trivial.
  - congruence.
  - intros f H1 H2. rewrite Hfs by assumption. apply Hother; assumption.
Qed.

End Steps.

Lemma with_world_counter (counter : Counter) (w : World) (p : Pass) :
  counter_of counter (with_world w p) = counter_of counter p.
Proof. destruct counter; reflexivity. Qed.

Lemma written_snoc (header : Row) (writes : list (bool * Row)) (empty : bool) (row : Row) :
  written header (writes ++ [(empty, row)])
  = written header writes ++ with_header empty header row.
Proof. unfold written. rewrite flat_map_app. cbn. rewrite app_nil_r. reflexivity. Qed.

Section Closing.
Variables results_file error_file : string.
Hypothesis files_differ : results_file <> error_file.
Variable p0 : Pass.

Lemma sink_differs (c c' : Counter) :
  c <> c' -> sink results_file error_file c' <> sink results_file error_file c.
Proof. destruct c, c'; cbn; congruence. Qed.

Lemma sink_is_a_sink (counter : Counter) (f : string) :
  f <> results_file -> f <> error_file -> sink results_file error_file counter <> f.
Proof. destruct counter; cbn; congruence. Qed.

(** The step that leaves the [with] block. *)
Lemma closing_step (pool : Pool) (p : Pass) (i : nat) (url : string)
    (counter : Counter) (empty : bool) (row : Row) :
  between results_file error_file p0 pool p ->
  pool !! i = Some (url, Closing counter empty row) ->
  between results_file error_file p0 (<[i := (url, Counting counter row)]> pool)
          (with_world (close_append (sink results_file error_file counter)
                                    (with_header empty (header_of counter) row)
                                    (world p)) p).
Proof.
  intros (writes & Hsinks & Hplaced & Htoday & Hother) Hi.
  pose proof (proj1 (Forall_lookup _ _) Hplaced i _ Hi) as Hjob.
  exists (fun c => if decide (c = counter) then writes c ++ [(empty, row)] else writes c).
  split; [|split; [|split]].
  - intros c. destruct (Hsinks c) as (Hgrown & Hlanded).
    cbn [world with_world].
    destruct (decide (c = counter)) as [->|Hc].
    + split.
      * destruct Hgrown as (Hnew & Hold & Hfirst).
        rewrite read_close_same. split; [|split].
        -- rewrite written_snoc, app_assoc, <- Hnew. reflexivity.
        -- intros Hne. apply Forall_app. split; [exact (Hold Hne)|].
           apply Forall_cons_2; [|apply Forall_nil_2]. cbn.
           destruct empty; [|reflexivity].
           unfold placed in Hjob. cbn in Hjob. contradiction.
        -- intros Hempty write Hhead. destruct (writes counter) as [|w0 ws] eqn:Ew.
           ++ cbn in Hhead. injection Hhead as <-. cbn.
              destruct empty; [reflexivity|].
              unfold placed in Hjob. cbn in Hjob.
              exfalso. apply Hjob. rewrite Hnew, Hempty. reflexivity.
           ++ cbn in Hhead. exact (Hfirst Hempty write Hhead).
      * rewrite fmap_app. cbn [fmap list_fmap snd]. rewrite Hlanded. symmetry.
        unfold landed.
        rewrite (flat_map_insert_gain _ _ _ _ (url, Counting counter row) Hi)
          by reflexivity.
        cbn. rewrite decide_True by reflexivity. reflexivity.
    + split.
      * rewrite read_close_other by (apply sink_differs; congruence). exact Hgrown.
      * rewrite Hlanded. symmetry. apply (flat_map_insert_same _ _ _ _ _ Hi).
        cbn. rewrite decide_False by congruence. reflexivity.
  - apply Forall_insert; [|exact I].
    eapply Forall_impl; [exact Hplaced|]. intros job.
    apply (placed_mono results_file error_file p0).
    intros c Hfile. cbn [world with_world].
    destruct (decide (c = counter)) as [->|Hc].
    + rewrite read_close_same.
      destruct (read_file (sink results_file error_file counter) (world p));
        [contradiction | discriminate].
    + rewrite read_close_other by (apply sink_differs; congruence). exact Hfile.
  - exact Htoday.
  - intros f H1 H2. cbn [world with_world]. unfold close_append.
    rewrite lookup_set_fs_other by (apply sink_is_a_sink; assumption).
    exact (Hother f H1 H2).
Qed.

(** The step that counts. *)
Lemma counting_step (pool : Pool) (p : Pass) (i : nat) (url : string)
    (counter : Counter) (row : Row) :
  between results_file error_file p0 pool p ->
  pool !! i = Some (url, Counting counter row) ->
  between results_file error_file p0 (<[i := (url, Saved counter row)]> pool)
          (count counter p).
Proof.
  intros (writes & Hsinks & Hplaced & Htoday & Hother) Hi.
  pose proof (proj1 (Forall_lookup _ _) Hplaced i _ Hi) as Hjob.
  assert (Hworld : world (count counter p) = world p) by (destruct counter; reflexivity).
  exists writes. split; [|split; [|split]].
  - intros c. destruct (Hsinks c) as (Hgrown & Hlanded).
    rewrite Hworld. split; [exact Hgrown|].
    rewrite Hlanded. symmetry. apply (flat_map_insert_same _ _ _ _ _ Hi). reflexivity.
  - apply Forall_insert; [|exact I].
    eapply Forall_impl; [exact Hplaced|]. intros job.
    apply (placed_mono results_file error_file p0).
    intros c. rewrite Hworld. trivial.
  - rewrite Hworld. exact Htoday.
  - rewrite Hworld. exact Hother.
Qed.

End Closing.

Section Pools.
Variables results_file error_file : string.
Hypothesis files_differ : results_file <> error_file.
Variable p0 : Pass.

(** Any step of any worker keeps what holds between steps. *)
Lemma step_at_between (i : nat) (pool : Pool) (p : Pass) :
  between results_file error_file p0 pool p ->
  between results_file error_file p0 (step_at results_file error_file i pool p).1
          (step_at results_file error_file i pool p).2.
Proof.
  intros Hb. unfold step_at.
  destruct (pool !! i) as [[url worker]|] eqn:Hi; [|exact Hb].
  destruct worker as [|ts budget d last|ts budget d last|c row|c empty row|c row|c row|e].
  - (* Started *)
    cbn [step fst snd].
    apply (quiet_step results_file error_file p0 pool p p i url Started); auto.
    all: exact I.
  - (* Fetching *)
    destruct budget as [|budget'].
    + cbn [step fst snd].
      apply (quiet_step results_file error_file p0 pool p p i url (Fetching ts 0 d last));
        auto; exact I.
    + cbn [step]. unfold requests_post.
      set (w1 := mkWorld _ _ _ _ _ _).
      assert (Hquiet : forall worker',
                 early worker' ->
                 placed results_file error_file p0 (with_world w1 p) (url, worker') ->
                 between results_file error_file p0 (<[i := (url, worker')]> pool)
                         (with_world w1 p)).
      { intros worker' He Hp.
        apply (quiet_step results_file error_file p0 pool p (with_world w1 p) i url
                          (Fetching ts (S budget') d last)); auto; exact I. }
      assert (Hfetched : forall result,
                 between results_file error_file p0
                         (<[i := (url, fetched url ts result)]> pool) (with_world w1 p)).
      { intros result. pose proof (fetched_place url ts result) as Hf.
        apply Hquiet.
        - destruct (fetched url ts result); try contradiction; exact I.
        - unfold placed. destruct (fetched url ts result); try contradiction; exact I. }
      destruct (upstream (world p) (posts (world p)) url)
        as [status reason body|msg|ok_status msg|msg]; cbn [fst snd].
      * destruct (is_retry_status status); cbn [fst snd]; [apply Hquiet; exact I|].
        destruct (http_error_message status reason); cbn [fst snd];
          [apply Hquiet; exact I|].
        destruct body; cbn [fst snd]; [apply Hfetched | apply Hquiet; exact I | apply Hfetched].
      * apply Hquiet; exact I.
      * apply Hquiet; exact I.
      * apply Hfetched.
  - (* Backing_off *)
    cbn [step fst snd].
    apply (quiet_step results_file error_file p0 pool p
                      (with_world (time_sleep d (world p)) p) i url
                      (Backing_off ts budget d last)); auto; exact I.
  - (* Opening *)
    cbn [step]. unfold open_append. cbn [fst snd].
    set (f := sink results_file error_file c).
    set (w1 := set_fs (<[f := read_file f (world p)]> (fs (world p))) (world p)).
    assert (Hread : forall g, read_file g w1 = read_file g (world p))
      by (intros g; exact (read_open f g (world p))).
    destruct Hb as (writes & Hsinks & Hplaced & Htoday & Hother).
    pose proof (proj1 (Forall_lookup _ _) Hplaced i _ Hi) as Hjob.
    apply (quiet_step results_file error_file p0 pool p (with_world w1 p) i url
                      (Opening c row)); auto; try exact I.
    + exists writes. auto.
    + intros g H1 H2. cbn [world with_world]. unfold w1.
      apply lookup_set_fs_other. unfold f. destruct c; cbn; congruence.
    + unfold placed in *. cbn [snd fst] in *. cbn [world with_world].
      destruct (read_file f (world p)) as [|first rest] eqn:Efile.
      * destruct (Hsinks c) as ((Hnew & _) & _). fold f in Hnew. rewrite Efile in Hnew.
        symmetry in Hnew. apply app_eq_nil in Hnew as [Hold _]. exact Hold.
      * rewrite Hread. fold f. rewrite Efile. discriminate.
  - (* Closing *)
    cbn [step fst snd]. apply (closing_step results_file error_file files_differ p0);
      assumption.
  - (* Counting *)
    cbn [step fst snd]. apply (counting_step results_file error_file p0); assumption.
  - (* Saved *)
    assert (Hsame : <[i := (url, Saved c row)]> pool = pool)
      by exact (list_insert_id pool i _ Hi).
    change (between results_file error_file p0 (<[i := (url, Saved c row)]> pool) p).
    rewrite Hsame. exact Hb.
  - (* Raised *)
    assert (Hsame : <[i := (url, Raised e)]> pool = pool)
      by exact (list_insert_id pool i _ Hi).
    change (between results_file error_file p0 (<[i := (url, Raised e)]> pool) p).
    rewrite Hsame. exact Hb.
Qed.

End Pools.

(** ** Every worker ends *)

Section Returns.
Variables results_file error_file : string.

Lemma step_finished (url : string) (worker : Worker) (p : Pass) :
  finished worker -> step url results_file error_file worker p = (worker, p).
Proof. destruct worker; cbn; try contradiction; reflexivity. Qed.

Lemma fetched_steps (url timestamp : string) (result : FetchResult) :
  (steps_left (fetched url timestamp result) <= 3)%nat.
Proof.
  unfold fetched. destruct result as [[page|] error]; [|cbn [steps_left]; lia].
  destruct (truthy_html page); [|cbn [steps_left]; lia].
  destruct (Propertyfields.parsePropertyFields page url); cbn [steps_left]; lia.
Qed.

Lemma step_decreases (url : string) (worker : Worker) (p : Pass) :
  ~ finished worker ->
  (steps_left (step url results_file error_file worker p).1 < steps_left worker)%nat.
Proof.
  intros Hrun.
  destruct worker as [|ts budget d last|ts budget d last|c row|c empty row|c row|c row|e];
    try (exfalso; apply Hrun; exact I); try (cbn; lia).
  destruct budget as [|budget'].
  - cbn [step fst]. pose proof (fetched_steps url ts (None, last)). cbn in *. lia.
  - cbn [step]. unfold requests_post.
    destruct (upstream (world p) (posts (world p)) url)
      as [status reason body|msg|ok_status msg|msg]; cbn [fst snd].
    + destruct (is_retry_status status); cbn [fst steps_left]; [lia|].
      destruct (http_error_message status reason); cbn [fst steps_left]; [lia|].
      destruct body as [html|msg|msg]; cbn [fst steps_left]; try lia.
      * pose proof (fetched_steps url ts (Some html, None)). lia.
      * pose proof (fetched_steps url ts (None, Some msg)). lia.
    + cbn [steps_left]. lia.
    + cbn [steps_left]. lia.
    + pose proof (fetched_steps url ts (None, Some msg)). cbn [steps_left]. lia.
Qed.

Lemma steps_left_0 (worker : Worker) : steps_left worker = 0%nat -> finished worker.
Proof. destruct worker; cbn; try lia; trivial. Qed.

Lemma finished_dec (worker : Worker) : finished worker \/ ~ finished worker.
Proof. destruct worker; cbn; auto. Qed.

Lemma step_at_lookup (i : nat) (pool : Pool) (p : Pass) (url : string) (worker : Worker) :
  pool !! i = Some (url, worker) ->
  (step_at results_file error_file i pool p).1 !! i
  = Some (url, (step url results_file error_file worker p).1).
Proof.
  intros Hi. unfold step_at. rewrite Hi.
  destruct (step url results_file error_file worker p) as [worker' p']. cbn [fst].
  apply list_lookup_insert_eq. exact (lookup_lt_Some _ _ _ Hi).
Qed.

Lemma step_at_stable (i j : nat) (pool : Pool) (p : Pass) (url : string) (worker : Worker) :
  pool !! j = Some (url, worker) -> finished worker ->
  (step_at results_file error_file i pool p).1 !! j = Some (url, worker).
Proof.
  intros Hj Hdone. destruct (decide (i = j)) as [->|Hne].
  - rewrite (step_at_lookup j pool p url worker Hj), step_finished by exact Hdone.
    reflexivity.
  - unfold step_at. destruct (pool !! i) as [[u wk]|]; [|exact Hj].
    destruct (step u results_file error_file wk p) as [wk' p']. cbn [fst].
    exact (eq_trans (list_lookup_insert_ne pool i j _ Hne) Hj).
Qed.

Lemma step_at_urls (i : nat) (pool : Pool) (p : Pass) :
  (step_at results_file error_file i pool p).1.*1 = pool.*1.
Proof.
  unfold step_at. destruct (pool !! i) as [[u wk]|] eqn:Hi; [|reflexivity].
  destruct (step u results_file error_file wk p) as [wk' p']. cbn [fst].
  refine (eq_trans (list_fmap_insert fst pool i (u, wk')) _).
  apply list_insert_id.
  refine (eq_trans (list_lookup_fmap fst pool i) _).
  unfold Pool in Hi. rewrite Hi. reflexivity.
Qed.

Lemma interleave_stable (schedule : list nat) :
  forall pool p j url worker,
    pool !! j = Some (url, worker) -> finished worker ->
    (interleave results_file error_file schedule pool p).1 !! j = Some (url, worker).
Proof.
  induction schedule as [|i schedule IH]; intros pool p j url worker Hj Hdone; [exact Hj|].
  cbn [interleave].
  pose proof (step_at_stable i j pool p url worker Hj Hdone) as Hstep.
  destruct (step_at results_file error_file i pool p) as [pool' p'].
  exact (IH _ _ _ _ _ Hstep Hdone).
Qed.

Lemma interleave_urls (schedule : list nat) :
  forall pool p, (interleave results_file error_file schedule pool p).1.*1 = pool.*1.
Proof.
  induction schedule as [|i schedule IH]; intros pool p; [reflexivity|].
  cbn [interleave]. pose proof (step_at_urls i pool p) as Hstep.
  destruct (step_at results_file error_file i pool p) as [pool' p'].
  rewrite IH. exact Hstep.
Qed.

Lemma drive_finishes (n i : nat) :
  forall pool p url worker,
    pool !! i = Some (url, worker) -> (steps_left worker <= n)%nat ->
    exists worker',
      (interleave results_file error_file (replicate n i) pool p).1 !! i
      = Some (url, worker')
      /\ finished worker'.
Proof.
  induction n as [|n IH]; intros pool p url worker Hi Hn.
  - exists worker. split; [exact Hi|]. apply steps_left_0. lia.
  - cbn [replicate interleave].
    pose proof (step_at_lookup i pool p url worker Hi) as Hstep.
    pose proof (step_decreases url worker p) as Hless.
    pose proof (step_finished url worker p) as Hsame.
    destruct (step_at results_file error_file i pool p) as [pool' p']. cbn [fst] in Hstep.
    apply (IH pool' p' url _ Hstep).
    destruct (finished_dec worker) as [Hdone|Hrun].
    + rewrite (Hsame Hdone). cbn [fst]. destruct worker; cbn in *; try contradiction; lia.
    + specialize (Hless Hrun). lia.
Qed.

Lemma finish_at_finishes (i : nat) (pool : Pool) (p : Pass) (url : string)
    (worker : Worker) :
  pool !! i = Some (url, worker) ->
  exists worker',
    (finish_at results_file error_file i pool p).1 !! i = Some (url, worker')
    /\ finished worker'.
Proof.
  intros Hi. unfold finish_at. rewrite Hi.
  exact (drive_finishes _ i pool p url worker Hi (le_n _)).
Qed.

Lemma finish_at_stable (i j : nat) (pool : Pool) (p : Pass) (url : string)
    (worker : Worker) :
  pool !! j = Some (url, worker) -> finished worker ->
  (finish_at results_file error_file i pool p).1 !! j = Some (url, worker).
Proof.
  intros Hj Hdone. unfold finish_at. destruct (pool !! i) as [[u wk]|]; [|exact Hj].
  exact (interleave_stable _ _ _ _ _ _ Hj Hdone).
Qed.

Lemma finish_at_urls (i : nat) (pool : Pool) (p : Pass) :
  (finish_at results_file error_file i pool p).1.*1 = pool.*1.
Proof.
  unfold finish_at. destruct (pool !! i) as [[u wk]|]; [|reflexivity].
  apply interleave_urls.
Qed.

Lemma complete_urls (indices : list nat) :
  forall pool p, (complete results_file error_file indices pool p).1.*1 = pool.*1.
Proof.
  induction indices as [|i indices IH]; intros pool p; [reflexivity|].
  cbn [complete]. pose proof (finish_at_urls i pool p) as Hf.
  destruct (finish_at results_file error_file i pool p) as [pool' p'].
  rewrite IH. exact Hf.
Qed.

Lemma complete_stable (indices : list nat) :
  forall pool p j url worker,
    pool !! j = Some (url, worker) -> finished worker ->
    (complete results_file error_file indices pool p).1 !! j = Some (url, worker).
Proof.
  induction indices as [|i indices IH]; intros pool p j url worker Hj Hdone; [exact Hj|].
  cbn [complete]. pose proof (finish_at_stable i j pool p url worker Hj Hdone) as Hf.
  destruct (finish_at results_file error_file i pool p) as [pool' p'].
  exact (IH _ _ _ _ _ Hf Hdone).
Qed.

Lemma complete_finishes (indices : list nat) :
  forall pool p j,
    j ∈ indices -> (j < length pool)%nat ->
    exists url worker,
      (complete results_file error_file indices pool p).1 !! j = Some (url, worker)
      /\ finished worker.
Proof.
  induction indices as [|i indices IH]; intros pool p j Hin Hj.
  - apply elem_of_nil in Hin. contradiction.
  - cbn [complete].
    pose proof (finish_at_urls i pool p) as Hurls.
    destruct (decide (j = i)) as [->|Hne].
    + destruct (lookup_lt_is_Some_2 pool i Hj) as [[url worker] Hi].
      destruct (finish_at_finishes i pool p url worker Hi) as (worker' & Hf & Hdone).
      destruct (finish_at results_file error_file i pool p) as [pool' p'].
      exists url, worker'. split; [|exact Hdone].
      exact (complete_stable _ _ _ _ _ _ Hf Hdone).
    + apply elem_of_cons in Hin as [Heq|Hin]; [contradiction|].
      destruct (finish_at results_file error_file i pool p) as [pool' p']. cbn [fst] in Hurls.
      apply (IH pool' p' j Hin).
      rewrite <- (length_fmap fst pool'), Hurls, length_fmap. exact Hj.
Qed.

Lemma run_workers_urls (schedule : list nat) (urls : list string) (p : Pass) :
  (run_workers results_file error_file schedule urls p).1.*1 = urls.
Proof.
  unfold run_workers.
  pose proof (interleave_urls schedule (map (fun url => (url, Started)) urls) p) as Hi.
  destruct (interleave results_file error_file schedule _ p) as [pool p1]. cbn [fst] in Hi.
  rewrite complete_urls, Hi.
  change (map (fun url => (url, Started)) urls) with ((fun url => (url, Started)) <$> urls).
  rewrite <- list_fmap_compose. apply list_fmap_id.
Qed.

Lemma run_workers_finished (schedule : list nat) (urls : list string) (p : Pass) :
  Forall (fun job : string * Worker => finished job.2)
         (run_workers results_file error_file schedule urls p).1.
Proof.
  pose proof (run_workers_urls schedule urls p) as Hurls.
  apply Forall_lookup. intros j [url worker] Hj.
  assert (Hlen : (j < length urls)%nat).
  { rewrite <- Hurls, length_fmap. exact (lookup_lt_Some _ _ _ Hj). }
  revert Hj. unfold run_workers.
  pose proof (interleave_urls schedule (map (fun url => (url, Started)) urls) p) as Hi.
  destruct (interleave results_file error_file schedule _ p) as [pool p1]. cbn [fst] in Hi.
  intros Hj.
  destruct (complete_finishes (seq 0 (length urls)) pool p1 j)
    as (url' & worker' & Hj' & Hdone).
  - apply elem_of_seq. lia.
  - rewrite <- (length_fmap fst pool), Hi, length_fmap, length_map. exact Hlen.
  - pose proof (eq_trans (eq_sym Hj) Hj') as Heq. injection Heq as -> ->. exact Hdone.
Qed.

End Returns.

(** ** The replies behind a worker's row *)

(** The result of the loop and the POSTs it makes depend on the upstream
    and on the POSTs made before, not on the sleeps. *)
Lemma retry_loop_outcome (url : string) (budget : nat) :
  forall d last w w',
    upstream w = upstream w' -> posts w = posts w' ->
    outcome (retry_loop url budget d last w) = outcome (retry_loop url budget d last w').
Proof.
  induction budget as [|budget IH]; intros d last w w' Hu Hp.
  - unfold outcome. cbn. rewrite Hp. reflexivity.
  - cbn [retry_loop]. unfold requests_post. rewrite Hu, Hp.
    destruct (upstream w' (posts w') url) as [status reason body|msg|ok_status msg|msg].
    + destruct (is_retry_status status); [apply IH; reflexivity|].
      destruct (http_error_message status reason); [apply IH; reflexivity|].
      destruct body; [reflexivity | apply IH; reflexivity | reflexivity].
    + apply IH; reflexivity.
    + apply IH; reflexivity.
    + reflexivity.
Qed.

(** The place a worker is at when its fetch has returned. *)
Definition made (p0 p : Pass) (url : string) (worker : Worker) : Prop :=
  exists (k0 : nat) (ks : list nat) (result : FetchResult),
    posts_of p0 p k0 ks
    /\ outcome (fetch_html_with_zyte url (replay (world p0) ks 0)) = (result, length ks)
    /\ worker = fetched url (clock (world p0) k0) result.

(** A worker inside the fetch stands, with the replies it has had, where
    the loop of a fetch taken alone stands after them. *)
Definition fetching (p0 p : Pass) (url timestamp : string) (budget : nat)
    (retry_delay : Z) (last_error_message : option string) : Prop :=
  exists (k0 : nat) (ks : list nat),
    posts_of p0 p k0 ks
    /\ timestamp = clock (world p0) k0
    /\ forall more,
         outcome (fetch_html_with_zyte url (replay (world p0) (ks ++ more) 0))
         = outcome (retry_loop url budget retry_delay last_error_message
                               (replay (world p0) (ks ++ more) (length ks))).

Definition answered (p0 p : Pass) (job : string * Worker) : Prop :=
  match job.2 with
  | Started => True
  | Fetching timestamp budget d last => fetching p0 p job.1 timestamp budget d last
  | Backing_off timestamp budget d last =>
    fetching p0 p job.1 timestamp budget (d * 2) last
  | Opening counter row | Closing counter _ row | Counting counter row
  | Saved counter row => made p0 p job.1 (Opening counter row)
  | Raised e => made p0 p job.1 (Raised e)
  end.

Definition traced (p0 : Pass) (pool : Pool) (p : Pass) : Prop :=
  upstream (world p) = upstream (world p0)
  /\ clock (world p) = clock (world p0)
  /\ (posts (world p0) <= posts (world p))%nat
  /\ Forall (answered p0 p) pool.

Lemma posts_of_mono (p0 p p' : Pass) (k0 : nat) (ks : list nat) :
  (posts (world p) <= posts (world p'))%nat ->
  posts_of p0 p k0 ks -> posts_of p0 p' k0 ks.
Proof.
  intros Hle (Hk0 & Hsorted & Hall). split; [lia|]. split; [exact Hsorted|].
  eapply Forall_impl; [exact Hall|]. cbn. intros k Hk. lia.
Qed.

Lemma made_mono (p0 p p' : Pass) (url : string) (worker : Worker) :
  (posts (world p) <= posts (world p'))%nat ->
  made p0 p url worker -> made p0 p' url worker.
Proof.
  intros Hle (k0 & ks & result & Hposts & Hrun & Hw).
  exists k0, ks, result. split; [exact (posts_of_mono _ _ _ _ _ Hle Hposts)|]. auto.
Qed.

Lemma answered_mono (p0 p p' : Pass) (job : string * Worker) :
  (posts (world p) <= posts (world p'))%nat ->
  answered p0 p job -> answered p0 p' job.
Proof.
  intros Hle. unfold answered.
  destruct job as [url [|ts b d last|ts b d last|c row|c empty row|c row|c row|e]];
    cbn [fst snd]; try exact (made_mono _ _ _ _ _ Hle); [trivial| |].
  all: intros (k0 & ks & Hposts & Hrest); exists k0, ks;
    (split; [exact (posts_of_mono _ _ _ _ _ Hle Hposts) | exact Hrest]).
Qed.

Lemma sorted_snoc (ks : list nat) (k : nat) :
  StronglySorted lt ks -> Forall (fun j => (j < k)%nat) ks ->
  StronglySorted lt (ks ++ [k]).
Proof.
  induction 1 as [|j ks Hsorted IH Hj]; intros Hall; cbn.
  - constructor; constructor.
  - apply Forall_cons in Hall as [Hjk Hall]. constructor; [exact (IH Hall)|].
    apply Forall_app. split; [exact Hj|]. constructor; [exact Hjk | constructor].
Qed.

(** A POST by a worker is the next of its own POSTs. *)
Lemma posts_of_snoc (p0 p p' : Pass) (k0 : nat) (ks : list nat) :
  posts (world p') = S (posts (world p)) ->
  posts_of p0 p k0 ks -> posts_of p0 p' k0 (ks ++ [posts (world p)]).
Proof.
  intros Hnext (Hk0 & Hsorted & Hall). split; [lia|]. split.
  - apply sorted_snoc; [exact Hsorted|].
    eapply Forall_impl; [exact Hall|]. cbn. intros k Hk. lia.
  - apply Forall_app. split.
    + eapply Forall_impl; [exact Hall|]. cbn. intros k Hk. lia.
    + constructor; [lia | constructor].
Qed.

Lemma made_answered (p0 p : Pass) (url timestamp : string) (result : FetchResult) :
  made p0 p url (fetched url timestamp result) ->
  answered p0 p (url, fetched url timestamp result).
Proof.
  intros Hmade. pose proof (fetched_place url timestamp result) as Hplace.
  unfold answered. cbn [fst snd].
  destruct (fetched url timestamp result); try contradiction; exact Hmade.
Qed.

Lemma replay_post (w0 : World) (ks more : list nat) (k : nat) (url : string) :
  requests_post url (replay w0 (ks ++ k :: more) (length ks))
  = (upstream w0 k url,
     mkWorld (fun m url => upstream w0 (nth m (ks ++ k :: more) 0%nat) url)
             (S (length ks)) [EvPost url] (today w0) (clock w0) (fs w0)).
Proof. unfold requests_post, replay. cbn. rewrite nth_middle. reflexivity. Qed.

Section Answers.
Variables results_file error_file : string.
Variable p0 : Pass.

(** One step of a worker keeps what is known of where it stands. *)
Lemma step_answered (url : string) (worker : Worker) (p : Pass) :
  upstream (world p) = upstream (world p0) ->
  clock (world p) = clock (world p0) ->
  (posts (world p0) <= posts (world p))%nat ->
  answered p0 p (url, worker) ->
  let next := step url results_file error_file worker p in
  answered p0 next.2 (url, next.1)
  /\ upstream (world next.2) = upstream (world p0)
  /\ clock (world next.2) = clock (world p0)
  /\ (posts (world p) <= posts (world next.2))%nat.
Proof.
  intros Hu Hc Hle Ha.
  destruct worker as [|ts budget d last|ts budget d last|c row|c empty row|c row|c row|e].
  - (* Started *)
    cbn [step fst snd]. split; [|auto]. unfold answered. cbn [fst snd].
    exists (posts (world p)), []. split; [|split].
    + split; [lia|]. split; constructor.
    + unfold now_timestamp. rewrite Hc. reflexivity.
    + intros more. reflexivity.
  - (* Fetching *)
    unfold answered in Ha. cbn [fst snd] in Ha.
    destruct Ha as (k0 & ks & Hposts & Hts & Hloop).
    destruct budget as [|budget'].
    + cbn [step fst snd]. split; [|auto]. apply made_answered.
      exists k0, ks, (None, last). split; [exact Hposts|]. split; [|rewrite Hts; reflexivity].
      specialize (Hloop []). rewrite app_nil_r in Hloop. rewrite Hloop. reflexivity.
    + cbn [step]. unfold requests_post. rewrite Hu.
      set (k := posts (world p)).
      set (w1 := mkWorld _ _ _ _ _ _).
      assert (Hnext : posts_of p0 (with_world w1 p) k0 (ks ++ [k]))
        by (apply posts_of_snoc; [reflexivity | exact Hposts]).
      assert (Hlen : length (ks ++ [k]) = S (length ks))
        by (rewrite length_app; cbn; lia).
      assert (Hagain : forall d' last',
                 (forall more,
                     outcome (retry_loop url (S budget') d last
                                         (replay (world p0) (ks ++ k :: more) (length ks)))
                     = outcome (retry_loop url budget' d' last'
                                           (replay (world p0) (ks ++ k :: more)
                                                   (S (length ks))))) ->
                 fetching p0 (with_world w1 p) url ts budget' d' last').
      { intros d' last' Hone. exists k0, (ks ++ [k]).
        split; [exact Hnext|]. split; [exact Hts|].
        intros more. rewrite <- app_assoc. cbn [app]. rewrite Hloop, Hone, Hlen.
        reflexivity. }
      assert (Hsettle : forall result,
                 outcome (retry_loop url (S budget') d last
                                     (replay (world p0) (ks ++ [k]) (length ks)))
                 = (result, S (length ks)) ->
                 answered p0 (with_world w1 p) (url, fetched url ts result)).
      { intros result Hone. apply made_answered. exists k0, (ks ++ [k]), result.
        split; [exact Hnext|]. split; [|rewrite Hts; reflexivity].
        rewrite Hloop, Hone, Hlen. reflexivity. }
      assert (Hw1 : upstream w1 = upstream (world p0) /\ clock w1 = clock (world p0)
                    /\ (posts (world p) <= posts w1)%nat).
      { unfold w1. cbn. split; [reflexivity|]. split; [exact Hc | lia]. }
      destruct (upstream (world p0) k url)
        as [status reason body|msg|ok_status msg|msg] eqn:E; cbn [fst snd world with_world].
      * destruct (is_retry_status status) eqn:Eretry; cbn [fst snd world with_world].
        { split; [|exact Hw1]. unfold answered. cbn [fst snd]. apply Hagain.
          intros more. cbn [retry_loop]. rewrite replay_post, E, Eretry.
          apply retry_loop_outcome; reflexivity. }
        destruct (http_error_message status reason) eqn:Ehttp; cbn [fst snd world with_world].
        { split; [|exact Hw1]. unfold answered. cbn [fst snd]. apply Hagain.
          intros more. cbn [retry_loop]. rewrite replay_post, E, Eretry, Ehttp.
          apply retry_loop_outcome; reflexivity. }
        destruct body as [html|msg|msg]; cbn [fst snd world with_world].
        -- split; [|exact Hw1]. apply Hsettle.
           cbn [retry_loop]. rewrite replay_post, E, Eretry, Ehttp. reflexivity.
        -- split; [|exact Hw1]. unfold answered. cbn [fst snd]. apply Hagain.
           intros more. cbn [retry_loop]. rewrite replay_post, E, Eretry, Ehttp.
           apply retry_loop_outcome; reflexivity.
        -- split; [|exact Hw1]. apply Hsettle.
           cbn [retry_loop]. rewrite replay_post, E, Eretry, Ehttp. reflexivity.
      * split; [|exact Hw1]. unfold answered. cbn [fst snd]. apply Hagain.
        intros more. cbn [retry_loop]. rewrite replay_post, E.
        apply retry_loop_outcome; reflexivity.
      * split; [|exact Hw1]. unfold answered. cbn [fst snd]. apply Hagain.
        intros more. cbn [retry_loop]. rewrite replay_post, E.
        apply retry_loop_outcome; reflexivity.
      * split; [|exact Hw1]. apply Hsettle.
        cbn [retry_loop]. rewrite replay_post, E. reflexivity.
  - (* Backing_off *)
    cbn [step fst snd]. split; [|cbn; auto]. exact Ha.
  - (* Opening *)
    cbn [step]. unfold open_append. cbn [fst snd]. split; [|cbn; auto].
    revert Ha. apply made_mono. cbn. lia.
  - (* Closing *)
    cbn [step fst snd]. split; [|cbn; auto].
    revert Ha. apply made_mono. cbn. lia.
  - (* Counting *)
    cbn [step fst snd].
    assert (Hworld : world (count c p) = world p) by (destruct c; reflexivity).
    rewrite Hworld. split; [|auto]. revert Ha. apply made_mono. rewrite Hworld. lia.
  - cbn [step fst snd]. auto.
  - cbn [step fst snd]. auto.
Qed.

End Answers.
Section Tracing.
Variables results_file error_file : string.
Variable p0 : Pass.

Lemma step_at_traced (i : nat) (pool : Pool) (p : Pass) :
  traced p0 pool p ->
  traced p0 (step_at results_file error_file i pool p).1
         (step_at results_file error_file i pool p).2.
Proof.
  intros (Hu & Hc & Hle & Hall). unfold step_at.
  destruct (pool !! i) as [[url worker]|] eqn:Hi; [|repeat split; assumption].
  pose proof (proj1 (Forall_lookup _ _) Hall i _ Hi) as Hjob.
  pose proof (step_answered results_file error_file p0 url worker p Hu Hc Hle Hjob) as Hstep.
  destruct (step url results_file error_file worker p) as [worker' p'].
  cbn [fst snd] in *. destruct Hstep as (Hjob' & Hu' & Hc' & Hle').
  split; [exact Hu'|]. split; [exact Hc'|]. split; [lia|].
  apply Forall_insert; [|exact Hjob'].
  eapply Forall_impl; [exact Hall|]. intros job. apply answered_mono. exact Hle'.
Qed.

End Tracing.

(** ** The counters *)

Definition counted (p0 : Pass) (pool : Pool) (p : Pass) : Prop :=
  forall counter,
    counter_of counter p
    = counter_of counter p0 ++ replicate (length (saved counter pool)) 1.

Definition saves (counter : Counter) (job : string * Worker) : list Row :=
  match job.2 with
  | Saved c row => if decide (c = counter) then [row] else []
  | _ => []
  end.

Section Counting.
Variables results_file error_file : string.
Variable p0 : Pass.

(** Only the step at [counter.append(1)] touches a counter, and only it
    makes a worker one that has saved. *)
Lemma step_counts (url : string) (worker : Worker) (p : Pass) (counter : Counter) :
  let next := step url results_file error_file worker p in
  match worker with
  | Counting c row =>
    next.1 = Saved c row
    /\ counter_of counter next.2
       = counter_of counter p ++ (if decide (c = counter) then [1] else [])
  | _ =>
    saves counter (url, next.1) = saves counter (url, worker)
    /\ counter_of counter next.2 = counter_of counter p
  end.
Proof.
  destruct worker as [|ts budget d last|ts budget d last|c row|c empty row|c row|c row|e];
    try (cbn; split; [reflexivity | destruct counter; reflexivity]).
  - (* Fetching *)
    assert (Hf : forall result, saves counter (url, fetched url ts result) = []).
    { intros result. pose proof (fetched_place url ts result) as Hplace.
      unfold saves. cbn [snd]. destruct (fetched url ts result); try contradiction; reflexivity. }
    destruct budget as [|budget'].
    + cbn [step fst snd]. split; [apply Hf | reflexivity].
    + cbn [step]. unfold requests_post.
      destruct (upstream (world p) (posts (world p)) url)
        as [status reason body|msg|ok_status msg|msg]; cbn [fst snd].
      * destruct (is_retry_status status); cbn [fst snd];
          [split; [reflexivity | apply with_world_counter]|].
        destruct (http_error_message status reason); cbn [fst snd];
          [split; [reflexivity | apply with_world_counter]|].
        destruct body; cbn [fst snd];
          (split; [first [apply Hf | reflexivity] | apply with_world_counter]).
      * split; [reflexivity | apply with_world_counter].
      * split; [reflexivity | apply with_world_counter].
      * split; [apply Hf | apply with_world_counter].
  - (* Counting *)
    cbn [step fst snd]. split; [reflexivity|].
    destruct c, counter; cbn; try reflexivity; rewrite app_nil_r; reflexivity.
Qed.

Lemma step_at_counted (i : nat) (pool : Pool) (p : Pass) :
  counted p0 pool p ->
  counted p0 (step_at results_file error_file i pool p).1
          (step_at results_file error_file i pool p).2.
Proof.
  intros Hcounted counter. specialize (Hcounted counter). unfold step_at.
  destruct (pool !! i) as [[url worker]|] eqn:Hi; [|exact Hcounted].
  pose proof (step_counts url worker p counter) as Hstep.
  destruct (step url results_file error_file worker p) as [worker' p'].
  cbn [fst snd] in *.
  assert (Hquiet : saves counter (url, worker') = saves counter (url, worker) ->
                   counter_of counter p' = counter_of counter p ->
                   counter_of counter p'
                   = counter_of counter p0
                     ++ replicate (length (saved counter (<[i := (url, worker')]> pool))) 1).
  { intros Hsaves Hcounter. rewrite Hcounter, Hcounted. do 2 f_equal.
    apply Permutation_length. symmetry.
    exact (flat_map_insert_same (saves counter) pool i _ _ Hi Hsaves). }
  destruct worker as [|ts budget d last|ts budget d last|c row|c empty row|c row|c row|e];
    try (apply Hquiet; apply Hstep).
  destruct Hstep as [-> Hcounter]. rewrite Hcounter, Hcounted.
  destruct (decide (c = counter)) as [->|Hc].
  - assert (Hlen : length (saved counter (<[i := (url, Saved counter row)]> pool))
                   = S (length (saved counter pool))).
    { unfold saved.
      rewrite (flat_map_insert_gain _ _ _ _ (url, Saved counter row) Hi) by reflexivity.
      cbn. rewrite decide_True by reflexivity. rewrite length_app. cbn. lia. }
    rewrite Hlen, replicate_S_end, app_assoc. reflexivity.
  - rewrite app_nil_r. do 2 f_equal. apply Permutation_length. symmetry.
    apply (flat_map_insert_same _ _ _ _ _ Hi).
    cbn. rewrite decide_False by congruence. reflexivity.
Qed.

End Counting.

(** ** A whole pool *)

Section Kept.
Variables results_file error_file : string.
Variable kept : Pool -> Pass -> Prop.
Hypothesis step_at_kept :
  forall i pool p,
    kept pool p ->
    kept (step_at results_file error_file i pool p).1
         (step_at results_file error_file i pool p).2.

Lemma interleave_kept (schedule : list nat) :
  forall pool p,
    kept pool p ->
    kept (interleave results_file error_file schedule pool p).1
         (interleave results_file error_file schedule pool p).2.
Proof.
  induction schedule as [|i schedule IH]; intros pool p Hkept; [exact Hkept|].
  cbn [interleave]. pose proof (step_at_kept i pool p Hkept) as Hstep.
  destruct (step_at results_file error_file i pool p) as [pool' p']. exact (IH _ _ Hstep).
Qed.

Lemma complete_kept (indices : list nat) :
  forall pool p,
    kept pool p ->
    kept (complete results_file error_file indices pool p).1
         (complete results_file error_file indices pool p).2.
Proof.
  induction indices as [|i indices IH]; intros pool p Hkept; [exact Hkept|].
  cbn [complete].
  assert (Hfinish : kept (finish_at results_file error_file i pool p).1
                         (finish_at results_file error_file i pool p).2).
  { unfold finish_at. destruct (pool !! i) as [[url worker]|]; [|exact Hkept].
    apply interleave_kept, Hkept. }
  destruct (finish_at results_file error_file i pool p) as [pool' p']. exact (IH _ _ Hfinish).
Qed.

Lemma run_workers_kept (schedule : list nat) (urls : list string) (p : Pass) :
  kept (map (fun url => (url, Started)) urls) p ->
  kept (run_workers results_file error_file schedule urls p).1
       (run_workers results_file error_file schedule urls p).2.
Proof.
  intros Hkept. unfold run_workers.
  pose proof (interleave_kept schedule _ p Hkept) as Hrun.
  destruct (interleave results_file error_file schedule _ p) as [pool p1].
  apply complete_kept, Hrun.
Qed.

End Kept.

Lemma flat_map_nothing {A B : Type} (f : A -> list B) (l : list A) :
  Forall (fun a => f a = []) l -> flat_map f l = [].
Proof. induction 1 as [|a l Ha _ IH]; [reflexivity|]. cbn. rewrite Ha, IH. reflexivity. Qed.

Lemma started_all (P : string * Worker -> Prop) (urls : list string) :
  (forall url, P (url, Started)) ->
  Forall P (map (fun url => (url, Started)) urls).
Proof. intros HP. induction urls as [|url urls IH]; constructor; auto. Qed.

Lemma started_nothing {B : Type} (f : string * Worker -> list B) (urls : list string) :
  (forall url, f (url, Started) = []) ->
  flat_map f (map (fun url => (url, Started)) urls) = [].
Proof. intros Hf. apply flat_map_nothing, started_all, Hf. Qed.

Lemma between_started (results_file error_file : string) (urls : list string) (p : Pass) :
  between results_file error_file p (map (fun url => (url, Started)) urls) p.
Proof.
  exists (fun _ => []). split; [|split; [|split]]; auto.
  - intros counter. split.
    + split; [cbn; rewrite app_nil_r; reflexivity|]. split; [constructor|].
      intros _ write Hhead. discriminate.
    + unfold landed. rewrite started_nothing by reflexivity. reflexivity.
  - apply started_all. intros url. exact I.
Qed.

Lemma traced_started (urls : list string) (p : Pass) :
  traced p (map (fun url => (url, Started)) urls) p.
Proof.
  split; [reflexivity|]. split; [reflexivity|]. split; [lia|].
  apply started_all. intros url. exact I.
Qed.

Lemma counted_started (urls : list string) (p : Pass) :
  counted p (map (fun url => (url, Started)) urls) p.
Proof.
  intros counter. unfold saved. rewrite started_nothing by reflexivity.
  cbn. rewrite app_nil_r. reflexivity.
Qed.

(** Once every worker has returned, what landed was saved. *)
Lemma landed_saved (counter : Counter) (pool : Pool) :
  Forall (fun job : string * Worker => finished job.2) pool ->
  landed counter pool = saved counter pool.
Proof.
  induction 1 as [|[url worker] pool Hdone _ IH]; [reflexivity|].
  unfold landed, saved in *. cbn [flat_map]. rewrite IH.
  destruct worker; cbn in Hdone; try contradiction; reflexivity.
Qed.

(** Every worker that has returned saved to one sink or raised. *)
Lemma finished_sorted (pool : Pool) :
  Forall (fun job : string * Worker => finished job.2) pool ->
  (length (saved Success pool) + length (saved Error pool) + length (raised pool)
   = length pool)%nat.
Proof.
  induction 1 as [|[url worker] pool Hdone _ IH]; [reflexivity|].
  unfold saved, raised in *. cbn [flat_map]. rewrite !length_app.
  destruct worker as [| | | | | |[|] row|e]; cbn in Hdone; try contradiction;
    cbn in IH |- *;
    repeat first [rewrite decide_True by reflexivity | rewrite decide_False by discriminate];
    cbn; lia.
Qed.

(** [future.result()] raises what the first worker that raised, in
    submission order, raised. *)
Lemma collect_raised (pool : Pool) :
  collect pool = match raised pool with
                 | [] => Ok ()
                 | e :: _ => Raise e
                 end.
Proof.
  induction pool as [|[url worker] pool IH]; [reflexivity|].
  unfold raised in *. cbn [flat_map collect].
  destruct worker; cbn; try exact IH. reflexivity.
Qed.

Lemma run_workers_counts (results_file error_file : string) (schedule : list nat)
    (urls : list string) (p : Pass) :
  let run := run_workers results_file error_file schedule urls p in
  (length (success_counter run.2) + length (error_counter run.2) + length (raised run.1)
   = length (success_counter p) + length (error_counter p) + length urls)%nat.
Proof.
  cbv zeta.
  pose proof (run_workers_kept results_file error_file (counted p)
                (step_at_counted results_file error_file p)
                schedule urls p (counted_started urls p)) as Hcounted.
  pose proof (run_workers_finished results_file error_file schedule urls p) as Hdone.
  pose proof (run_workers_urls results_file error_file schedule urls p) as Hurls.
  destruct (run_workers results_file error_file schedule urls p) as [pool p'].
  cbn [fst snd] in *.
  pose proof (finished_sorted pool Hdone) as Hsorted.
  pose proof (Hcounted Success) as Hs. pose proof (Hcounted Error) as He.
  cbn [counter_of] in Hs, He. rewrite Hs, He, !length_app, !length_replicate.
  rewrite <- Hurls, length_fmap. lia.
Qed.

(** ** A worker taken alone is a call of process_url *)

Section Alone.
Variables url results_file error_file : string.

Lemma work_S (n : nat) (worker : Worker) (p : Pass) :
  work url results_file error_file (S n) worker p
  = work url results_file error_file n
         (step url results_file error_file worker p).1
         (step url results_file error_file worker p).2.
Proof. cbn [work]. destruct (step url results_file error_file worker p). reflexivity. Qed.

Lemma work_finished (n : nat) (worker : Worker) (p : Pass) :
  finished worker -> work url results_file error_file n worker p = (worker, p).
Proof.
  intros Hdone. induction n as [|n IH]; [reflexivity|].
  rewrite work_S, step_finished by exact Hdone. exact IH.
Qed.

(** From the sink to the return, three steps. *)
Lemma work_opening (n : nat) (counter : Counter) (row : Row) (p : Pass) :
  work url results_file error_file (3 + n) (Opening counter row) p
  = (Saved counter row,
     count counter
           (with_world (append_row (header_of counter) row
                                   (sink results_file error_file counter) (world p)) p)).
Proof.
  change (3 + n)%nat with (S (S (S n))). rewrite !work_S.
  rewrite work_finished by exact I. reflexivity.
Qed.

Lemma work_fetched (n : nat) (timestamp : string) (result : FetchResult) (p : Pass) :
  work url results_file error_file (3 + n) (fetched url timestamp result) p
  = work url results_file error_file 3 (fetched url timestamp result) p.
Proof.
  pose proof (fetched_place url timestamp result) as Hplace.
  destruct (fetched url timestamp result); try contradiction.
  - rewrite (work_opening n). symmetry. exact (work_opening 0 _ _ _).
  - rewrite !work_finished by exact I. reflexivity.
Qed.

Lemma work_fetching (timestamp : string) (budget : nat) :
  forall n d last p,
    work url results_file error_file (2 * budget + 4 + n)
         (Fetching timestamp budget d last) p
    = work url results_file error_file 3
           (fetched url timestamp (retry_loop url budget d last (world p)).1)
           (with_world (retry_loop url budget d last (world p)).2 p).
Proof.
  induction budget as [|budget IH]; intros n d last p.
  - change (2 * 0 + 4 + n)%nat with (S (3 + n)). rewrite work_S. cbn [step fst snd retry_loop].
    rewrite work_fetched. destruct p; reflexivity.
  - replace (2 * S budget + 4 + n)%nat with (S (S (2 * budget + 4 + n))) by lia.
    rewrite work_S. cbn [step retry_loop]. unfold requests_post.
    destruct (upstream (world p) (posts (world p)) url)
      as [status reason body|msg|ok_status msg|msg]; cbn [fst snd].
    + destruct (is_retry_status status); cbn [fst snd].
      { rewrite work_S. cbn [step fst snd]. rewrite IH. reflexivity. }
      destruct (http_error_message status reason); cbn [fst snd].
      { replace (S (2 * budget + 4 + n)) with (2 * budget + 4 + S n)%nat by lia.
        rewrite IH. reflexivity. }
      destruct body; cbn [fst snd].
      * replace (S (2 * budget + 4 + n)) with (3 + (2 * budget + 2 + n))%nat by lia.
        apply work_fetched.
      * replace (S (2 * budget + 4 + n)) with (2 * budget + 4 + S n)%nat by lia.
        rewrite IH. reflexivity.
      * replace (S (2 * budget + 4 + n)) with (3 + (2 * budget + 2 + n))%nat by lia.
        apply work_fetched.
    + replace (S (2 * budget + 4 + n)) with (2 * budget + 4 + S n)%nat by lia.
      rewrite IH. reflexivity.
    + replace (S (2 * budget + 4 + n)) with (2 * budget + 4 + S n)%nat by lia.
      rewrite IH. reflexivity.
    + replace (S (2 * budget + 4 + n)) with (3 + (2 * budget + 2 + n))%nat by lia.
      apply work_fetched.
Qed.

Lemma work_alone (p : Pass) :
  let alone := work url results_file error_file (steps_left Started) Started p in
  (result_of alone.1, alone.2) = process_url url results_file error_file p.
Proof.
  cbv zeta. change (steps_left Started) with (S (2 * 5 + 4 + 0)).
  rewrite work_S. cbn [step fst snd]. rewrite work_fetching.
  unfold process_url, fetch_html_with_zyte, fetch_html_with_zyte_opts.
  destruct (retry_loop url 5 1 None (world p)) as [[html error] w1]. cbn [fst snd].
  unfold fetched.
  destruct html as [page|]; [destruct (truthy_html page)|].
  - destruct (Propertyfields.parsePropertyFields page url) as [d|e].
    + rewrite (work_opening 0). reflexivity.
    + rewrite work_finished by exact I. reflexivity.
  - rewrite (work_opening 0). reflexivity.
  - rewrite (work_opening 0). reflexivity.
Qed.

End Alone.

(** ** A sink that no worker has opened *)

Definition opens (counter : Counter) (job : string * Worker) : list Row :=
  match job.2 with
  | Closing c _ row | Counting c row | Saved c row =>
    if decide (c = counter) then [row] else []
  | _ => []
  end.

(** A sink is on disk as it was for as long as no worker has opened it. *)
Definition fresh (results_file error_file : string) (p0 : Pass) (pool : Pool) (p : Pass)
    : Prop :=
  forall counter,
    flat_map (opens counter) pool = [] ->
    fs (world p) !! sink results_file error_file counter
    = fs (world p0) !! sink results_file error_file counter.

Lemma flat_map_lookup {A B : Type} (f : A -> list B) (l : list A) (i : nat) (a : A) :
  l !! i = Some a -> flat_map f l = [] -> f a = [].
Proof.
  revert i. induction l as [|b l IH]; intros i Hi Hnil; [discriminate|].
  cbn in Hnil. apply app_eq_nil in Hnil as [Hb Hl].
  destruct i as [|i]; cbn in Hi; [injection Hi as ->; exact Hb | exact (IH i Hi Hl)].
Qed.

Section Fresh.
Variables results_file error_file : string.
Hypothesis files_differ : results_file <> error_file.
Variable p0 : Pass.

(** Outside [open] and the end of [with] a step leaves the files alone. *)
Lemma step_opens (url : string) (worker : Worker) (p : Pass) (counter : Counter) :
  let next := step url results_file error_file worker p in
  match worker with
  | Opening _ _ | Closing _ _ _ => True
  | _ =>
    fs (world next.2) = fs (world p)
    /\ opens counter (url, next.1) = opens counter (url, worker)
  end.
Proof.
  destruct worker as [|ts budget d last|ts budget d last|c row|c empty row|c row|c row|e];
    try exact I; try (cbn; split; reflexivity).
  - (* Fetching *)
    assert (Hf : forall result, opens counter (url, fetched url ts result) = []).
    { intros result. pose proof (fetched_place url ts result) as Hplace.
      unfold opens. cbn [snd]. destruct (fetched url ts result); try contradiction; reflexivity. }
    destruct budget as [|budget'].
    + cbn [step fst snd]. split; [reflexivity | apply Hf].
    + cbn [step]. unfold requests_post.
      destruct (upstream (world p) (posts (world p)) url)
        as [status reason body|msg|ok_status msg|msg]; cbn [fst snd].
      * destruct (is_retry_status status); cbn [fst snd]; [split; reflexivity|].
        destruct (http_error_message status reason); cbn [fst snd]; [split; reflexivity|].
        destruct body; cbn [fst snd]; (split; [reflexivity | first [apply Hf | reflexivity]]).
      * split; reflexivity.
      * split; reflexivity.
      * split; [reflexivity | apply Hf].
  - (* Counting *)
    cbn [step fst snd]. split; [destruct c; reflexivity | reflexivity].
Qed.

Lemma step_at_fresh (i : nat) (pool : Pool) (p : Pass) :
  fresh results_file error_file p0 pool p ->
  fresh results_file error_file p0 (step_at results_file error_file i pool p).1
        (step_at results_file error_file i pool p).2.
Proof.
  intros Hfresh counter. specialize (Hfresh counter). unfold step_at.
  destruct (pool !! i) as [[url worker]|] eqn:Hi; [|exact Hfresh].
  pose proof (step_opens url worker p counter) as Hstep.
  destruct (step url results_file error_file worker p) as [worker' p'] eqn:Estep.
  cbn [fst snd] in *.
  assert (Hquiet : fs (world p') = fs (world p)
                   /\ opens counter (url, worker') = opens counter (url, worker) ->
                   flat_map (opens counter) (<[i := (url, worker')]> pool) = [] ->
                   fs (world p') !! sink results_file error_file counter
                   = fs (world p0) !! sink results_file error_file counter).
  { intros [Hfs Hopens] Hnil. rewrite Hfs. apply Hfresh.
    apply Permutation_nil_r. rewrite <- Hnil. symmetry.
    exact (flat_map_insert_same (opens counter) pool i _ _ Hi Hopens). }
  destruct worker as [|ts budget d last|ts budget d last|c row|c empty row|c row|c row|e];
    try exact (Hquiet Hstep).
  - (* Opening *)
    cbn [step] in Estep. unfold open_append in Estep. injection Estep as <- <-.
    intros Hnil.
    pose proof (flat_map_lookup (opens counter) _ i (url, Closing c _ row)
                                (list_lookup_insert_eq pool i _ (lookup_lt_Some _ _ _ Hi))
                                Hnil) as Hrow.
    unfold opens in Hrow. cbn [snd] in Hrow.
    destruct (decide (c = counter)) as [->|Hc]; [discriminate|].
    cbn [world with_world].
    rewrite lookup_set_fs_other by (apply (sink_differs results_file error_file files_differ);
                                    congruence).
    apply Hfresh. apply Permutation_nil_r. rewrite <- Hnil. symmetry.
    apply (flat_map_insert_same (opens counter) pool i _ _ Hi).
    unfold opens. cbn [snd]. rewrite decide_False by exact Hc. reflexivity.
  - (* Closing *)
    cbn [step] in Estep. injection Estep as <- <-.
    intros Hnil.
    pose proof (flat_map_lookup (opens counter) _ i (url, Counting c row)
                                (list_lookup_insert_eq pool i _ (lookup_lt_Some _ _ _ Hi))
                                Hnil) as Hrow.
    unfold opens in Hrow. cbn [snd] in Hrow.
    destruct (decide (c = counter)) as [->|Hc]; [discriminate|].
    cbn [world with_world]. unfold close_append.
    rewrite lookup_set_fs_other by (apply (sink_differs results_file error_file files_differ);
                                    congruence).
    apply Hfresh. apply Permutation_nil_r. rewrite <- Hnil. symmetry.
    apply (flat_map_insert_same (opens counter) pool i _ _ Hi). reflexivity.
Qed.

End Fresh.

Lemma fresh_started (results_file error_file : string) (urls : list string) (p : Pass) :
  fresh results_file error_file p (map (fun url => (url, Started)) urls) p.
Proof. intros counter _. reflexivity. Qed.

Lemma opened_saved (counter : Counter) (pool : Pool) :
  Forall (fun job : string * Worker => finished job.2) pool ->
  flat_map (opens counter) pool = saved counter pool.
Proof.
  induction 1 as [|[url worker] pool Hdone _ IH]; [reflexivity|].
  unfold saved in *. cbn [flat_map]. rewrite IH.
  destruct worker; cbn in Hdone; try contradiction; reflexivity.
Qed.
(** The place a worker is at after its fetch fixes how it ends. *)
Lemma fetched_ending (url timestamp : string) (result : FetchResult) (worker : Worker) :
  (exists counter row,
      fetched url timestamp result = Opening counter row /\ worker = Saved counter row)
  \/ (exists e, fetched url timestamp result = Raised e /\ worker = Raised e) ->
  ending url timestamp result = worker.
Proof.
  unfold fetched, ending, content. destruct result as [[page|] error]; cbn [fst snd].
  - destruct (truthy_html page).
    + destruct (Propertyfields.parsePropertyFields page url) as [d|e'].
      * intros [(c & row & [= <- <-] & ->)|(e & Hf & _)]; [reflexivity | discriminate].
      * intros [(c & row & Hf & _)|(e & [= <-] & ->)]; [discriminate | reflexivity].
    + intros [(c & row & [= <- <-] & ->)|(e & Hf & _)]; [|discriminate].
      destruct error; reflexivity.
  - intros [(c & row & [= <- <-] & ->)|(e & Hf & _)]; [|discriminate].
    destruct error; reflexivity.
Qed.

Lemma run_workers_settled (results_file error_file : string) (schedule : list nat)
    (urls : list string) (p : Pass) :
  let run := run_workers results_file error_file schedule urls p in
  Forall (settled p run.2) run.1.
Proof.
  cbv zeta.
  pose proof (run_workers_kept results_file error_file (traced p)
                (step_at_traced results_file error_file p)
                schedule urls p (traced_started urls p)) as Htraced.
  pose proof (run_workers_finished results_file error_file schedule urls p) as Hdone.
  destruct (run_workers results_file error_file schedule urls p) as [pool p'].
  cbn [fst snd] in *. destruct Htraced as (_ & _ & _ & Hanswered).
  apply Forall_lookup. intros i [url worker] Hi.
  pose proof (proj1 (Forall_lookup _ _) Hanswered i _ Hi) as Ha.
  pose proof (proj1 (Forall_lookup _ _) Hdone i _ Hi) as Hd.
  unfold answered in Ha. cbn [fst snd] in *.
  destruct worker as [| | | | | |c row|e]; try contradiction.
  - destruct Ha as (k0 & ks & result & Hposts & Hrun & Hplace).
    exists k0, ks, result. split; [exact Hposts|]. split; [exact Hrun|].
    cbn [fst snd]. symmetry. apply fetched_ending. left. exists c, row.
    split; [symmetry; exact Hplace | reflexivity].
  - destruct Ha as (k0 & ks & result & Hposts & Hrun & Hplace).
    exists k0, ks, result. split; [exact Hposts|]. split; [exact Hrun|].
    cbn [fst snd]. symmetry. apply fetched_ending. right. exists e.
    split; [symmetry; exact Hplace | reflexivity].
Qed.

Lemma run_workers_harvested (results_file error_file : string) (schedule : list nat)
    (urls : list string) (p : Pass) :
  results_file <> error_file ->
  harvested results_file error_file p urls
            (run_workers results_file error_file schedule urls p).1
            (run_workers results_file error_file schedule urls p).2.
Proof.
  intros Hdiffer.
  pose proof (run_workers_kept results_file error_file (counted p)
                (step_at_counted results_file error_file p)
                schedule urls p (counted_started urls p)) as Hcounted.
  pose proof (run_workers_kept results_file error_file (traced p)
                (step_at_traced results_file error_file p)
                schedule urls p (traced_started urls p)) as Htraced.
  pose proof (run_workers_kept results_file error_file
                (between results_file error_file p)
                (step_at_between results_file error_file Hdiffer p)
                schedule urls p (between_started results_file error_file urls p))
    as Hbetween.
  pose proof (run_workers_kept results_file error_file
                (fresh results_file error_file p)
                (step_at_fresh results_file error_file Hdiffer p)
                schedule urls p (fresh_started results_file error_file urls p))
    as Hfresh.
  pose proof (run_workers_settled results_file error_file schedule urls p) as Hsettled.
  pose proof (run_workers_finished results_file error_file schedule urls p) as Hdone.
  pose proof (run_workers_urls results_file error_file schedule urls p) as Hurls.
  destruct (run_workers results_file error_file schedule urls p) as [pool p'].
  cbn [fst snd] in *.
  destruct Htraced as (Hu & Hc & Hle & Hanswered).
  destruct Hbetween as (writes & Hsinks & Hplaced & Htoday & Hother).
  split; [exact Hurls|]. split; [exact Hsettled|].
  split; [|split; [|split; [|split; [|split]]]]; auto.
  - intros counter. exists (writes counter).
    destruct (Hsinks counter) as (Hgrown & Hlanded).
    split; [destruct counter; exact Hgrown|].
    rewrite <- (landed_saved counter pool Hdone). exact Hlanded.
  - intros counter Hnone. apply Hfresh. rewrite (opened_saved counter pool Hdone).
    exact Hnone.
Qed.
(** ** One call, and the counters of a pass *)

(** C10, as it holds.  A call of [process_url] that returns appends one
    [1] to exactly one counter and one row to that counter's sink: to the
    success counter and the results file when the fetch returned a page
    and [parsePropertyFields] returned a record, to the error counter and
    the ledger, with the URL and the fetch's message, when the fetch
    returned no page.  A call in which [parsePropertyFields] raises
    appends to neither counter and writes nothing.  A worker of the pool
    taken alone is such a call.  When a pool is left, under any schedule,
    every worker has returned or raised, each counter has grown by a [1]
    for each worker that saved to its sink, and the two counts and the
    number of workers that raised add up to the number of URLs
    submitted. *)
Theorem process_url_counts_what_returns (url results_file error_file : string)
    (schedule : list nat) (urls : list string) (p : Pass) :
  let fetch := fetch_html_with_zyte url (world p) in
  let call := process_url url results_file error_file p in
  let alone := work url results_file error_file (steps_left Started) Started p in
  let run := run_workers results_file error_file schedule urls p in
  match content fetch.1 with
  | Some page =>
    match Propertyfields.parsePropertyFields page url with
    | Ok d =>
      call.1 = Ok ()
      /\ success_counter call.2 = success_counter p ++ [1]
      /\ error_counter call.2 = error_counter p
      /\ read_file results_file (world call.2)
         = appended ["address"; "listed_price"; "MLS #"; "days_on_zillow"; "views";
                     "saves"; "url"; "timestamp"]
                    [Propertyfields.address d; Propertyfields.listed_price d;
                     Propertyfields.MLS d; Propertyfields.days_on_zillow d;
                     Propertyfields.views d; Propertyfields.saves d;
                     Propertyfields.url d; now_timestamp (world p)]
                    (read_file results_file (world p))
    | Raise e =>
      call.1 = Raise e
      /\ success_counter call.2 = success_counter p
      /\ error_counter call.2 = error_counter p
      /\ fs (world call.2) = fs (world p)
    end
  | None =>
    call.1 = Ok ()
    /\ success_counter call.2 = success_counter p
    /\ error_counter call.2 = error_counter p ++ [1]
    /\ read_file error_file (world call.2)
       = appended ["Error URL"; "Error Message"]
                  [url; match fetch.1.2 with Some message => message | None => "None" end]
                  (read_file error_file (world p))
  end
  /\ (result_of alone.1, alone.2) = call
  /\ Forall (settled p run.2) run.1
  /\ (forall counter,
         counter_of counter run.2
         = counter_of counter p ++ replicate (length (saved counter run.1)) 1)
  /\ (length (saved Success run.1) + length (saved Error run.1) + length (raised run.1)
      = length urls)%nat
  /\ (length (success_counter run.2) + length (error_counter run.2) + length (raised run.1)
      = length (success_counter p) + length (error_counter p) + length urls)%nat.
Proof.
  cbv zeta. split; [|split; [|split; [|split; [|split]]]].
  - unfold process_url, content.
    pose proof (fetch_frame url (world p)) as (Hfs & _).
    pose proof (fun f => read_after_fetch f url (world p)) as Hread.
    destruct (fetch_html_with_zyte url (world p)) as [[html error] w1]. cbn [fst snd] in *.
    assert (Hfailed :
              let call := (Ok (), mkPass (save_error_urls url error error_file w1)
                                         (success_counter p) (error_counter p ++ [1])) in
              call.1 = Ok ()
              /\ success_counter call.2 = success_counter p
              /\ error_counter call.2 = error_counter p ++ [1]
              /\ read_file error_file (world call.2)
                 = appended ["Error URL"; "Error Message"]
                            [url; match error with Some message => message | None => "None" end]
                            (read_file error_file (world p))).
    { cbn [fst snd world success_counter error_counter]. repeat split.
      unfold save_error_urls. rewrite read_append_same, Hread.
      destruct error; reflexivity. }
    destruct html as [page|]; [|exact Hfailed].
    destruct (truthy_html page); [|exact Hfailed].
    destruct (Propertyfields.parsePropertyFields page url) as [d|e].
    + cbn [fst snd world success_counter error_counter]. repeat split.
      unfold save_property_details_to_csv. rewrite read_append_same, Hread. reflexivity.
    + cbn [fst snd world success_counter error_counter]. repeat split. exact Hfs.
  - apply work_alone.
  - apply run_workers_settled.
  - apply (run_workers_kept results_file error_file (counted p)
             (step_at_counted results_file error_file p)
             schedule urls p (counted_started urls p)).
  - pose proof (finished_sorted _ (run_workers_finished results_file error_file
                                                         schedule urls p)) as Hsorted.
    rewrite Hsorted, <- (length_fmap fst), run_workers_urls. reflexivity.
  - apply run_workers_counts.
Qed.

(** The city of the fixtures when the page of the second listing has no
    [strong] tag: three URLs are submitted, every worker ends, and the two
    counters hold two entries. *)
Lemma a_raising_call_is_not_counted :
  let pass := scrape_city [] "boston" Fixtures.links_csv 14 Fixtures.broken_city in
  first_column Fixtures.links_file
  = Ok [Fixtures.listing; Fixtures.second_listing; Fixtures.third_listing]
  /\ pass.1 = Raise AttributeError
  /\ success_counter pass.2 = [1]
  /\ error_counter pass.2 = [1].
Proof. vm_compute. repeat split. Qed.
(** ** The retry pass *)

Lemma collect_run_pool (results_file error_file : string) (schedule : list nat)
    (urls : list string) (p : Pass) :
  run_pool results_file error_file schedule urls p
  = (match raised (run_workers results_file error_file schedule urls p).1 with
     | [] => Ok ()
     | e :: _ => Raise e
     end,
     (run_workers results_file error_file schedule urls p).2).
Proof.
  unfold run_pool.
  destruct (run_workers results_file error_file schedule urls p) as [pool p'].
  cbn [fst snd]. rewrite collect_raised. reflexivity.
Qed.

Lemma read_removed_same (f : string) (w : World) :
  read_file f (set_fs (delete f (fs w)) w) = [].
Proof. unfold read_file, set_fs. cbn. unfold File. rewrite lookup_delete_eq. reflexivity. Qed.

Lemma read_removed_other (f g : string) (w : World) :
  f <> g -> read_file g (set_fs (delete f (fs w)) w) = read_file g w.
Proof.
  intros Hne. unfold read_file, set_fs. cbn. unfold File.
  rewrite lookup_delete_ne by exact Hne. reflexivity.
Qed.



(** On that world the retry harvests the third listing and writes the
    second, refused again, into the new ledger. *)
Example retry_run :
  let retry := retry_failed_urls [1; 0; 1; 0]%nat "boston" 14 Fixtures.after_first_pass in
  retry.1 = Ok ()
  /\ result_urls Fixtures.results_csv (world retry.2) = [Fixtures.third_listing]
  /\ read_file Fixtures.errors_csv (world retry.2)
     = [["Error URL"; "Error Message"]; [Fixtures.second_listing; "Connection aborted"]]
  /\ success_counter retry.2 = [1] /\ error_counter retry.2 = [1].
Proof. vm_compute. repeat split. Qed.

End HarvestSpec.

(** * Properties of the search-state codec *)

Module CodecSpec.
Import PyStr Urllib Zipwiseproperties.

(** ** Strings *)

#[local] Arguments String.append !_ _ / : simpl nomatch.

Fixpoint has_char (ch : ascii) (s : string) : bool :=
  match s with
  | EmptyString => false
  | String c s' => (Ascii.eqb ch c || has_char ch s')%bool
  end.

Lemma append_assoc (a b c : string) : (a +:+ b) +:+ c = a +:+ (b +:+ c).
Proof. induction a as [|x a IH]; cbn; [reflexivity|]. rewrite IH. reflexivity. Qed.

Lemma append_nil_r (a : string) : a +:+ EmptyString = a.
Proof. induction a as [|x a IH]; cbn; [reflexivity|]. rewrite IH. reflexivity. Qed.

Lemma has_char_app (ch : ascii) (a b : string) :
  has_char ch (a +:+ b) = (has_char ch a || has_char ch b)%bool.
Proof.
  induction a as [|x a IH]; cbn; [reflexivity|]. rewrite IH, orb_assoc. reflexivity.
Qed.

Lemma strip_prefix_Some (p s r : string) :
  strip_prefix p s = Some r -> s = p +:+ r.
Proof.
  revert s. induction p as [|a p IH]; intros s Hs; cbn in *; [congruence|].
  destruct s as [|b s]; [discriminate|].
  destruct (Ascii.eqb_spec a b) as [->|]; [|discriminate].
  rewrite (IH s Hs). reflexivity.
Qed.

Lemma strip_prefix_self (p t : string) : strip_prefix p (p +:+ t) = Some t.
Proof.
  induction p as [|a p IH]; cbn; [reflexivity|]. rewrite Ascii.eqb_refl. exact IH.
Qed.

Lemma strip_prefix_app (p s r t : string) :
  strip_prefix p s = Some r -> strip_prefix p (s +:+ t) = Some (r +:+ t).
Proof.
  intros Hs. apply strip_prefix_Some in Hs. subst s. rewrite append_assoc.
  apply strip_prefix_self.
Qed.

(** A prefix without the character [ch] cannot reach past a [ch]. *)
Lemma strip_prefix_before (p x y r : string) (ch : ascii) :
  has_char ch p = false ->
  strip_prefix p (x +:+ String ch y) = Some r ->
  exists r', strip_prefix p x = Some r'.
Proof.
  revert x r. induction p as [|a p IH]; intros x r Hp Hs; cbn in *; [eauto|].
  apply orb_false_iff in Hp as [Ha Hp].
  destruct x as [|b x]; cbn in Hs.
  - rewrite Ascii.eqb_sym, Ha in Hs. discriminate.
  - destruct (Ascii.eqb a b); [eauto|discriminate].
Qed.

Lemma find_sep_Some (sep s a b : string) :
  find_sep sep s = Some (a, b) -> s = a +:+ sep +:+ b.
Proof.
  revert a. induction s as [|c s IH]; intros a Hf; cbn in Hf.
  - destruct (strip_prefix sep EmptyString) as [rest|] eqn:E; [|discriminate].
    injection Hf as <- <-. apply (strip_prefix_Some _ _ _ E).
  - destruct (strip_prefix sep (String c s)) as [rest|] eqn:E.
    + injection Hf as <- <-. apply (strip_prefix_Some _ _ _ E).
    + destruct (find_sep sep s) as [[a' b']|]; [|discriminate].
      injection Hf as <- <-. cbn. rewrite <- (IH a' eq_refl). reflexivity.
Qed.

Lemma find_sep_absent (c : ascii) (p s : string) :
  has_char c s = false -> find_sep (String c p) s = None.
Proof.
  induction s as [|b s IH]; intros Hs; cbn in *; [reflexivity|].
  apply orb_false_iff in Hs as [Hb Hs]. rewrite Hb, (IH Hs). reflexivity.
Qed.

(** Cutting a URL at its first separator and putting a fresh state after
    the stripped base gives a URL that is cut at the same place. *)
Lemma find_sep_rebuild (c : ascii) (p : string) (ch : ascii) :
  has_char ch (String c p) = false ->
  forall a1 s a2 b t,
    find_sep (String c p) s = Some (a1 +:+ a2, b) ->
    find_sep (String c p) (a1 +:+ String ch (String c p +:+ t))
    = Some (a1 +:+ String ch EmptyString, t).
Proof.
  intros Hch. pose proof Hch as Hch'. cbn in Hch'.
  apply orb_false_iff in Hch' as [Hc _].
  induction a1 as [|x a1 IH]; intros s a2 b t Hf.
  - cbn. rewrite (Ascii.eqb_sym c ch), Hc, Ascii.eqb_refl, strip_prefix_self.
    reflexivity.
  - pose proof (find_sep_Some _ _ _ _ Hf) as Hs.
    destruct s as [|y s]; [discriminate|]. cbn in Hs. injection Hs as -> Hs.
    cbn [find_sep] in Hf.
    destruct (strip_prefix (String c p) (String x s)) as [rest|] eqn:E.
    { cbn in Hf. discriminate. }
    destruct (find_sep (String c p) s) as [[a' b']|] eqn:Es; [|discriminate].
    cbn in Hf. injection Hf as Ha' ->.
    change (String x a1 +:+ String ch (String c p +:+ t))
      with (String x (a1 +:+ String ch (String c p +:+ t))).
    cbn [find_sep].
    destruct (strip_prefix (String c p) (String x (a1 +:+ String ch (String c p +:+ t))))
      as [r|] eqn:E2.
    + exfalso.
      destruct (strip_prefix_before (String c p) (String x a1) (String c p +:+ t) r ch
                                    Hch E2) as [r' Hr'].
      rewrite Hs in E.
      pose proof (strip_prefix_app _ _ _ (a2 +:+ String c p +:+ b) Hr') as Hx.
      cbn [String.append] in Hx. rewrite append_assoc in E. congruence.
    + rewrite (IH s a2 b t) by (rewrite Es, Ha'; reflexivity). reflexivity.
Qed.

Lemma rstrip_char_snoc (ch : ascii) (x : string) :
  rstrip_char ch (x +:+ String ch EmptyString) = rstrip_char ch x.
Proof.
  induction x as [|c x IH]; cbn.
  - rewrite Ascii.eqb_refl. reflexivity.
  - rewrite IH. reflexivity.
Qed.

Lemma rstrip_char_idem (ch : ascii) (s : string) :
  rstrip_char ch (rstrip_char ch s) = rstrip_char ch s.
Proof.
  induction s as [|c s IH]; cbn; [reflexivity|].
  destruct (is_empty (rstrip_char ch s) && Ascii.eqb c ch)%bool eqn:E; [reflexivity|].
  cbn. rewrite IH, E. reflexivity.
Qed.

Lemma rstrip_char_prefix (ch : ascii) (s : string) :
  exists t, s = rstrip_char ch s +:+ t.
Proof.
  induction s as [|c s [t IH]]; cbn; [exists EmptyString; reflexivity|].
  destruct (is_empty (rstrip_char ch s) && Ascii.eqb c ch)%bool.
  - exists (String c s). reflexivity.
  - exists t. cbn. rewrite <- IH. reflexivity.
Qed.

Lemma split_two (sep s a t : string) :
  find_sep sep s = Some (a, t) -> find_sep sep t = None -> split sep s = [a; t].
Proof.
  intros Hs Ht. unfold split.
  destruct s as [|c s].
  - destruct sep; cbn in Hs; [|discriminate].
    injection Hs as <- <-. cbn in Ht. discriminate.
  - cbn [String.length split_fuel]. rewrite Hs.
    destruct (String.length s); cbn [split_fuel]; [|rewrite Ht]; reflexivity.
Qed.

Lemma split_first (sep s part0 part1 : string) (more : list string) :
  split sep s = part0 :: part1 :: more ->
  exists rest, find_sep sep s = Some (part0, rest).
Proof.
  unfold split. destruct (String.length s); cbn; [discriminate|].
  destruct (find_sep sep s) as [[a rest]|]; [|discriminate].
  intros E. injection E as -> _. eauto.
Qed.

(** ** Percent-encoding *)

(** What [quote_char] must print for [unquote] to read the character
    back: the character itself when it is not a percent sign, or a percent
    sign and the two hex digits of its code. *)
Definition quote_char_check (c : ascii) : bool :=
  match quote_char c with
  | String x EmptyString => Ascii.eqb x c && negb (Ascii.eqb c "%")
  | String x (String h1 (String h2 EmptyString)) =>
    Ascii.eqb x "%" &&
    match hex_value h1, hex_value h2 with
    | Some a, Some b => Ascii.eqb (ascii_of_nat (16 * a + b)) c
    | _, _ => false
    end
  | _ => false
  end.

Lemma quote_char_checked (c : ascii) : quote_char_check c = true.
Proof. destruct c as [[] [] [] [] [] [] [] []]; vm_compute; reflexivity. Qed.

Lemma quote_char_cases (c : ascii) :
  (quote_char c = String c EmptyString /\ Ascii.eqb c "%" = false)
  \/ (exists h1 h2 a b,
         quote_char c = String "%" (String h1 (String h2 EmptyString))
         /\ hex_value h1 = Some a /\ hex_value h2 = Some b
         /\ ascii_of_nat (16 * a + b) = c).
Proof.
  pose proof (quote_char_checked c) as Hc. unfold quote_char_check in Hc.
  destruct (quote_char c) as [|x [|h1 [|h2 [|]]]]; cbv iota beta in Hc;
    try discriminate.
  - left. apply andb_true_iff in Hc as [Hx Hp]. apply Ascii.eqb_eq in Hx as ->.
    split; [reflexivity|]. apply negb_true_iff, Hp.
  - right. apply andb_true_iff in Hc as [Hx Hh]. apply Ascii.eqb_eq in Hx as ->.
    destruct (hex_value h1) as [a|] eqn:Ha; [|discriminate].
    destruct (hex_value h2) as [b|] eqn:Hb; [|discriminate].
    apply Ascii.eqb_eq in Hh. exists h1, h2, a, b. auto.
Qed.

Lemma unquote_quote (s : string) : unquote (quote s) = s.
Proof.
  induction s as [|c s IH]; [reflexivity|]. cbn [quote].
  destruct (quote_char_cases c) as [[-> Hc]|(h1 & h2 & a & b & -> & Ha & Hb & Hab)].
  - change (String c EmptyString +:+ quote s) with (String c (quote s)).
    cbn [unquote]. rewrite Hc, IH. reflexivity.
  - change (String "%" (String h1 (String h2 EmptyString)) +:+ quote s)
      with (String "%" (String h1 (String h2 (quote s)))).
    cbn [unquote]. rewrite Ascii.eqb_refl, Ha, Hb, Hab, IH. reflexivity.
Qed.

Lemma quote_char_no_question (c : ascii) : has_char "?" (quote_char c) = false.
Proof. destruct c as [[] [] [] [] [] [] [] []]; vm_compute; reflexivity. Qed.

Lemma quote_no_question (s : string) : has_char "?" (quote s) = false.
Proof.
  induction s as [|c s IH]; [reflexivity|]. cbn [quote].
  rewrite has_char_app, quote_char_no_question, IH. reflexivity.
Qed.

(** ** Dictionaries *)

Lemma lookup_store_eq (k : string) (v : Json) (d : list (string * Json)) :
  PyDict.lookup k (PyDict.store k v d) = Some v.
Proof.
  induction d as [|[k' v'] d IH]; cbn.
  - rewrite String.eqb_refl. reflexivity.
  - destruct (String.eqb_spec k k') as [->|Hne]; cbn.
    + rewrite String.eqb_refl. reflexivity.
    + rewrite (proj2 (String.eqb_neq k k') Hne). exact IH.
Qed.

Lemma lookup_store_ne (k k' : string) (v : Json) (d : list (string * Json)) :
  k <> k' -> PyDict.lookup k' (PyDict.store k v d) = PyDict.lookup k' d.
Proof.
  intros Hne. induction d as [|[k0 v0] d IH]; cbn.
  - rewrite (proj2 (String.eqb_neq k' k)) by congruence. reflexivity.
  - destruct (String.eqb_spec k k0) as [->|Hk]; cbn.
    + rewrite (proj2 (String.eqb_neq k' k0)) by congruence. reflexivity.
    + destruct (String.eqb k' k0); [reflexivity|exact IH].
Qed.

Lemma setitem2_dict (d f : list (string * Json)) (k1 k2 : string) (v : Json) :
  PyDict.lookup k1 d = Some (JObj f) ->
  setitem2 (JObj d) k1 k2 v = Ok (JObj (PyDict.store k1 (JObj (PyDict.store k2 v f)) d)).
Proof. intros Hf. unfold setitem2. cbn. rewrite Hf. reflexivity. Qed.

Section Price.
Context `{JsonLib}.
Import States.

(** The URL a mutator writes is cut where the URL it read was cut, and its
    second part decodes to the text that was encoded. *)
Lemma rebuilt_url_parts (base_url base_part : string) (old : Json) (text : string) :
  split_url base_url = Ok (base_part, old) ->
  split separator (base_part +:+ "/?searchQueryState=" +:+ quote text)
  = [base_part +:+ "/"; quote text]
  /\ rstrip_char "/" (base_part +:+ "/") = base_part.
Proof.
  unfold split_url. intros Hsplit.
  destruct (split separator base_url) as [|part0 [|part1 more]] eqn:Eparts;
    try discriminate.
  destruct (json_loads (unquote part1)) as [state|]; [|discriminate].
  cbn in Hsplit. injection Hsplit as <- _.
  destruct (split_first _ _ _ _ _ Eparts) as [rest Hfind].
  destruct (rstrip_char_prefix "/" part0) as [t Ht].
  assert (Hfind' : find_sep separator base_url
                   = Some (rstrip_char "/" part0 +:+ t, rest))
    by (rewrite <- Ht; exact Hfind).
  split.
  - apply split_two.
    + apply (find_sep_rebuild "?" "searchQueryState=" "/" eq_refl
                              (rstrip_char "/" part0) base_url t rest (quote text) Hfind').
    + apply find_sep_absent, quote_no_question.
  - rewrite rstrip_char_snoc. apply rstrip_char_idem.
Qed.


End Price.

#[local] Existing Instance MiniJson.lib.



End CodecSpec.

(** * Properties of the discovery walk *)

Module DiscoverySpec.
Import Zipwiseproperties Scraper Plan.

Lemma map_flat_map {A B C} (f : B -> C) (g : A -> list B) (l : list A) :
  map f (flat_map g l) = flat_map (fun x => map f (g x)) l.
Proof.
  induction l as [|x l IH]; cbn; [reflexivity|]. rewrite map_app, IH. reflexivity.
Qed.

Lemma map_flat_flat_map {A B C D} (f : C -> D) (g : B -> list C) (h : A -> list B)
    (l : list A) :
  map f (flat_map g (flat_map h l)) = flat_map (fun x => map f (flat_map g (h x))) l.
Proof.
  induction l as [|x l IH]; [reflexivity|].
  cbn [flat_map]. rewrite flat_map_app, map_app, IH. reflexivity.
Qed.

(** A loop whose every round finishes and leaves its own trace. *)
Lemma for_each_trace {A} (body : A -> Step) (P : World -> Prop)
    (trace : A -> list Event) (xs : list A) :
  Forall (fun x => forall all_links w,
              P w -> exists all_links' w',
                body x all_links w = (all_links', w', None)
                /\ P w' /\ events w' = events w ++ trace x) xs ->
  forall all_links w,
    P w -> exists all_links' w',
      for_each xs body all_links w = (all_links', w', None)
      /\ P w' /\ events w' = events w ++ flat_map trace xs.
Proof.
  induction 1 as [|x xs Hx _ IH]; intros all_links w Hw; cbn.
  - exists all_links, w. rewrite app_nil_r. auto.
  - destruct (Hx all_links w Hw) as (l1 & w1 & -> & Hw1 & He1).
    destruct (IH l1 w1 Hw1) as (l2 & w2 & -> & Hw2 & He2).
    exists l2, w2. rewrite He2, He1, <- app_assoc. auto.
Qed.

(** When every item yields a URL, there are as many URLs as items. *)
Lemma urls_count {A} (f : A -> Res string) (P : A -> string -> Prop) (l : list A) :
  Forall (fun x => exists url, f x = Ok url /\ P x url) l ->
  length (flat_map (fun x => urls_of (f x)) l) = length l.
Proof.
  induction 1 as [|x l (url & Hurl & _) _ IH]; [reflexivity|].
  cbn [flat_map]. rewrite Hurl. cbn. rewrite IH. reflexivity.
Qed.

(** A first reply with status 200 and a body ends the loop at once. *)
Lemma retry_loop_answered (url : string) (budget : nat) (d : Z)
    (last : option string) (w : World) (html : Html) :
  upstream w (posts w) url = Response 200 "OK" (HttpResponseBody html) ->
  retry_loop url (S budget) d last w = ((Some html, None), (requests_post url w).2).
Proof.
  intros Hreply. cbn [retry_loop]. unfold requests_post. rewrite Hreply. reflexivity.
Qed.

Section Walk.
Context `{JsonLib}.
Variable site : string -> Html.

Lemma fetch_served (url : string) (w : World) :
  served site w ->
  exists w', fetch_html_with_zyte url w = ((Some (site url), None), w')
             /\ served site w' /\ events w' = events w ++ [EvPost url].
Proof.
  intros Hs. unfold fetch_html_with_zyte, fetch_html_with_zyte_opts.
  rewrite (retry_loop_answered url 4 1 None w (site url) (Hs _ _)).
  eexists. split; [reflexivity|]. split; [|reflexivity]. exact Hs.
Qed.

Lemma page_step_clean (base_url : string) (page_number : Z) (url : string) :
  update_url_with_page base_url page_number = Ok url ->
  clean_page site url ->
  forall all_links w,
    served site w -> exists all_links' w',
      page_step base_url page_number all_links w = (all_links', w', None)
      /\ served site w'
      /\ events w' = events w
                     ++ map EvPost (urls_of (update_url_with_page base_url page_number)).
Proof.
  intros Hurl Hclean all_links w Hw. unfold page_step. rewrite Hurl.
  destruct (fetch_served url w Hw) as (w' & -> & Hw' & He). cbn [truthy urls_of map].
  destruct Hclean as [Hempty|[links Hlinks]].
  - rewrite Hempty. eauto.
  - rewrite Hlinks. destruct (truthy_html (site url)); [|eauto].
    destruct (truthy_links links); eauto.
Qed.

Lemma scrape_all_pages_clean (zip_code base_url : string) (count : Json) (n : Z) :
  as_int count = Ok n ->
  clean_pages site base_url n ->
  forall w,
    served site w -> exists more w',
      scrape_all_pages zip_code base_url count w = (Ok more, w')
      /\ served site w'
      /\ events w' = events w ++ map EvPost (paging base_url n).
Proof.
  intros Hn Hclean w Hw. unfold scrape_all_pages. rewrite Hn.
  destruct (for_each_trace (page_step base_url) (served site)
              (fun p => map EvPost (urls_of (update_url_with_page base_url p)))
              (range 2 (n + 1))) with (all_links := @nil Json) (w := w)
    as (more & w' & -> & Hw' & He).
  - eapply Forall_impl; [exact Hclean|]. cbn.
    intros p (url & Hurl & Hpage). apply (page_step_clean _ _ url Hurl Hpage).
  - exact Hw.
  - exists more, w'. unfold paging. rewrite map_flat_map. auto.
Qed.

Lemma bed_step_clean (zip_code filtered_url : string) (beds : Z * option Z)
    (url : string) :
  update_url_with_beds filtered_url beds.1 beds.2 = Ok url ->
  clean_facet site url ->
  forall all_links w,
    served site w -> exists all_links' w',
      bed_step zip_code filtered_url beds all_links w = (all_links', w', None)
      /\ served site w'
      /\ events w' = events w ++ map EvPost (sub_query_requests site url).
Proof.
  intros Hurl (count & n & links & Hcount & Hn & Hlinks & Hpages) all_links w Hw.
  unfold bed_step. destruct beds as [min_beds max_beds]. cbn in Hurl. rewrite Hurl.
  destruct (fetch_served url w Hw) as (w1 & -> & Hw1 & He1).
  rewrite Hcount, Hlinks.
  destruct (scrape_all_pages_clean zip_code url count n Hn Hpages w1 Hw1)
    as (more & w2 & -> & Hw2 & He2).
  eexists _, w2. split; [reflexivity|]. split; [exact Hw2|].
  rewrite He2, He1, <- app_assoc. unfold sub_query_requests, pages_reported.
  rewrite Hcount, Hn. reflexivity.
Qed.

Lemma price_step_clean (zip_code base_url : string) (price : Z * option Z) :
  (exists filtered_url,
      update_url_with_price base_url price.1 price.2 = Ok filtered_url
      /\ Forall (fun beds : Z * option Z =>
                   exists url,
                     update_url_with_beds filtered_url beds.1 beds.2 = Ok url
                     /\ clean_facet site url)
                bed_filters) ->
  forall all_links w,
    served site w -> exists all_links' w',
      price_step zip_code base_url price all_links w = (all_links', w', None)
      /\ served site w'
      /\ events w' = events w
           ++ map EvPost
                (flat_map (sub_query_requests site)
                   (flat_map bed_urls
                      (urls_of (update_url_with_price base_url price.1 price.2))))
      /\ length (flat_map bed_urls
                   (urls_of (update_url_with_price base_url price.1 price.2)))
         = length bed_filters.
Proof.
  intros (filtered_url & Hurl & Hbeds) all_links w Hw.
  unfold price_step. destruct price as [min_price max_price].
  cbn [fst snd] in Hurl |- *. rewrite Hurl. cbn [urls_of flat_map].
  rewrite app_nil_r.
  assert (Hlist : bed_urls filtered_url
                  = flat_map (fun beds : Z * option Z =>
                                urls_of (update_url_with_beds filtered_url beds.1 beds.2))
                             bed_filters) by reflexivity.
  destruct (for_each_trace (bed_step zip_code filtered_url) (served site)
              (fun beds : Z * option Z =>
                 map EvPost
                   (flat_map (sub_query_requests site)
                      (urls_of (update_url_with_beds filtered_url beds.1 beds.2))))
              bed_filters) with (all_links := all_links) (w := w)
    as (l' & w' & -> & Hw' & He).
  - eapply Forall_impl; [exact Hbeds|]. cbn.
    intros beds (url & Hb & Hfacet) acc w0 Hw0.
    destruct (bed_step_clean zip_code filtered_url beds url Hb Hfacet acc w0 Hw0)
      as (a & w1 & Hrun & Hw1 & He1).
    exists a, w1. rewrite Hb. cbn [urls_of flat_map]. rewrite app_nil_r. auto.
  - exact Hw.
  - exists l', w'. split; [reflexivity|]. split; [exact Hw'|]. split.
    + rewrite He, Hlist, map_flat_flat_map. reflexivity.
    + rewrite Hlist. apply (urls_count _ _ _ Hbeds).
Qed.

Lemma paging_length (base_url : string) (n : Z) :
  clean_pages site base_url n -> length (paging base_url n) = Z.to_nat (n - 1).
Proof.
  unfold clean_pages, paging, range. intros Hclean.
  rewrite (urls_count _ _ _ Hclean), length_seqZ. f_equal. lia.
Qed.

Lemma facet_count (base_url : string) :
  clean_facets site base_url -> length (facet_urls base_url) = 42%nat.
Proof.
  unfold clean_facets, facet_urls. intros Hclean.
  change 42%nat with (length price_filters * length bed_filters)%nat.
  revert Hclean. generalize price_filters. intros prices Hclean.
  induction Hclean as [|price prices (filtered_url & Hurl & Hbeds) _ IH];
    [reflexivity|].
  cbn [flat_map length]. rewrite length_app, IH, Hurl. cbn [urls_of flat_map].
  rewrite app_nil_r. unfold bed_urls. rewrite (urls_count _ _ _ Hbeds). lia.
Qed.

(** The requests of a walk that nothing disturbs. *)
Lemma walk_requests (zip_code base_url : string) (w : World)
    (links : option (list Json)) (count : Json) (n : Z) :
  served site w ->
  truthy_html (site base_url) = true ->
  parse_properties (Some (site base_url)) = Ok links ->
  total_pages (Some (site base_url)) = Ok count ->
  as_int count = Ok n ->
  let run := scrape_properties_try zip_code base_url w in
  (n < 20 -> clean_pages site base_url n ->
   run.2 = None
   /\ events run.1.2 = events w ++ map EvPost (base_url :: paging base_url n)
   /\ length (paging base_url n) = Z.to_nat (n - 1))
  /\ (20 <= n -> clean_facets site base_url ->
      run.2 = None
      /\ events run.1.2
         = events w ++ map EvPost (base_url :: facet_requests site base_url)
      /\ length (facet_urls base_url) = 42%nat).
Proof.
  intros Hw Htruthy Hlinks Hcount Hn run. subst run.
  unfold scrape_properties_try.
  destruct (fetch_served base_url w Hw) as (w1 & -> & Hw1 & He1).
  cbn [truthy]. rewrite Htruthy. cbn [negb]. unfold walk.
  rewrite Hlinks, Hcount. unfold at_least. rewrite Hn. cbn [mbind Res_bind].
  split.
  - intros Hlt Hclean. rewrite (proj2 (Z.leb_gt 20 n) Hlt).
    destruct (scrape_all_pages_clean zip_code base_url count n Hn Hclean w1 Hw1)
      as (more & w2 & -> & Hw2 & He2).
    cbn [fst snd]. split; [reflexivity|].
    split; [|apply paging_length, Hclean].
    rewrite He2, He1, <- app_assoc. reflexivity.
  - intros Hge Hclean. rewrite (proj2 (Z.leb_le 20 n) Hge).
    match goal with |- context [for_each price_filters ?body ?acc w1] =>
      destruct (for_each_trace body (served site)
                  (fun price : Z * option Z =>
                     map EvPost
                       (flat_map (sub_query_requests site)
                          (flat_map bed_urls
                             (urls_of (update_url_with_price base_url price.1 price.2)))))
                  price_filters) with (all_links := acc) (w := w1)
        as (l' & w2 & -> & Hw2 & He2)
    end.
    + eapply Forall_impl; [exact Hclean|]. cbn. intros price Hprice acc w0 Hw0.
      destruct (price_step_clean zip_code base_url price Hprice acc w0 Hw0)
        as (a & w' & Hrun & Hw' & He & _).
      exists a, w'. auto.
    + exact Hw1.
    + cbn [fst snd]. split; [reflexivity|].
      split; [|apply facet_count, Hclean].
      rewrite He2, He1, <- app_assoc. unfold facet_requests, facet_urls.
      rewrite map_cons, map_flat_flat_map. reflexivity.
Qed.

(** Over an upstream that serves every request, for an area whose base
    page is not empty and yields its links and a page count [n]: when [n]
    is below 20 and pages 2 to [n] are clean, the walk requests the base
    URL and then pages 2 to [n] of it, in order, and nothing else; when
    [n] is 20 or more and every sub-query is clean, it requests the base
    URL and then, price band by price band and bedroom band by bedroom
    band, each of the 42 sub-queries followed by that sub-query's own
    pages 2 to the count it reports.  In both cases the walk ends without
    an exception. *)
Theorem scrape_properties_walk (zip_code base_url : string) (w : World)
    (links : option (list Json)) (count : Json) (n : Z) :
  served site w ->
  truthy_html (site base_url) = true ->
  parse_properties (Some (site base_url)) = Ok links ->
  total_pages (Some (site base_url)) = Ok count ->
  as_int count = Ok n ->
  let run := scrape_properties_try zip_code base_url w in
  (n < 20 -> clean_pages site base_url n ->
   run.2 = None
   /\ events run.1.2 = events w ++ map EvPost (base_url :: paging base_url n)
   /\ length (paging base_url n) = Z.to_nat (n - 1))
  /\ (20 <= n -> clean_facets site base_url ->
      run.2 = None
      /\ events run.1.2
         = events w ++ map EvPost (base_url :: facet_requests site base_url)
      /\ length (facet_urls base_url) = 42%nat).
Proof. exact (walk_requests zip_code base_url w links count n). Qed.

End Walk.

End DiscoverySpec.

(** * What failures do to the walk *)

Module DiscoveryFailures.
Import Zipwiseproperties Scraper Plan.

Lemma for_each_stops {A} (body : A -> Step) (x : A) (xs : list A)
    (all_links all_links' : list Json) (w w' : World) (e : PyExn) :
  body x all_links w = (all_links', w', Some e) ->
  for_each (x :: xs) body all_links w = (all_links', w', Some e).
Proof. intros Hbody. cbn [for_each]. rewrite Hbody. reflexivity. Qed.

(** A refusal ends the fetch at the first POST. *)
Lemma retry_loop_refused (url : string) (budget : nat) (d : Z)
    (last : option string) (w : World) (msg : string) :
  upstream w (posts w) url = RaiseOther msg ->
  retry_loop url (S budget) d last w = ((None, Some msg), (requests_post url w).2).
Proof.
  intros Hreply. cbn [retry_loop]. unfold requests_post. rewrite Hreply. reflexivity.
Qed.

Section Failures.
Context `{JsonLib}.

(** When the base page reports 20 pages or more and the fetch of the first
    sub-query returns no content, the walk ends there with a [TypeError]:
    it keeps the links of the base page, and the world is the one the
    failed fetch left, so no other sub-query is requested. *)
Theorem failed_sub_query_ends_walk (zip_code base_url : string) (w : World)
    (page : Html) (links : option (list Json)) (count : Json) (n : Z)
    (filtered_url url : string) :
  upstream w (posts w) base_url = Response 200 "OK" (HttpResponseBody page) ->
  truthy_html page = true ->
  parse_properties (Some page) = Ok links ->
  total_pages (Some page) = Ok count ->
  as_int count = Ok n ->
  20 <= n ->
  update_url_with_price base_url 0 (Some 300000) = Ok filtered_url ->
  update_url_with_beds filtered_url 0 (Some 0) = Ok url ->
  let w1 := (requests_post base_url w).2 in
  (fetch_html_with_zyte url w1).1.1 = None ->
  scrape_properties_try zip_code base_url w
  = (if truthy_links links then default [] links else [],
     (fetch_html_with_zyte url w1).2, Some TypeError).
Proof.
  intros Hbase Htruthy Hlinks Hcount Hn Hge Hprice Hbeds w1 Hnone.
  unfold scrape_properties_try, fetch_html_with_zyte at 1, fetch_html_with_zyte_opts.
  rewrite (DiscoverySpec.retry_loop_answered base_url 4 1 None w page Hbase). fold w1.
  cbn [truthy]. rewrite Htruthy. cbn [negb]. unfold walk.
  rewrite Hlinks, Hcount. unfold at_least. rewrite Hn. cbn [mbind Res_bind].
  rewrite (proj2 (Z.leb_le 20 n) Hge). rewrite app_nil_l.
  unfold price_filters. apply for_each_stops.
  unfold price_step. rewrite Hprice. unfold bed_filters. apply for_each_stops.
  unfold bed_step. rewrite Hbeds.
  destruct (fetch_html_with_zyte url w1) as [[html error] w2]. cbn in Hnone. subst html.
  reflexivity.
Qed.

Section Patchy.
Variable site : string -> option Html.
Variable refusal : string.

Lemma fetch_answers (url : string) (w : World) :
  answers site refusal w ->
  exists error w',
    fetch_html_with_zyte url w = ((site url, error), w')
    /\ answers site refusal w' /\ events w' = events w ++ [EvPost url].
Proof.
  intros Ha. unfold fetch_html_with_zyte, fetch_html_with_zyte_opts.
  pose proof (Ha (posts w) url) as Hreply.
  destruct (site url) as [html|].
  - rewrite (DiscoverySpec.retry_loop_answered url 4 1 None w html Hreply).
    eexists _, _. split; [reflexivity|]. split; [exact Ha | reflexivity].
  - rewrite (retry_loop_refused url 4 1 None w refusal Hreply).
    eexists _, _. split; [reflexivity|]. split; [exact Ha | reflexivity].
Qed.

Lemma page_step_patchy (base_url : string) (page_number : Z) (url : string) :
  update_url_with_page base_url page_number = Ok url ->
  readable site url ->
  forall all_links w,
    answers site refusal w -> exists w',
      page_step base_url page_number all_links w
      = (all_links ++ links_of site url, w', None)
      /\ answers site refusal w' /\ events w' = events w ++ [EvPost url].
Proof.
  intros Hurl Hread all_links w Hw. unfold page_step. rewrite Hurl.
  destruct (fetch_answers url w Hw) as (error & w' & -> & Hw' & He).
  exists w'. split; [|auto]. unfold readable in Hread. unfold links_of, truthy.
  destruct (site url) as [html|]; [|rewrite app_nil_r; reflexivity].
  destruct (truthy_html html); [|rewrite app_nil_r; reflexivity].
  destruct Hread as [Hf|[links Hlinks]]; [discriminate|]. rewrite Hlinks.
  destruct links as [[|link links]|]; cbn; rewrite ?app_nil_r; reflexivity.
Qed.

(** Over an upstream that refuses some pages and serves the others, with
    every served page readable, [scrape_all_pages] requests each of the
    pages 2 to [n] once, in order, and returns the links of the served
    pages in that order: a refused page costs its own links only. *)
Theorem scrape_all_pages_skips_refused (zip_code base_url : string)
    (count : Json) (n : Z) (w : World) :
  answers site refusal w ->
  as_int count = Ok n ->
  Forall (fun page_number =>
            exists url, update_url_with_page base_url page_number = Ok url
                        /\ readable site url)
         (range 2 (n + 1)) ->
  exists w',
    scrape_all_pages zip_code base_url count w
    = (Ok (flat_map (links_of site) (paging base_url n)), w')
    /\ events w' = events w ++ map EvPost (paging base_url n)
    /\ length (paging base_url n) = Z.to_nat (n - 1).
Proof.
  intros Hw Hn Hpages. unfold scrape_all_pages, paging. rewrite Hn.
  assert (Hlen : length (flat_map (fun p => urls_of (update_url_with_page base_url p))
                                  (range 2 (n + 1))) = Z.to_nat (n - 1)).
  { rewrite (DiscoverySpec.urls_count _ _ _ Hpages). unfold range.
    rewrite length_seqZ. f_equal. lia. }
  rewrite Hlen. clear Hlen.
  assert (Hloop : forall all_links w0,
             answers site refusal w0 -> exists w',
               for_each (range 2 (n + 1)) (page_step base_url) all_links w0
               = (all_links
                  ++ flat_map (links_of site)
                       (flat_map (fun p => urls_of (update_url_with_page base_url p))
                                 (range 2 (n + 1))), w', None)
               /\ events w' = events w0
                    ++ map EvPost
                         (flat_map (fun p => urls_of (update_url_with_page base_url p))
                                   (range 2 (n + 1)))).
  { induction Hpages as [|p ps (url & Hurl & Hread) _ IH]; intros all_links w0 Hw0.
    - exists w0. cbn. rewrite !app_nil_r. auto.
    - destruct (page_step_patchy base_url p url Hurl Hread all_links w0 Hw0)
        as (w1 & Hstep & Hw1 & He1).
      destruct (IH (all_links ++ links_of site url) w1 Hw1) as (w2 & Hrest & He2).
      exists w2. cbn [for_each flat_map]. rewrite Hstep, Hrest, Hurl.
      cbn [urls_of flat_map app]. rewrite He2, He1, <- !app_assoc. auto. }
  destruct (Hloop [] w Hw) as (w' & -> & He). exists w'. auto.
Qed.

End Patchy.

End Failures.

End DiscoveryFailures.

(** * The walk on two concrete sites *)

Module WalkRuns.
Import Zipwiseproperties Scraper Plan.

#[local] Existing Instance MiniJson.lib.

Ltac page_list :=
  match goal with
  | |- Forall _ ?l => let l' := eval vm_compute in l in change l with l'
  end.

Ltac clean_page_by_reading :=
  right; eexists; vm_compute; reflexivity.

Ltac clean_pages_by_reading :=
  unfold clean_pages; page_list;
  repeat (apply Forall_cons_2;
          [eexists; split; [vm_compute; reflexivity | clean_page_by_reading]|]);
  apply Forall_nil_2.

Ltac clean_facet_by_reading :=
  eexists _, _, _;
  split; [vm_compute; reflexivity|];
  split; [reflexivity|];
  split; [vm_compute; reflexivity|];
  clean_pages_by_reading.

Lemma small_site_pages : clean_pages Fixtures.small_site Fixtures.area_url 3.
Proof. clean_pages_by_reading. Qed.

Lemma large_site_facets : clean_facets Fixtures.large_site Fixtures.area_url.
Proof.
  unfold clean_facets, price_filters.
  repeat (apply Forall_cons_2;
          [eexists; split;
           [vm_compute; reflexivity
           | unfold bed_filters;
             repeat (apply Forall_cons_2;
                     [eexists; split; [vm_compute; reflexivity
                                      | clean_facet_by_reading]|]);
             apply Forall_nil_2]|]);
  apply Forall_nil_2.
Qed.

(** On the small site the walk pages directly; on the large one it makes
    the 42 sub-queries. *)
Lemma scrape_properties_walk_witness :
  (let run := scrape_properties_try "02118" Fixtures.area_url
                                    (Fixtures.serving Fixtures.small_site) in
   run.2 = None
   /\ events run.1.2
      = events (Fixtures.serving Fixtures.small_site)
        ++ map EvPost (Fixtures.area_url :: paging Fixtures.area_url 3)
   /\ length (paging Fixtures.area_url 3) = Z.to_nat (3 - 1))
  /\ (let run := scrape_properties_try "02118" Fixtures.area_url
                                       (Fixtures.serving Fixtures.large_site) in
      run.2 = None
      /\ events run.1.2
         = events (Fixtures.serving Fixtures.large_site)
           ++ map EvPost (Fixtures.area_url
                          :: facet_requests Fixtures.large_site Fixtures.area_url)
      /\ length (facet_urls Fixtures.area_url) = 42%nat).
Proof.
  split.
  - assert (Hs : served Fixtures.small_site (Fixtures.serving Fixtures.small_site))
      by (intros k url; reflexivity).
    assert (Hp : parse_properties (Some (Fixtures.small_site Fixtures.area_url))
                 = Ok (Some [JStr Fixtures.listing; JStr Fixtures.second_listing]))
      by (vm_compute; reflexivity).
    assert (Hc : total_pages (Some (Fixtures.small_site Fixtures.area_url)) = Ok (JNum 3))
      by (vm_compute; reflexivity).
    exact (proj1 (DiscoverySpec.scrape_properties_walk Fixtures.small_site "02118"
                    Fixtures.area_url (Fixtures.serving Fixtures.small_site) _ _ 3
                    Hs eq_refl Hp Hc eq_refl)
                 ltac:(lia) small_site_pages).
  - assert (Hs : served Fixtures.large_site (Fixtures.serving Fixtures.large_site))
      by (intros k url; reflexivity).
    assert (Hp : parse_properties (Some (Fixtures.large_site Fixtures.area_url))
                 = Ok (Some [JStr Fixtures.listing]))
      by (vm_compute; reflexivity).
    assert (Hc : total_pages (Some (Fixtures.large_site Fixtures.area_url)) = Ok (JNum 45))
      by (vm_compute; reflexivity).
    assert (Ht : truthy_html (Fixtures.large_site Fixtures.area_url) = true)
      by (vm_compute; reflexivity).
    exact (proj2 (DiscoverySpec.scrape_properties_walk Fixtures.large_site "02118"
                    Fixtures.area_url (Fixtures.serving Fixtures.large_site) _ _ 45
                    Hs Ht Hp Hc eq_refl)
                 ltac:(lia) large_site_facets).
Defined.

Lemma failed_sub_query_ends_walk_witness :
  exists url w',
    update_url_with_beds
      (match update_url_with_price Fixtures.area_url 0 (Some 300000) with
       | Ok filtered_url => filtered_url
       | Raise _ => EmptyString
       end) 0 (Some 0) = Ok url
    /\ scrape_properties_try "02118" Fixtures.area_url Fixtures.first_facet_refused
       = ([JStr Fixtures.listing], w', Some TypeError)
    /\ events w' = [EvPost Fixtures.area_url; EvPost url].
Proof.
  eexists _, _. split; [vm_compute; reflexivity|]. split.
  - eapply (DiscoveryFailures.failed_sub_query_ends_walk "02118" Fixtures.area_url
              Fixtures.first_facet_refused (Fixtures.search_page [Fixtures.listing] 20)
              (Some [JStr Fixtures.listing]) (JNum 20) 20).
    + reflexivity.
    + reflexivity.
    + vm_compute. reflexivity.
    + vm_compute. reflexivity.
    + reflexivity.
    + lia.
    + vm_compute. reflexivity.
    + vm_compute. reflexivity.
    + vm_compute. reflexivity.
  - vm_compute. reflexivity.
Defined.

Lemma scrape_all_pages_skips_refused_witness :
  exists w',
    scrape_all_pages "02118" Fixtures.area_url (JNum 4) Fixtures.patchy
    = (Ok (flat_map (links_of Fixtures.patchy_site) (paging Fixtures.area_url 4)), w')
    /\ events w' = events Fixtures.patchy ++ map EvPost (paging Fixtures.area_url 4)
    /\ length (paging Fixtures.area_url 4) = Z.to_nat (4 - 1).
Proof.
  apply (DiscoveryFailures.scrape_all_pages_skips_refused Fixtures.patchy_site
           "Connection aborted" "02118" Fixtures.area_url (JNum 4) 4 Fixtures.patchy).
  - intros k url. reflexivity.
  - reflexivity.
  - page_list.
    apply Forall_cons_2; [eexists; split; [vm_compute; reflexivity | exact I]|].
    apply Forall_cons_2;
      [eexists; split; [vm_compute; reflexivity
                       | right; eexists; vm_compute; reflexivity]|].
    apply Forall_cons_2;
      [eexists; split; [vm_compute; reflexivity
                       | right; eexists; vm_compute; reflexivity]|].
    apply Forall_nil_2.
Defined.

(** On that site the links of pages 3 and 4 come back and page 2 gives
    none. *)
Example patchy_run :
  (scrape_all_pages "02118" Fixtures.area_url (JNum 4) Fixtures.patchy).1
  = Ok [JStr (Fixtures.area_page 3); JStr (Fixtures.area_page 4)].
Proof. vm_compute. reflexivity. Qed.

End WalkRuns.

(** * The split at twenty pages, and a fetch that fails during the walk *)

Module SplitSpec.
Import Zipwiseproperties Scraper Plan.

Lemma price_bands_cover (price : Z) :
  0 <= price ->
  length (List.filter (fun band => in_band band price) price_filters) = 1%nat.
Proof.
  intros Hprice. unfold price_filters, in_band. cbn [List.filter fst snd].
  repeat (match goal with
          | |- context [?a <=? ?b] => destruct (Z.leb_spec a b)
          end; cbn [andb length]; try lia).
Qed.

Lemma bed_bands_cover (beds : Z) :
  0 <= beds ->
  length (List.filter (fun band => in_band band beds) bed_filters) = 1%nat.
Proof.
  intros Hbeds. unfold bed_filters, in_band. cbn [List.filter fst snd].
  repeat (match goal with
          | |- context [?a <=? ?b] => destruct (Z.leb_spec a b)
          end; cbn [andb length]; try lia).
Qed.

Section Split.
Context `{JsonLib}.
Variable site : string -> Html.


End Split.

#[local] Existing Instance MiniJson.lib.

Lemma nineteen_site_pages : clean_pages Fixtures.nineteen_site Fixtures.area_url 19.
Proof. WalkRuns.clean_pages_by_reading. Qed.

Lemma twenty_site_facets : clean_facets Fixtures.twenty_site Fixtures.area_url.
Proof.
  unfold clean_facets, price_filters.
  repeat (apply Forall_cons_2;
          [eexists; split;
           [vm_compute; reflexivity
           | unfold bed_filters;
             repeat (apply Forall_cons_2;
                     [eexists; split; [vm_compute; reflexivity
                                      | WalkRuns.clean_facet_by_reading]|]);
             apply Forall_nil_2]|]);
  apply Forall_nil_2.
Qed.



(** C5, where the code departs from it.  In a walk that pages directly a
    refused page costs its own links only: the next page is requested and
    its links are kept.  In a walk that splits, a refused sub-query ends
    the walk: [total_pages] is called on no page and raises [TypeError],
    the walk keeps the links of the base page, and none of the other 41
    sub-queries is requested. *)
Theorem refused_sub_query_ends_the_walk :
  let paged := scrape_properties_try "02118" Fixtures.area_url
                                     Fixtures.second_page_refused in
  let split := scrape_properties_try "02118" Fixtures.area_url
                                     Fixtures.first_facet_refused in
  (paged.2 = None
   /\ paged.1.1 = [JStr Fixtures.listing; JStr Fixtures.third_listing]
   /\ events paged.1.2
      = map EvPost [Fixtures.area_url; Fixtures.area_page 2; Fixtures.area_page 3])
  /\ (total_pages None = Raise TypeError
      /\ split.2 = Some TypeError
      /\ split.1.1 = [JStr Fixtures.listing]
      /\ length (facet_urls Fixtures.area_url) = 42%nat
      /\ events split.1.2
         = map EvPost (Fixtures.area_url :: take 1 (facet_urls Fixtures.area_url))).
Proof. vm_compute. repeat split. Qed.

End SplitSpec.

(** * More on the resilient fetch *)

Module FetchMore.
Import Zipwiseproperties Traces Replies.

(** One round of the loop: the POST, then either the verdict, or a sleep
    and one attempt less, or one attempt less at once. *)
Lemma retry_loop_step (url : string) (budget : nat) (d : Z)
    (last : option string) (w : World) :
  let reply := upstream w (posts w) url in
  let w1 := (requests_post url w).2 in
  retry_loop url (S budget) d last w =
  match verdict reply, retried_at_once reply with
  | Some result, _ => (result, w1)
  | None, Some msg => retry_loop url budget d (Some msg) w1
  | None, None =>
    retry_loop url budget (d * 2) (status_line reply) (time_sleep d w1)
  end.
Proof.
  cbn [retry_loop]. unfold requests_post. cbn [snd].
  destruct (upstream w (posts w) url) as [status reason body|msg|st msg|msg];
    cbn [verdict retried_at_once status_line].
  - destruct (is_retry_status status); [reflexivity|].
    destruct (http_error_message status reason); [reflexivity|].
    destruct body; reflexivity.
  - reflexivity.
  - reflexivity.
  - reflexivity.
Qed.

Lemma post_world (url : string) (w : World) :
  posts (requests_post url w).2 = S (posts w)
  /\ events (requests_post url w).2 = events w ++ [EvPost url]
  /\ upstream (requests_post url w).2 = upstream w.
Proof. repeat split. Qed.

Lemma sleep_world (d : Z) (w : World) :
  posts (time_sleep d w) = posts w
  /\ events (time_sleep d w) = events w ++ [EvSleep d]
  /\ upstream (time_sleep d w) = upstream w.
Proof. repeat split. Qed.

#[local] Opaque requests_post time_sleep.

Lemma retry_loop_trace (url : string) (budget : nat) :
  forall d last w,
    let w' := (retry_loop url budget d last w).2 in
    exists trace k,
      events w' = events w ++ trace
      /\ posts w' = (posts w + k)%nat
      /\ Forall (fun e => e = EvPost url \/ is_post e = false) trace
      /\ length (filter (fun e => is_post e = true) trace) = k
      /\ (k <= budget)%nat
      /\ ((0 < budget)%nat -> (0 < k)%nat).
Proof.
  induction budget as [|budget IH]; intros d last w.
  - exists [], 0%nat. cbn. rewrite app_nil_r, Nat.add_0_r.
    repeat split; try constructor; lia.
  - rewrite retry_loop_step. cbv zeta.
    destruct (post_world url w) as (Hp & He & _).
    destruct (verdict (upstream w (posts w) url)) as [result|].
    + exists [EvPost url], 1%nat. cbn [snd]. rewrite Hp, He.
      split; [reflexivity|]. split; [lia|]. split; [repeat constructor|].
      split; [reflexivity|]. lia.
    + destruct (retried_at_once (upstream w (posts w) url)) as [msg|].
      * destruct (IH d (Some msg) (requests_post url w).2)
          as (trace & k & Ht & Hk & Hall & Hcount & Hle & _).
        exists (EvPost url :: trace), (S k). rewrite Ht, He, <- app_assoc, Hk, Hp.
        split; [reflexivity|]. split; [lia|].
        split; [constructor; [left; reflexivity | exact Hall]|].
        split; [|lia].
        rewrite filter_cons_True by reflexivity. cbn [length]. rewrite Hcount.
        reflexivity.
      * destruct (sleep_world d (requests_post url w).2) as (Hsp & Hse & _).
        destruct (IH (d * 2) (status_line (upstream w (posts w) url))
                     (time_sleep d (requests_post url w).2))
          as (trace & k & Ht & Hk & Hall & Hcount & Hle & _).
        exists (EvPost url :: EvSleep d :: trace), (S k).
        rewrite Ht, Hse, He, <- !app_assoc, Hk, Hsp, Hp.
        split; [reflexivity|]. split; [lia|].
        split; [constructor; [left; reflexivity|];
                constructor; [right; reflexivity | exact Hall]|].
        split; [|lia].
        rewrite filter_cons_True by reflexivity.
        rewrite filter_cons_False by (cbn; discriminate).
        cbn [length]. rewrite Hcount. reflexivity.
Qed.

(** For any budget and initial delay, [fetch_html_with_zyte] never makes
    more POSTs than its budget, makes at least one when the budget is
    positive, sends every POST for the URL it was asked for, and does
    nothing but POST and sleep. *)
Theorem fetch_stays_within_budget (url : string) (max_retries : nat)
    (initial_retry_delay : Z) (w : World) :
  let w' := (fetch_html_with_zyte_opts url max_retries initial_retry_delay w).2 in
  exists trace,
    events w' = events w ++ trace
    /\ Forall (fun e => e = EvPost url \/ is_post e = false) trace
    /\ length (filter (fun e => is_post e = true) trace) = (posts w' - posts w)%nat
    /\ (posts w' <= posts w + max_retries)%nat
    /\ ((0 < max_retries)%nat -> (posts w < posts w')%nat).
Proof.
  destruct (retry_loop_trace url max_retries initial_retry_delay None w)
    as (trace & k & Ht & Hk & Hall & Hcount & Hle & Hpos).
  exists trace. unfold fetch_html_with_zyte_opts. cbv zeta.
  rewrite Hk. repeat split; try assumption; lia.
Qed.

Lemma retry_loop_result (url : string) (budget : nat) :
  forall d last w,
    let result := (retry_loop url budget d last w).1 in
    (exists html, result = (Some html, None))
    \/ (exists msg, result = (None, Some msg))
    \/ (budget = 0%nat /\ result = (None, last)).
Proof.
  induction budget as [|budget IH]; intros d last w; [right; right; auto|].
  rewrite retry_loop_step. cbv zeta.
  destruct (upstream w (posts w) url) as [status reason body|msg|st msg|msg];
    cbn [verdict retried_at_once status_line].
  - destruct (is_retry_status status).
    + destruct (IH (d * 2) (Some (pretty status +:+ ": " +:+ reason))
                   (time_sleep d (requests_post url w).2))
        as [?|[?|[_ ->]]]; eauto.
    + destruct (http_error_message status reason).
      * destruct (IH d (Some (request_error_message None s)) (requests_post url w).2)
          as [?|[?|[_ ->]]]; eauto.
      * destruct body as [html|m|m]; [cbn; eauto| |cbn; eauto].
        destruct (IH d (Some (request_error_message None m)) (requests_post url w).2)
          as [?|[?|[_ ->]]]; eauto.
  - destruct (IH d (Some ("Timeout: " +:+ msg)) (requests_post url w).2)
      as [?|[?|[_ ->]]]; eauto.
  - destruct (IH d (Some (request_error_message st msg)) (requests_post url w).2)
      as [?|[?|[_ ->]]]; eauto.
  - cbn. eauto.
Qed.

(** [fetch_html_with_zyte] returns a page with no error, or no page with
    an error message: never both, and never neither. *)
Theorem fetch_returns_page_or_message (url : string) (w : World) :
  (exists html, (fetch_html_with_zyte url w).1 = (Some html, None))
  \/ (exists msg, (fetch_html_with_zyte url w).1 = (None, Some msg)).
Proof.
  destruct (retry_loop_result url 5 1 None w) as [?|[?|[? _]]]; auto. discriminate.
Qed.

(** ** Rate-limited replies, then something else *)

Definition last_after (w : World) (url : string) (last : option string) (k : nat)
    : option string :=
  match k with
  | O => last
  | S m => status_line (upstream w (posts w + m)%nat url)
  end.

Lemma transient_not_settled (r : Reply) :
  transient_status r -> verdict r = None /\ retried_at_once r = None.
Proof.
  destruct r as [status reason body| | |]; cbn; try contradiction.
  intros ->. auto.
Qed.

#[local] Transparent requests_post time_sleep.

Lemma retry_loop_throttled (url : string) (k : nat) :
  forall budget d last w,
    (forall i, (i < k)%nat -> transient_status (upstream w (posts w + i)%nat url)) ->
    exists w',
      retry_loop url (k + budget) d last w
      = retry_loop url budget (d * 2 ^ Z.of_nat k) (last_after w url last k) w'
      /\ events w' = events w ++ backoff_trace url k d
      /\ posts w' = (posts w + k)%nat
      /\ upstream w' = upstream w.
Proof.
  induction k as [|k IH]; intros budget d last w Hall.
  - exists w. cbn. rewrite app_nil_r, Nat.add_0_r, Z.mul_1_r. auto.
  - cbn [Nat.add]. rewrite retry_loop_step. cbv zeta.
    pose proof (Hall 0%nat ltac:(lia)) as H0. rewrite Nat.add_0_r in H0.
    destruct (transient_not_settled _ H0) as [-> ->].
    destruct (IH budget (d * 2) (status_line (upstream w (posts w) url))
                 (time_sleep d (requests_post url w).2)) as (w' & Hrun & He & Hp & Hu).
    { intros i Hi. specialize (Hall (S i) ltac:(lia)).
      rewrite Nat.add_succ_r in Hall. exact Hall. }
    exists w'. rewrite Hrun. split.
    + f_equal.
      * rewrite Nat2Z.inj_succ, Z.pow_succ_r by lia. lia.
      * destruct k as [|m]; cbn [last_after].
        -- rewrite Nat.add_0_r. reflexivity.
        -- cbn. rewrite Nat.add_succ_r. reflexivity.
    + rewrite He, Hp, Hu. cbn. rewrite <- !app_assoc. repeat split. lia.
Qed.



(** ** The doubling delay, for any budget *)

Lemma backoff_trace_delays (url : string) (n : nat) :
  forall d k,
    backoff_trace url n (d * 2 ^ Z.of_nat k)
    = flat_map (fun delay => [EvPost url; EvSleep delay])
               (map (fun i => d * 2 ^ Z.of_nat i) (seq k n)).
Proof.
  induction n as [|n IH]; intros d k; [reflexivity|].
  cbn [backoff_trace seq map flat_map app]. f_equal. f_equal.
  rewrite <- (IH d (S k)). f_equal.
  rewrite Nat2Z.inj_succ, Z.pow_succ_r by lia. lia.
Qed.



(** ** Failures that are retried at once *)

Lemma retried_not_settled (r : Reply) (msg : string) :
  retried_at_once r = Some msg -> verdict r = None.
Proof.
  destruct r as [status reason body| | |]; cbn [verdict retried_at_once];
    try reflexivity; try discriminate.
  destruct (is_retry_status status); [reflexivity|].
  destruct (http_error_message status reason); [reflexivity|].
  destruct body; [discriminate | reflexivity | discriminate].
Qed.

Lemma retry_loop_at_once (url : string) (n : nat) :
  forall d last w,
    (forall i, (i < n)%nat ->
               is_Some (retried_at_once (upstream w (posts w + i)%nat url))) ->
    exists w',
      retry_loop url n d last w
      = ((None, match n with
                | O => last
                | S m => retried_at_once (upstream w (posts w + m)%nat url)
                end), w')
      /\ events w' = events w ++ repeat (EvPost url) n
      /\ posts w' = (posts w + n)%nat.
Proof.
  induction n as [|n IH]; intros d last w Hall.
  - exists w. cbn. rewrite app_nil_r, Nat.add_0_r. auto.
  - rewrite retry_loop_step. cbv zeta.
    pose proof (Hall 0%nat ltac:(lia)) as [msg H0]. rewrite Nat.add_0_r in H0.
    rewrite (retried_not_settled _ _ H0), H0.
    destruct (IH d (Some msg) (requests_post url w).2) as (w' & -> & He & Hp).
    { intros i Hi. specialize (Hall (S i) ltac:(lia)).
      rewrite Nat.add_succ_r in Hall. exact Hall. }
    exists w'. split.
    + f_equal. f_equal. destruct n as [|m].
      * rewrite Nat.add_0_r, H0. reflexivity.
      * cbn. rewrite Nat.add_succ_r. reflexivity.
    + rewrite He, Hp. cbn. rewrite <- app_assoc. split; [reflexivity|lia].
Qed.

(** When every reply is a timeout, a transport error or an HTTP error
    status other than 429, 503 and 520, the fetch uses its whole budget
    without sleeping once - the trace is the [n] POSTs - and returns no
    page and the message of the last failure. *)
Theorem fetch_retries_errors_at_once (url : string) (max_retries : nat)
    (initial_retry_delay : Z) (w : World) :
  (forall i, is_Some (retried_at_once (upstream w i url))) ->
  exists w',
    fetch_html_with_zyte_opts url max_retries initial_retry_delay w
    = ((None, match max_retries with
              | O => None
              | S m => retried_at_once (upstream w (posts w + m)%nat url)
              end), w')
    /\ events w' = events w ++ repeat (EvPost url) max_retries
    /\ posts w' = (posts w + max_retries)%nat.
Proof.
  intros Hall. apply retry_loop_at_once. intros i _. apply Hall.
Qed.

Lemma fetch_retries_errors_at_once_witness :
  exists w',
    fetch_html_with_zyte_opts Fixtures.listing 5 1 Fixtures.missing
    = ((None, retried_at_once (upstream Fixtures.missing
                                        (posts Fixtures.missing + 4)%nat
                                        Fixtures.listing)), w')
    /\ events w' = events Fixtures.missing ++ repeat (EvPost Fixtures.listing) 5
    /\ posts w' = (posts Fixtures.missing + 5)%nat.
Proof.
  apply (fetch_retries_errors_at_once Fixtures.listing 5 1 Fixtures.missing).
  intros i. eexists. reflexivity.
Defined.

(** The message kept for an HTTP error names no status of its own: the
    error's response is falsy, so the prefix is [No response]. *)
Example missing_message :
  (fetch_html_with_zyte Fixtures.listing Fixtures.missing).1
  = (None, Some ("No response: 404 Client Error: Not Found for url: "
                 +:+ "https://api.zyte.com/v1/extract")).
Proof. vm_compute. reflexivity. Qed.

End FetchMore.

(** * More on the search-state codec *)

Module CodecMore.
Import PyStr Urllib Zipwiseproperties States CodecSpec.

#[local] Arguments String.append !_ _ / : simpl nomatch.

(** ** Strings once more *)

(** A separator is found right after a text that has none of its first
    character. *)
Lemma find_sep_after_clean (c : ascii) (p y t : string) :
  has_char c y = false ->
  find_sep (String c p) (y +:+ String c p +:+ t) = Some (y, t).
Proof.
  induction y as [|b y IH]; intros Hy.
  - cbn. rewrite Ascii.eqb_refl, strip_prefix_self. reflexivity.
  - cbn in Hy. apply orb_false_iff in Hy as [Hb Hy].
    change (String b y +:+ String c p +:+ t) with (String b (y +:+ String c p +:+ t)).
    cbn [find_sep strip_prefix]. rewrite Hb, (IH Hy). reflexivity.
Qed.

(** What lies before the first separator of a URL stays before the first
    separator when a slash and a new tail follow it. *)
Lemma find_sep_prefix_kept (c : ascii) (p : string) (ch : ascii) :
  has_char ch (String c p) = false ->
  forall a1 s a2 b tail before t,
    find_sep (String c p) s = Some (a1 +:+ a2, b) ->
    find_sep (String c p) (String ch tail) = Some (before, t) ->
    find_sep (String c p) (a1 +:+ String ch tail) = Some (a1 +:+ before, t).
Proof.
  intros Hch. induction a1 as [|x a1 IH]; intros s a2 b tail before t Hf Htail.
  - exact Htail.
  - pose proof (find_sep_Some _ _ _ _ Hf) as Hs.
    destruct s as [|y s]; [discriminate|]. cbn in Hs. injection Hs as -> Hs.
    cbn [find_sep] in Hf.
    destruct (strip_prefix (String c p) (String x s)) as [rest|] eqn:E.
    { cbn in Hf. discriminate. }
    destruct (find_sep (String c p) s) as [[a' b']|] eqn:Es; [|discriminate].
    cbn in Hf. injection Hf as Ha' ->.
    change (String x a1 +:+ String ch tail) with (String x (a1 +:+ String ch tail)).
    cbn [find_sep].
    destruct (strip_prefix (String c p) (String x (a1 +:+ String ch tail)))
      as [r|] eqn:E2.
    + exfalso.
      destruct (strip_prefix_before (String c p) (String x a1) tail r ch Hch E2)
        as [r' Hr'].
      rewrite Hs in E.
      pose proof (strip_prefix_app _ _ _ (a2 +:+ String c p +:+ b) Hr') as Hx.
      cbn [String.append] in Hx. rewrite append_assoc in E. congruence.
    + rewrite (IH s a2 b tail before t) by (rewrite ?Es, ?Ha'; auto). reflexivity.
Qed.

Lemma rstrip_char_app (ch : ascii) (x y : string) :
  is_empty (rstrip_char ch y) = false ->
  rstrip_char ch (x +:+ y) = x +:+ rstrip_char ch y.
Proof.
  intros Hy. induction x as [|c x IH]; [reflexivity|].
  change (String c x +:+ y) with (String c (x +:+ y)).
  cbn [rstrip_char]. rewrite IH.
  replace (is_empty (x +:+ rstrip_char ch y)) with false; [reflexivity|].
  destruct x; cbn; [rewrite Hy|]; reflexivity.
Qed.

(** The decimal text of an integer is digits and at most a minus sign. *)
Lemma pretty_N_go_no_char (ch : ascii) (x : N) :
  (forall d, pretty_N_char d <> ch) ->
  forall s, has_char ch s = false -> has_char ch (pretty_N_go x s) = false.
Proof.
  intros Hdigit. induction (N.lt_wf_0 x) as [x _ IH]. intros s Hs.
  assert (x = 0 \/ 0 < x)%N as [->|Hpos] by lia.
  - rewrite pretty_N_go_0. exact Hs.
  - rewrite pretty_N_go_step by exact Hpos. apply IH.
    + apply N.div_lt; [exact Hpos|reflexivity].
    + cbn. rewrite Hs, orb_false_r. apply Ascii.eqb_neq. intros E.
      apply (Hdigit (x mod 10)%N). congruence.
Qed.

Lemma pretty_Z_no_question (n : Z) : has_char "?" (pretty n) = false.
Proof.
  assert (Hd : forall d, pretty_N_char d <> "?"%char).
  { intros d. unfold pretty_N_char. repeat case_match; discriminate. }
  assert (HN : forall x : N, has_char "?" (pretty x) = false).
  { intros x. unfold pretty, pretty_N. case_decide; [reflexivity|].
    apply pretty_N_go_no_char; [exact Hd | reflexivity]. }
  destruct n as [|q|q]; unfold pretty, pretty_Z.
  - reflexivity.
  - apply HN.
  - change (has_char "?" (String "-" (pretty q)) = false). cbn [has_char].
    apply orb_false_iff. split; [reflexivity | apply (HN (Npos q))].
Qed.

Section Mutators.
Context `{JsonLib}.

(** The URL a mutator writes decodes to the state it encoded, under the
    base part it read. *)
Lemma rebuilt_url_decodes (base_url base_part : string) (S S' : Json) :
  split_url base_url = Ok (base_part, S) ->
  json_loads (json_dumps S') = Ok S' ->
  split_url (base_part +:+ "/?searchQueryState=" +:+ quote (json_dumps S'))
  = Ok (base_part, S').
Proof.
  intros Hsplit Hround.
  destruct (rebuilt_url_parts base_url base_part S (json_dumps S') Hsplit)
    as [Hparts Hbase].
  unfold split_url. rewrite Hparts, unquote_quote, Hround.
  cbn [mbind Res_bind]. rewrite Hbase. reflexivity.
Qed.

Lemma filter_of_dict (d f : list (string * Json)) (key : string) :
  PyDict.lookup "filterState" d = Some (JObj f) ->
  filter_of (JObj d) key = getitem (JObj f) key.
Proof. intros Hf. unfold filter_of. cbn. rewrite Hf. reflexivity. Qed.

(** For a URL that decodes to a state with a dictionary of filters,
    [update_url_with_beds] returns a URL that decodes to a state whose
    beds filter is the given bounds and whose every other filter and
    every other top-level field is as it was, under the same base part. *)
Theorem update_url_with_beds_frame (base_url base_part : string) (S : Json)
    (filters : list (string * Json)) (min_beds : Z) (max_beds : option Z) :
  split_url base_url = Ok (base_part, S) ->
  getitem S "filterState" = Ok (JObj filters) ->
  (forall S', setitem2 S "filterState" "beds" (min_max min_beds max_beds) = Ok S' ->
              json_loads (json_dumps S') = Ok S') ->
  exists url' S',
    update_url_with_beds base_url min_beds max_beds = Ok url'
    /\ split_url url' = Ok (base_part, S')
    /\ filter_of S' "beds" = Ok (min_max min_beds max_beds)
    /\ (forall key, key <> "beds" -> filter_of S' key = filter_of S key)
    /\ (forall key, key <> "filterState" -> getitem S' key = getitem S key).
Proof.
  intros Hsplit Hfilters Hround.
  destruct S as [| | | | |d]; try discriminate.
  cbn in Hfilters.
  destruct (PyDict.lookup "filterState" d) as [fs|] eqn:Hd; [|discriminate].
  injection Hfilters as ->.
  set (f1 := PyDict.store "beds" (min_max min_beds max_beds) filters).
  set (d1 := PyDict.store "filterState" (JObj f1) d).
  assert (H1 : setitem2 (JObj d) "filterState" "beds" (min_max min_beds max_beds)
               = Ok (JObj d1))
    by apply (setitem2_dict d filters _ _ _ Hd).
  specialize (Hround _ H1).
  exists (base_part +:+ "/?searchQueryState=" +:+ quote (json_dumps (JObj d1))), (JObj d1).
  split.
  { unfold update_url_with_beds. rewrite Hsplit.
    cbn -[setitem2 quote String.append min_max]. rewrite H1. reflexivity. }
  split; [exact (rebuilt_url_decodes base_url base_part (JObj d) (JObj d1) Hsplit Hround)|].
  assert (Hfs : PyDict.lookup "filterState" d1 = Some (JObj f1)) by apply lookup_store_eq.
  split.
  { rewrite (filter_of_dict d1 f1 _ Hfs). cbn. unfold f1.
    rewrite lookup_store_eq. reflexivity. }
  split.
  - intros key Hk. rewrite (filter_of_dict d1 f1 _ Hfs), (filter_of_dict d filters _ Hd).
    cbn. unfold f1. rewrite lookup_store_ne by congruence. reflexivity.
  - intros key Hk. cbn. unfold d1. rewrite lookup_store_ne by congruence. reflexivity.
Qed.

(** A sub-query URL, built from the area's URL by the price mutator and
    then the beds mutator, decodes to the area's state with the price, the
    monthly payment and the beds filters written and nothing else changed. *)
Theorem facet_url_state (base_url base_part : string) (S : Json)
    (filters : list (string * Json)) (price beds : Z * option Z) :
  split_url base_url = Ok (base_part, S) ->
  getitem S "filterState" = Ok (JObj filters) ->
  (forall S1, priced S price.1 price.2 = Ok S1 ->
              json_loads (json_dumps S1) = Ok S1) ->
  (forall S1 S2, priced S price.1 price.2 = Ok S1 ->
                 setitem2 S1 "filterState" "beds" (min_max beds.1 beds.2) = Ok S2 ->
                 json_loads (json_dumps S2) = Ok S2) ->
  exists filtered_url url S',
    update_url_with_price base_url price.1 price.2 = Ok filtered_url
    /\ update_url_with_beds filtered_url beds.1 beds.2 = Ok url
    /\ split_url url = Ok (base_part, S')
    /\ filter_of S' "price" = Ok (min_max price.1 price.2)
    /\ filter_of S' "mp" = Ok (min_max 0 None)
    /\ filter_of S' "beds" = Ok (min_max beds.1 beds.2)
    /\ (forall key, key <> "price" -> key <> "mp" -> key <> "beds" ->
                    filter_of S' key = filter_of S key)
    /\ (forall key, key <> "filterState" -> getitem S' key = getitem S key).
Proof.
  intros Hsplit Hfilters Hround1 Hround2.
  destruct S as [| | | | |d]; try discriminate.
  cbn in Hfilters.
  destruct (PyDict.lookup "filterState" d) as [fs|] eqn:Hd; [|discriminate].
  injection Hfilters as ->.
  set (f1 := PyDict.store "price" (min_max price.1 price.2) filters).
  set (d1 := PyDict.store "filterState" (JObj f1) d).
  set (f2 := PyDict.store "mp" (min_max 0 None) f1).
  set (d2 := PyDict.store "filterState" (JObj f2) d1).
  set (f3 := PyDict.store "beds" (min_max beds.1 beds.2) f2).
  set (d3 := PyDict.store "filterState" (JObj f3) d2).
  assert (H1 : setitem2 (JObj d) "filterState" "price" (min_max price.1 price.2)
               = Ok (JObj d1))
    by apply (setitem2_dict d filters _ _ _ Hd).
  assert (H2 : setitem2 (JObj d1) "filterState" "mp" (min_max 0 None) = Ok (JObj d2))
    by (apply setitem2_dict, lookup_store_eq).
  assert (H3 : setitem2 (JObj d2) "filterState" "beds" (min_max beds.1 beds.2)
               = Ok (JObj d3))
    by (apply setitem2_dict, lookup_store_eq).
  assert (Hpriced : priced (JObj d) price.1 price.2 = Ok (JObj d2)).
  { unfold priced. rewrite H1. cbn -[setitem2]. exact H2. }
  specialize (Hround1 _ Hpriced). specialize (Hround2 _ _ Hpriced H3).
  set (filtered_url := base_part +:+ "/?searchQueryState=" +:+ quote (json_dumps (JObj d2))).
  assert (Hprice : update_url_with_price base_url price.1 price.2 = Ok filtered_url).
  { unfold update_url_with_price, update_url_with_price_mp. rewrite Hsplit.
    cbn -[setitem2 quote String.append min_max]. rewrite H1.
    cbn -[setitem2 quote String.append min_max]. rewrite H2. reflexivity. }
  assert (Hsplit2 : split_url filtered_url = Ok (base_part, JObj d2))
    by exact (rebuilt_url_decodes base_url base_part (JObj d) (JObj d2) Hsplit Hround1).
  exists filtered_url,
         (base_part +:+ "/?searchQueryState=" +:+ quote (json_dumps (JObj d3))), (JObj d3).
  split; [exact Hprice|]. split.
  { unfold update_url_with_beds. rewrite Hsplit2.
    cbn -[setitem2 quote String.append min_max]. rewrite H3. reflexivity. }
  split; [exact (rebuilt_url_decodes filtered_url base_part (JObj d2) (JObj d3)
                                     Hsplit2 Hround2)|].
  assert (Hfs : PyDict.lookup "filterState" d3 = Some (JObj f3)) by apply lookup_store_eq.
  rewrite !(filter_of_dict d3 f3 _ Hfs). cbn [getitem].
  split. { unfold f3, f2, f1. rewrite !lookup_store_ne by discriminate.
           rewrite lookup_store_eq. reflexivity. }
  split. { unfold f3, f2. rewrite lookup_store_ne by discriminate.
           rewrite lookup_store_eq. reflexivity. }
  split. { unfold f3. rewrite lookup_store_eq. reflexivity. }
  split.
  - intros key Hp Hm Hb. rewrite (filter_of_dict d3 f3 _ Hfs), (filter_of_dict d filters _ Hd).
    cbn. unfold f3, f2, f1. rewrite !lookup_store_ne by congruence. reflexivity.
  - intros key Hk. unfold d3, d2, d1. rewrite !lookup_store_ne by congruence. reflexivity.
Qed.

(** The URL of a page, as [update_url_with_page] writes it: the state is
    the input's with [pagination] set to the page and every other field
    kept, and the page number becomes a segment of the base part, so the
    URL it returns is not one to page again. *)
Theorem update_url_with_page_state (base_url base_part : string)
    (fields : list (string * Json)) (page_number : Z) :
  split_url base_url = Ok (base_part, JObj fields) ->
  (forall S', setitem (JObj fields) "pagination"
                      (JObj [("currentPage", JNum page_number)]) = Ok S' ->
              json_loads (json_dumps S') = Ok S') ->
  exists url' S',
    update_url_with_page base_url page_number = Ok url'
    /\ split_url url' = Ok (base_part +:+ "/" +:+ pretty page_number +:+ "_p", S')
    /\ getitem S' "pagination" = Ok (JObj [("currentPage", JNum page_number)])
    /\ (forall key, key <> "pagination" -> getitem S' key = getitem (JObj fields) key).
Proof.
  intros Hsplit Hround.
  set (d1 := PyDict.store "pagination" (JObj [("currentPage", JNum page_number)]) fields).
  specialize (Hround (JObj d1) eq_refl).
  set (enc := quote (json_dumps (JObj d1))).
  exists (base_part +:+ "/" +:+ pretty page_number +:+ "_p/?searchQueryState=" +:+ enc),
         (JObj d1).
  split. { unfold update_url_with_page. rewrite Hsplit. reflexivity. }
  split.
  { pose proof Hsplit as Hparts. unfold split_url in Hparts.
    destruct (split separator base_url) as [|part0 [|part1 more]] eqn:Eparts;
      try discriminate.
    destruct (json_loads (unquote part1)) as [state|]; [|discriminate].
    cbn in Hparts. injection Hparts as Hbase _.
    destruct (split_first _ _ _ _ _ Eparts) as [rest Hfind].
    destruct (rstrip_char_prefix "/" part0) as [t Ht]. rewrite Hbase in Ht.
    assert (Hfind' : find_sep separator base_url = Some (base_part +:+ t, rest))
      by (rewrite <- Ht; exact Hfind).
    assert (Htail : find_sep separator
                      (String "/" (pretty page_number +:+ "_p/" +:+ separator +:+ enc))
                    = Some (String "/" (pretty page_number +:+ "_p/"), enc)).
    { change (String "/" (pretty page_number +:+ "_p/" +:+ separator +:+ enc))
        with (("/" +:+ pretty page_number) +:+ "_p/" +:+ separator +:+ enc).
      rewrite <- (append_assoc ("/" +:+ pretty page_number) "_p/" (separator +:+ enc)).
      apply (find_sep_after_clean "?" "searchQueryState=").
      cbn [String.append has_char].
      rewrite ?has_char_app, pretty_Z_no_question. reflexivity. }
    assert (Hurl : base_part +:+ "/" +:+ pretty page_number
                   +:+ "_p/?searchQueryState=" +:+ enc
                   = base_part
                     +:+ String "/" (pretty page_number +:+ "_p/" +:+ separator +:+ enc)).
    { reflexivity. }
    rewrite Hurl.
    pose proof (find_sep_prefix_kept "?" "searchQueryState=" "/" eq_refl
                  base_part base_url t rest _ _ _ Hfind' Htail) as Hcut.
    assert (Habsent : find_sep separator enc = None)
      by exact (find_sep_absent "?" "searchQueryState=" enc (quote_no_question _)).
    assert (Hparts : split separator
                       (base_part
                        +:+ String "/" (pretty page_number +:+ "_p/" +:+ separator +:+ enc))
                     = [base_part +:+ String "/" (pretty page_number +:+ "_p/"); enc])
      by exact (split_two separator _ _ _ Hcut Habsent).
    unfold split_url. rewrite Hparts.
    unfold enc. rewrite unquote_quote, Hround. cbn [mbind Res_bind]. f_equal. f_equal.
    change (String "/" (pretty page_number +:+ "_p/"))
      with ("/" +:+ (pretty page_number +:+ ("_p" +:+ "/"))).
    rewrite <- !append_assoc. rewrite rstrip_char_snoc.
    rewrite rstrip_char_app by reflexivity. rewrite !append_assoc. reflexivity. }
  split.
  - cbn. unfold d1. rewrite lookup_store_eq. reflexivity.
  - intros key Hk. cbn. unfold d1. rewrite lookup_store_ne by congruence. reflexivity.
Qed.

End Mutators.

#[local] Existing Instance MiniJson.lib.

Lemma update_url_with_beds_frame_witness :
  exists url' S',
    update_url_with_beds Fixtures.budget_url 2 (Some 2) = Ok url'
    /\ split_url url' = Ok ("https://www.zillow.com/homes/02118_rb", S')
    /\ filter_of S' "beds" = Ok (min_max 2 (Some 2))
    /\ (forall key, key <> "beds" ->
                    filter_of S' key = filter_of Fixtures.budget_state key)
    /\ (forall key, key <> "filterState" ->
                    getitem S' key = getitem Fixtures.budget_state key).
Proof.
  apply (update_url_with_beds_frame Fixtures.budget_url
           "https://www.zillow.com/homes/02118_rb" Fixtures.budget_state
           [("sort", JObj [("value", JStr "globalrelevanceex")]);
            ("mp", JObj [("min", JNum 500); ("max", JNum 2000)])] 2 (Some 2)).
  - vm_compute. reflexivity.
  - reflexivity.
  - intros S' HS'. vm_compute in HS'. injection HS' as <-. vm_compute. reflexivity.
Defined.

Lemma facet_url_state_witness :
  exists filtered_url url S',
    update_url_with_price Fixtures.area_url 800001 None = Ok filtered_url
    /\ update_url_with_beds filtered_url 5 None = Ok url
    /\ split_url url = Ok ("https://www.zillow.com/homes/02118_rb", S')
    /\ filter_of S' "price" = Ok (min_max 800001 None)
    /\ filter_of S' "mp" = Ok (min_max 0 None)
    /\ filter_of S' "beds" = Ok (min_max 5 None)
    /\ (forall key, key <> "price" -> key <> "mp" -> key <> "beds" ->
                    filter_of S' key = filter_of Fixtures.area_state key)
    /\ (forall key, key <> "filterState" ->
                    getitem S' key = getitem Fixtures.area_state key).
Proof.
  apply (facet_url_state Fixtures.area_url "https://www.zillow.com/homes/02118_rb"
           Fixtures.area_state
           [("sort", JObj [("value", JStr "globalrelevanceex")]);
            ("mf", JObj [("value", JBool false)]);
            ("land", JObj [("value", JBool false)])] (800001, None) (5, None)).
  - vm_compute. reflexivity.
  - reflexivity.
  - intros S1 HS1. vm_compute in HS1. injection HS1 as <-. vm_compute. reflexivity.
  - intros S1 S2 HS1 HS2. vm_compute in HS1. injection HS1 as <-.
    vm_compute in HS2. injection HS2 as <-. vm_compute. reflexivity.
Defined.

Lemma update_url_with_page_state_witness :
  exists url' S',
    update_url_with_page Fixtures.area_url 7 = Ok url'
    /\ split_url url' = Ok ("https://www.zillow.com/homes/02118_rb" +:+ "/"
                            +:+ pretty 7 +:+ "_p", S')
    /\ getitem S' "pagination" = Ok (JObj [("currentPage", JNum 7)])
    /\ (forall key, key <> "pagination" ->
                    getitem S' key = getitem Fixtures.area_state key).
Proof.
  apply (update_url_with_page_state Fixtures.area_url
           "https://www.zillow.com/homes/02118_rb"
           [("pagination", JObj []);
            ("isListVisible", JBool true);
            ("mapZoom", JNum 15);
            ("filterState", JObj [("sort", JObj [("value", JStr "globalrelevanceex")]);
                                  ("mf", JObj [("value", JBool false)]);
                                  ("land", JObj [("value", JBool false)])]);
            ("ah", JObj [("value", JBool true)])] 7).
  - vm_compute. reflexivity.
  - intros S' HS'. vm_compute in HS'. injection HS' as <-. vm_compute. reflexivity.
Defined.

End CodecMore.

(** * The query state of a zip code page

    [parse_queryState] and [parse_soldQueryState] read the query state the
    site embeds in a zip code's page and rewrite it into the state the
    search URLs carry. *)

Module NormalizeSpec.
Import Zipwiseproperties States CodecSpec.

Lemma store_store (k : string) (v v' : Json) (d : list (string * Json)) :
  PyDict.store k v (PyDict.store k v' d) = PyDict.store k v d.
Proof.
  induction d as [|[k' w] d IH]; cbn.
  - rewrite String.eqb_refl. reflexivity.
  - destruct (String.eqb_spec k k') as [->|Hne]; cbn.
    + rewrite String.eqb_refl. reflexivity.
    + rewrite (proj2 (String.eqb_neq k k') Hne), IH. reflexivity.
Qed.

Lemma store_same (k : string) (v : Json) (d : list (string * Json)) :
  PyDict.lookup k d = Some v -> PyDict.store k v d = d.
Proof.
  induction d as [|[k' w] d IH]; cbn; [discriminate|].
  destruct (String.eqb_spec k k') as [->|Hne].
  - intros [= ->]. reflexivity.
  - intros Hd. rewrite (IH Hd). reflexivity.
Qed.

Lemma lookup_absent (k : string) (d : list (string * Json)) :
  k ∉ d.*1 -> PyDict.lookup k d = None.
Proof.
  induction d as [|[k' w] d IH]; cbn; [reflexivity|].
  intros Hk. apply not_elem_of_cons in Hk as [Hne Hk].
  rewrite (proj2 (String.eqb_neq k k') Hne). exact (IH Hk).
Qed.

Lemma lookup_remove_eq (k : string) (d : list (string * Json)) :
  NoDup d.*1 -> PyDict.lookup k (PyDict.remove k d) = None.
Proof.
  induction d as [|[k' w] d IH]; cbn; [reflexivity|].
  intros Hd. apply NoDup_cons in Hd as [Hk Hd].
  destruct (String.eqb_spec k k') as [->|Hne]; cbn.
  - exact (lookup_absent _ _ Hk).
  - rewrite (proj2 (String.eqb_neq k k') Hne). exact (IH Hd).
Qed.

Lemma lookup_remove_ne (k k' : string) (d : list (string * Json)) :
  k <> k' -> PyDict.lookup k' (PyDict.remove k d) = PyDict.lookup k' d.
Proof.
  intros Hne. induction d as [|[k0 w] d IH]; cbn; [reflexivity|].
  destruct (String.eqb_spec k k0) as [->|Hk]; cbn.
  - rewrite (proj2 (String.eqb_neq k' k0)) by congruence. reflexivity.
  - rewrite IH. reflexivity.
Qed.

Lemma keys_store (k x : string) (v : Json) (d : list (string * Json)) :
  x ∈ (PyDict.store k v d).*1 -> x = k \/ x ∈ d.*1.
Proof.
  induction d as [|[k0 w] d IH]; cbn.
  - intros Hx. apply list_elem_of_singleton in Hx. left. exact Hx.
  - destruct (String.eqb_spec k k0) as [->|Hk]; cbn.
    + intros Hx. right. exact Hx.
    + intros Hx. apply elem_of_cons in Hx as [->|Hx].
      * right. apply list_elem_of_here.
      * destruct (IH Hx) as [->|Hd]; [left; reflexivity|].
        right. apply list_elem_of_further. exact Hd.
Qed.

Lemma keys_remove (k x : string) (d : list (string * Json)) :
  x ∈ (PyDict.remove k d).*1 -> x ∈ d.*1.
Proof.
  induction d as [|[k0 w] d IH]; cbn; [trivial|].
  destruct (String.eqb_spec k k0) as [->|Hk]; cbn.
  - intros Hx. apply list_elem_of_further. exact Hx.
  - intros Hx. apply elem_of_cons in Hx as [->|Hx].
    + apply list_elem_of_here.
    + apply list_elem_of_further. exact (IH Hx).
Qed.

Lemma NoDup_store (k : string) (v : Json) (d : list (string * Json)) :
  NoDup d.*1 -> NoDup (PyDict.store k v d).*1.
Proof.
  induction d as [|[k0 w] d IH]; cbn.
  - intros _. apply NoDup_singleton.
  - intros Hd. apply NoDup_cons in Hd as [Hk0 Hd].
    destruct (String.eqb_spec k k0) as [->|Hk]; cbn.
    + apply NoDup_cons. split; assumption.
    + apply NoDup_cons. split; [|exact (IH Hd)].
      intros Hx. destruct (keys_store _ _ _ _ Hx) as [->|Hx']; [congruence|].
      exact (Hk0 Hx').
Qed.

Lemma NoDup_remove (k : string) (d : list (string * Json)) :
  NoDup d.*1 -> NoDup (PyDict.remove k d).*1.
Proof.
  induction d as [|[k0 w] d IH]; cbn; [trivial|].
  intros Hd. apply NoDup_cons in Hd as [Hk0 Hd].
  destruct (String.eqb_spec k k0) as [->|Hk]; cbn; [exact Hd|].
  apply NoDup_cons. split; [|exact (IH Hd)].
  intros Hx. exact (Hk0 (keys_remove _ _ _ Hx)).
Qed.

(** ** A run of assignments *)

Lemma NoDup_assigned (filters d : list (string * Json)) :
  NoDup d.*1 -> NoDup (assigned filters d).*1.
Proof.
  revert d. induction filters as [|[k v] filters IH]; intros d Hd; cbn; [exact Hd|].
  apply IH, NoDup_store, Hd.
Qed.

Lemma lookup_assigned_out (key : string) (filters d : list (string * Json)) :
  key ∉ filters.*1 -> PyDict.lookup key (assigned filters d) = PyDict.lookup key d.
Proof.
  revert d. induction filters as [|[k v] filters IH]; intros d Hk; cbn; [reflexivity|].
  cbn in Hk. apply not_elem_of_cons in Hk as [Hne Hk].
  rewrite (IH _ Hk). apply lookup_store_ne. congruence.
Qed.

Lemma lookup_assigned_in (key : string) (value : Json) (filters d : list (string * Json)) :
  NoDup filters.*1 -> (key, value) ∈ filters ->
  PyDict.lookup key (assigned filters d) = Some value.
Proof.
  revert d. induction filters as [|[k v] filters IH]; intros d Hnd Hin; cbn.
  - apply elem_of_nil in Hin. contradiction.
  - cbn in Hnd. apply NoDup_cons in Hnd as [Hk Hnd].
    apply elem_of_cons in Hin as [[= -> ->]|Hin].
    + rewrite (lookup_assigned_out _ _ _ Hk). apply lookup_store_eq.
    + exact (IH _ Hnd Hin).
Qed.

Lemma set_filters_dict (filters qs fs : list (string * Json)) :
  PyDict.lookup "filterState" qs = Some (JObj fs) ->
  set_filters (JObj qs) filters
  = Ok (JObj (PyDict.store "filterState" (JObj (assigned filters fs)) qs)).
Proof.
  revert qs fs. induction filters as [|[k v] filters IH]; intros qs fs Hf.
  - cbn. rewrite (store_same _ _ _ Hf). reflexivity.
  - cbn [set_filters]. rewrite (setitem2_dict _ _ _ _ _ Hf). cbn [mbind Res_bind].
    rewrite (IH _ (PyDict.store k v fs)) by apply lookup_store_eq.
    rewrite store_store. reflexivity.
Qed.

(** ** The two renames *)

Lemma py_in_dict (key : string) (d : list (string * Json)) :
  py_in key (JObj d)
  = Ok (match PyDict.lookup key d with Some _ => true | None => false end).
Proof.
  cbn. destruct (PyDict.lookup key d) as [v|].
  - rewrite bool_decide_eq_true_2 by (exists v; reflexivity). reflexivity.
  - rewrite bool_decide_eq_false_2 by (intros [v Hv]; discriminate). reflexivity.
Qed.

Lemma normalize_filters_dict (qs fs : list (string * Json)) :
  PyDict.lookup "filterState" qs = Some (JObj fs) ->
  normalize_filters (JObj qs)
  = Ok (JObj (PyDict.store "filterState" (JObj (renamed fs)) qs)).
Proof.
  intros Hf. unfold normalize_filters, renamed. cbn [getitem]. rewrite Hf.
  cbn [mbind Res_bind]. rewrite py_in_dict. cbn [mbind Res_bind].
  destruct (PyDict.lookup "isAllHomes" fs) as [a|] eqn:Ha.
  - cbn [delitem]. rewrite Ha. cbn [mbind Res_bind]. rewrite py_in_dict.
    cbn [mbind Res_bind].
    destruct (PyDict.lookup "sortSelection" (PyDict.remove "isAllHomes" fs)) as [s|] eqn:Hs.
    + cbn [pop]. rewrite Hs. reflexivity.
    + reflexivity.
  - cbn [mbind Res_bind]. rewrite py_in_dict. cbn [mbind Res_bind].
    destruct (PyDict.lookup "sortSelection" fs) as [s|] eqn:Hs.
    + cbn [pop]. rewrite Hs. reflexivity.
    + reflexivity.
Qed.

Lemma renamed_first (d : list (string * Json)) :
  exists d1,
    (forall key, key <> "isAllHomes" -> PyDict.lookup key d1 = PyDict.lookup key d)
    /\ (NoDup d.*1 -> PyDict.lookup "isAllHomes" d1 = None /\ NoDup d1.*1)
    /\ renamed d = match PyDict.lookup "sortSelection" d1 with
                   | Some v => PyDict.store "sort" v (PyDict.remove "sortSelection" d1)
                   | None => d1
                   end.
Proof.
  unfold renamed. destruct (PyDict.lookup "isAllHomes" d) as [a|] eqn:Ha.
  - exists (PyDict.remove "isAllHomes" d). split; [|split].
    + intros key Hk. apply lookup_remove_ne. congruence.
    + intros Hd. split; [apply lookup_remove_eq, Hd | apply NoDup_remove, Hd].
    + reflexivity.
  - exists d. split; [|split].
    + reflexivity.
    + intros Hd. split; [exact Ha | exact Hd].
    + reflexivity.
Qed.

Lemma lookup_renamed (d : list (string * Json)) :
  NoDup d.*1 ->
  PyDict.lookup "isAllHomes" (renamed d) = None
  /\ PyDict.lookup "sortSelection" (renamed d) = None
  /\ PyDict.lookup "sort" (renamed d)
     = match PyDict.lookup "sortSelection" d with
       | Some v => Some v
       | None => PyDict.lookup "sort" d
       end
  /\ (forall key, key ∉ ["isAllHomes"; "sortSelection"; "sort"] ->
                  PyDict.lookup key (renamed d) = PyDict.lookup key d).
Proof.
  intros Hd. destruct (renamed_first d) as (d1 & Hsame & Hgone & ->).
  destruct (Hgone Hd) as [Hall Hd1].
  rewrite <- (Hsame "sortSelection") by discriminate.
  destruct (PyDict.lookup "sortSelection" d1) as [v|] eqn:Hs.
  - split; [|split; [|split]].
    + rewrite lookup_store_ne, lookup_remove_ne by discriminate. exact Hall.
    + rewrite lookup_store_ne by discriminate. apply lookup_remove_eq, Hd1.
    + apply lookup_store_eq.
    + intros key Hk.
      apply not_elem_of_cons in Hk as [H1 Hk].
      apply not_elem_of_cons in Hk as [H2 Hk].
      apply not_elem_of_cons in Hk as [H3 _].
      rewrite lookup_store_ne, lookup_remove_ne by congruence.
      apply Hsame, H1.
  - split; [exact Hall|]. split; [exact Hs|]. split.
    + apply Hsame. discriminate.
    + intros key Hk. apply not_elem_of_cons in Hk as [H1 _]. apply Hsame, H1.
Qed.

Section Normalize.
Context `{JsonLib}.

(** What both entry points do to the query state once it is read. *)
Lemma rewritten_state (tops filters qs fs : list (string * Json)) :
  PyDict.lookup "filterState" qs = Some (JObj fs) ->
  "filterState" ∉ tops.*1 ->
  NoDup tops.*1 ->
  NoDup filters.*1 ->
  "isAllHomes" ∉ filters.*1 ->
  "sortSelection" ∉ filters.*1 ->
  "sort" ∉ filters.*1 ->
  NoDup fs.*1 ->
  exists filtered queryState,
    set_filters (JObj (assigned tops qs)) filters = Ok filtered
    /\ normalize_filters filtered = Ok queryState
    /\ (forall key value, (key, value) ∈ tops -> getitem queryState key = Ok value)
    /\ (forall key, key ∉ "filterState" :: tops.*1 ->
                    getitem queryState key = getitem (JObj qs) key)
    /\ (forall key value, (key, value) ∈ filters -> filter_of queryState key = Ok value)
    /\ filter_of queryState "isAllHomes" = Raise KeyError
    /\ filter_of queryState "sortSelection" = Raise KeyError
    /\ filter_of queryState "sort"
       = match PyDict.lookup "sortSelection" fs with
         | Some order => Ok order
         | None => getitem (JObj fs) "sort"
         end
    /\ (forall key, key ∉ "isAllHomes" :: "sortSelection" :: "sort" :: filters.*1 ->
                    filter_of queryState key = getitem (JObj fs) key).
Proof.
  intros Hf Htops Hnt Hnf Hfa Hfs Hfo Hnd.
  assert (Hf1 : PyDict.lookup "filterState" (assigned tops qs) = Some (JObj fs))
    by (rewrite lookup_assigned_out by exact Htops; exact Hf).
  set (fs2 := renamed (assigned filters fs)).
  exists (JObj (PyDict.store "filterState" (JObj (assigned filters fs)) (assigned tops qs))),
         (JObj (PyDict.store "filterState" (JObj fs2) (assigned tops qs))).
  split; [exact (set_filters_dict _ _ _ Hf1)|].
  split.
  { rewrite (normalize_filters_dict _ (assigned filters fs)) by apply lookup_store_eq.
    rewrite store_store. reflexivity. }
  assert (Hfilter : forall key,
             filter_of (JObj (PyDict.store "filterState" (JObj fs2) (assigned tops qs))) key
             = getitem (JObj fs2) key).
  { intros key. apply CodecMore.filter_of_dict, lookup_store_eq. }
  destruct (lookup_renamed (assigned filters fs) (NoDup_assigned _ _ Hnd))
    as (Hall & Hsel & Hsort & Hother).
  fold fs2 in Hall, Hsel, Hsort, Hother.
  rewrite !lookup_assigned_out in Hsort by assumption.
  split; [|split; [|split; [|split; [|split; [|split]]]]].
  - intros key value Hin. cbn [getitem].
    assert (Hk : key <> "filterState").
    { intros ->. apply Htops. apply list_elem_of_fmap. exists ("filterState", value).
      split; [reflexivity | exact Hin]. }
    rewrite lookup_store_ne by congruence.
    rewrite (lookup_assigned_in _ _ _ _ Hnt Hin). reflexivity.
  - intros key Hk. apply not_elem_of_cons in Hk as [Hk1 Hk]. cbn [getitem].
    rewrite lookup_store_ne by congruence.
    rewrite lookup_assigned_out by exact Hk. reflexivity.
  - intros key value Hin. rewrite Hfilter. cbn [getitem].
    assert (Hkey : key ∈ filters.*1).
    { apply list_elem_of_fmap. exists (key, value). split; [reflexivity | exact Hin]. }
    rewrite Hother.
    + rewrite (lookup_assigned_in _ _ _ _ Hnf Hin). reflexivity.
    + rewrite !not_elem_of_cons. repeat split; try (intros ->; contradiction).
      apply not_elem_of_nil.
  - rewrite Hfilter. cbn [getitem]. rewrite Hall. reflexivity.
  - rewrite Hfilter. cbn [getitem]. rewrite Hsel. reflexivity.
  - rewrite Hfilter. cbn [getitem]. rewrite Hsort.
    destruct (PyDict.lookup "sortSelection" fs); reflexivity.
  - intros key Hk.
    apply not_elem_of_cons in Hk as [H1 Hk].
    apply not_elem_of_cons in Hk as [H2 Hk].
    apply not_elem_of_cons in Hk as [H3 Hk].
    rewrite Hfilter. cbn [getitem]. rewrite Hother.
    + rewrite lookup_assigned_out by exact Hk. reflexivity.
    + rewrite !not_elem_of_cons. repeat split; try assumption. apply not_elem_of_nil.
Qed.

Lemma sale_filters_keys :
  NoDup sale_filters.*1
  /\ ("isAllHomes" ∉ sale_filters.*1)
  /\ ("sortSelection" ∉ sale_filters.*1)
  /\ ("sort" ∉ sale_filters.*1).
Proof.
  repeat split; refine (bool_decide_unpack _ _); vm_compute; exact I.
Qed.

Lemma sold_filters_keys :
  NoDup sold_filters.*1
  /\ ("isAllHomes" ∉ sold_filters.*1)
  /\ ("sortSelection" ∉ sold_filters.*1)
  /\ ("sort" ∉ sold_filters.*1).
Proof.
  repeat split; refine (bool_decide_unpack _ _); vm_compute; exact I.
Qed.

(** [parse_queryState] on a page whose data block holds a base URL and a
    query state with a dictionary of filters: it returns the base URL and
    the query state with [ah], [isListVisible], [mapZoom] and [pagination]
    set, the six property-type filters switched off, [isAllHomes] and
    [sortSelection] gone, [sort] holding what [sortSelection] held (or
    what it held itself), and everything else as the page had it. *)
Theorem parse_queryState_rewrites (html : Html) (script : Node) (data baseurl : Json)
    (qs fs : list (string * Json)) :
  find_next_data html = Some script ->
  loads_string script = Ok data ->
  getpath data baseUrl_path = Ok baseurl ->
  getpath data queryState_path = Ok (JObj qs) ->
  PyDict.lookup "filterState" qs = Some (JObj fs) ->
  NoDup fs.*1 ->
  exists queryState,
    parse_queryState (Some html) = Ok (Some (baseurl, queryState))
    /\ getitem queryState "ah" = Ok (value_of true)
    /\ getitem queryState "isListVisible" = Ok (JBool true)
    /\ getitem queryState "mapZoom" = Ok (JNum 15)
    /\ getitem queryState "pagination" = Ok (JObj [])
    /\ (forall key,
          key ∉ ["filterState"; "ah"; "isListVisible"; "mapZoom"; "pagination"] ->
          getitem queryState key = getitem (JObj qs) key)
    /\ (forall key value, (key, value) ∈ sale_filters -> filter_of queryState key = Ok value)
    /\ filter_of queryState "isAllHomes" = Raise KeyError
    /\ filter_of queryState "sortSelection" = Raise KeyError
    /\ filter_of queryState "sort"
       = match PyDict.lookup "sortSelection" fs with
         | Some order => Ok order
         | None => getitem (JObj fs) "sort"
         end
    /\ (forall key,
          key ∉ "isAllHomes" :: "sortSelection" :: "sort" :: sale_filters.*1 ->
          filter_of queryState key = getitem (JObj fs) key).
Proof.
  intros Hfind Hloads Hbase Hqs Hf Hnd.
  set (tops := [("ah", value_of true); ("isListVisible", JBool true);
                ("mapZoom", JNum 15); ("pagination", JObj [])]).
  destruct sale_filters_keys as (Hnf & Hfa & Hfs & Hfo).
  destruct (rewritten_state tops sale_filters qs fs Hf) as
    (filtered & queryState & Hset & Hnorm & Htops & Hrest & Hfilters & Hall & Hsel
     & Hsort & Hother); try assumption.
  { refine (bool_decide_unpack _ _); vm_compute; exact I. }
  { refine (bool_decide_unpack _ _); vm_compute; exact I. }
  exists queryState. split.
  { unfold parse_queryState. cbn [Bs4.BeautifulSoup mbind Res_bind].
    rewrite Hfind, Hloads. cbn [mbind Res_bind].
    unfold baseUrl_path in Hbase. unfold queryState_path in Hqs.
    rewrite Hbase. cbn [mbind Res_bind]. rewrite Hqs. cbn [mbind Res_bind setitem].
    change (set_filters _ _) with (set_filters (JObj (assigned tops qs)) sale_filters).
    rewrite Hset. cbn [mbind Res_bind]. rewrite Hnorm. reflexivity. }
  split. { apply Htops. unfold tops. rewrite !elem_of_cons. auto. }
  split. { apply Htops. unfold tops. rewrite !elem_of_cons. auto. }
  split. { apply Htops. unfold tops. rewrite !elem_of_cons. auto. }
  split. { apply Htops. unfold tops. rewrite !elem_of_cons. auto 6. }
  split. { exact Hrest. }
  split. { exact Hfilters. }
  split. { exact Hall. }
  split. { exact Hsel. }
  split. { exact Hsort. }
  exact Hother.
Qed.

(** [parse_soldQueryState] on such a page: it returns the base URL and the
    query state with [isListVisible], [mapZoom] and [pagination] set, the
    thirteen sold-listing filters written, [isAllHomes] and
    [sortSelection] gone, [sort] holding what [sortSelection] held, and
    everything else - [ah] included - as the page had it. *)
Theorem parse_soldQueryState_rewrites (html : Html) (script : Node) (data baseurl : Json)
    (qs fs : list (string * Json)) :
  find_next_data html = Some script ->
  loads_string script = Ok data ->
  getpath data baseUrl_path = Ok baseurl ->
  getpath data queryState_path = Ok (JObj qs) ->
  PyDict.lookup "filterState" qs = Some (JObj fs) ->
  NoDup fs.*1 ->
  exists queryState,
    parse_soldQueryState (Some html) = Ok (Some (baseurl, queryState))
    /\ getitem queryState "isListVisible" = Ok (JBool true)
    /\ getitem queryState "mapZoom" = Ok (JNum 15)
    /\ getitem queryState "pagination" = Ok (JObj [])
    /\ (forall key,
          key ∉ ["filterState"; "isListVisible"; "mapZoom"; "pagination"] ->
          getitem queryState key = getitem (JObj qs) key)
    /\ (forall key value, (key, value) ∈ sold_filters -> filter_of queryState key = Ok value)
    /\ filter_of queryState "isAllHomes" = Raise KeyError
    /\ filter_of queryState "sortSelection" = Raise KeyError
    /\ filter_of queryState "sort"
       = match PyDict.lookup "sortSelection" fs with
         | Some order => Ok order
         | None => getitem (JObj fs) "sort"
         end
    /\ (forall key,
          key ∉ "isAllHomes" :: "sortSelection" :: "sort" :: sold_filters.*1 ->
          filter_of queryState key = getitem (JObj fs) key).
Proof.
  intros Hfind Hloads Hbase Hqs Hf Hnd.
  set (tops := [("isListVisible", JBool true); ("mapZoom", JNum 15);
                ("pagination", JObj [])]).
  destruct sold_filters_keys as (Hnf & Hfa & Hfs & Hfo).
  destruct (rewritten_state tops sold_filters qs fs Hf) as
    (filtered & queryState & Hset & Hnorm & Htops & Hrest & Hfilters & Hall & Hsel
     & Hsort & Hother); try assumption.
  { refine (bool_decide_unpack _ _); vm_compute; exact I. }
  { refine (bool_decide_unpack _ _); vm_compute; exact I. }
  exists queryState. split.
  { unfold parse_soldQueryState. cbn [Bs4.BeautifulSoup mbind Res_bind].
    rewrite Hfind, Hloads. cbn [mbind Res_bind].
    unfold baseUrl_path in Hbase. unfold queryState_path in Hqs.
    rewrite Hbase. cbn [mbind Res_bind]. rewrite Hqs. cbn [mbind Res_bind setitem].
    change (set_filters _ _) with (set_filters (JObj (assigned tops qs)) sold_filters).
    rewrite Hset. cbn [mbind Res_bind]. rewrite Hnorm. reflexivity. }
  split. { apply Htops. unfold tops. rewrite !elem_of_cons. auto. }
  split. { apply Htops. unfold tops. rewrite !elem_of_cons. auto. }
  split. { apply Htops. unfold tops. rewrite !elem_of_cons. auto. }
  split. { exact Hrest. }
  split. { exact Hfilters. }
  split. { exact Hall. }
  split. { exact Hsel. }
  split. { exact Hsort. }
  exact Hother.
Qed.

End Normalize.

#[local] Existing Instance MiniJson.lib.

Lemma parse_queryState_rewrites_witness :
  exists queryState,
    parse_queryState (Some Fixtures.zip_page)
    = Ok (Some (JStr "/boston-ma-02118/", queryState))
    /\ getitem queryState "ah" = Ok (value_of true)
    /\ getitem queryState "isListVisible" = Ok (JBool true)
    /\ getitem queryState "mapZoom" = Ok (JNum 15)
    /\ getitem queryState "pagination" = Ok (JObj [])
    /\ (forall key,
          key ∉ ["filterState"; "ah"; "isListVisible"; "mapZoom"; "pagination"] ->
          getitem queryState key = getitem (JObj Fixtures.zip_query) key)
    /\ (forall key value, (key, value) ∈ sale_filters -> filter_of queryState key = Ok value)
    /\ filter_of queryState "isAllHomes" = Raise KeyError
    /\ filter_of queryState "sortSelection" = Raise KeyError
    /\ filter_of queryState "sort"
       = match PyDict.lookup "sortSelection" Fixtures.zip_filters with
         | Some order => Ok order
         | None => getitem (JObj Fixtures.zip_filters) "sort"
         end
    /\ (forall key,
          key ∉ "isAllHomes" :: "sortSelection" :: "sort" :: sale_filters.*1 ->
          filter_of queryState key = getitem (JObj Fixtures.zip_filters) key).
Proof.
  apply (parse_queryState_rewrites Fixtures.zip_page Fixtures.zip_script Fixtures.zip_data
           (JStr "/boston-ma-02118/") Fixtures.zip_query Fixtures.zip_filters).
  - reflexivity.
  - vm_compute. reflexivity.
  - reflexivity.
  - reflexivity.
  - reflexivity.
  - refine (bool_decide_unpack _ _). vm_compute. exact I.
Defined.

Lemma parse_soldQueryState_rewrites_witness :
  exists queryState,
    parse_soldQueryState (Some Fixtures.zip_page)
    = Ok (Some (JStr "/boston-ma-02118/", queryState))
    /\ getitem queryState "isListVisible" = Ok (JBool true)
    /\ getitem queryState "mapZoom" = Ok (JNum 15)
    /\ getitem queryState "pagination" = Ok (JObj [])
    /\ (forall key,
          key ∉ ["filterState"; "isListVisible"; "mapZoom"; "pagination"] ->
          getitem queryState key = getitem (JObj Fixtures.zip_query) key)
    /\ (forall key value, (key, value) ∈ sold_filters -> filter_of queryState key = Ok value)
    /\ filter_of queryState "isAllHomes" = Raise KeyError
    /\ filter_of queryState "sortSelection" = Raise KeyError
    /\ filter_of queryState "sort"
       = match PyDict.lookup "sortSelection" Fixtures.zip_filters with
         | Some order => Ok order
         | None => getitem (JObj Fixtures.zip_filters) "sort"
         end
    /\ (forall key,
          key ∉ "isAllHomes" :: "sortSelection" :: "sort" :: sold_filters.*1 ->
          filter_of queryState key = getitem (JObj Fixtures.zip_filters) key).
Proof.
  apply (parse_soldQueryState_rewrites Fixtures.zip_page Fixtures.zip_script Fixtures.zip_data
           (JStr "/boston-ma-02118/") Fixtures.zip_query Fixtures.zip_filters).
  - reflexivity.
  - vm_compute. reflexivity.
  - reflexivity.
  - reflexivity.
  - reflexivity.
  - refine (bool_decide_unpack _ _). vm_compute. exact I.
Defined.

End NormalizeSpec.

(** * What the set of links keeps *)

Module LinkSetMore.
Import Zipwiseproperties Scraper.

Lemma py_eq_refl (x : Json) : hashable x = true -> py_eq x x = true.
Proof.
  destruct x as [|b|n|s|items|fields]; cbn; try discriminate; intros _.
  - reflexivity.
  - destruct b; reflexivity.
  - apply Z.eqb_refl.
  - apply String.eqb_refl.
Qed.

Lemma py_eq_string (s : string) (y : Json) : py_eq (JStr s) y = true -> y = JStr s.
Proof.
  destruct y as [|b|n|t|items|fields]; cbn; try discriminate.
  intros E. apply String.eqb_eq in E. congruence.
Qed.

Lemma set_members_sub (seen items : list Json) (x : Json) :
  x ∈ set_members seen items -> x ∈ items.
Proof.
  revert seen. induction items as [|x0 items IH]; intros seen; cbn; [trivial|].
  destruct (existsb (py_eq x0) seen).
  - intros Hx. apply list_elem_of_further. exact (IH _ Hx).
  - intros Hx. apply elem_of_cons in Hx as [->|Hx].
    + apply list_elem_of_here.
    + apply list_elem_of_further. exact (IH _ Hx).
Qed.

(** A link that is inserted is equal to one that was seen or to one that
    is kept. *)
Lemma set_members_covers (seen items : list Json) (x : Json) :
  forallb hashable items = true -> x ∈ items ->
  existsb (py_eq x) seen = true
  \/ exists kept, kept ∈ set_members seen items /\ py_eq x kept = true.
Proof.
  revert seen. induction items as [|x0 items IH]; intros seen Hh Hx.
  - apply elem_of_nil in Hx. contradiction.
  - cbn in Hh. apply andb_true_iff in Hh as [Hh0 Hh]. cbn [set_members].
    apply elem_of_cons in Hx as [->|Hx].
    + destruct (existsb (py_eq x0) seen) eqn:E; [left; reflexivity|].
      right. exists x0. split; [apply list_elem_of_here | exact (py_eq_refl _ Hh0)].
    + destruct (existsb (py_eq x0) seen) eqn:E.
      * exact (IH seen Hh Hx).
      * destruct (IH (x0 :: seen) Hh Hx) as [Hseen|(kept & Hkept & Heq)].
        -- cbn in Hseen. apply orb_true_iff in Hseen as [Hx0|Hseen]; [|left; exact Hseen].
           right. exists x0. split; [apply list_elem_of_here | exact Hx0].
        -- right. exists kept. split; [apply list_elem_of_further, Hkept | exact Heq].
Qed.

Section Kept.
Context `{JsonLib}.

(** When [scrape_properties] returns, the list it returns is drawn from
    the links the walk gathered, every gathered link is equal to a
    returned one, and a string link is returned exactly when it was
    gathered: removing duplicates loses no listing and invents none. *)
Theorem scrape_properties_keeps_every_link (zip_code base_url : string) (w : World)
    (unique_links : list Json) :
  (scrape_properties zip_code base_url w).1 = Ok unique_links ->
  let gathered := (scrape_properties_try zip_code base_url w).1.1 in
  (forall link, link ∈ unique_links -> link ∈ gathered)
  /\ (forall link, link ∈ gathered ->
                   exists kept, kept ∈ unique_links /\ py_eq link kept = true)
  /\ (forall s, JStr s ∈ unique_links <-> JStr s ∈ gathered).
Proof.
  unfold scrape_properties.
  destruct (scrape_properties_try zip_code base_url w) as [[all_links w'] e].
  cbn. unfold list_set. destruct (forallb hashable all_links) eqn:Hh; [|discriminate].
  intros [= <-].
  assert (Hcover : forall link, link ∈ all_links ->
             exists kept, kept ∈ set_members [] all_links /\ py_eq link kept = true).
  { intros link Hin.
    destruct (set_members_covers [] all_links link Hh Hin) as [Hseen|Hkept];
      [discriminate | exact Hkept]. }
  split; [intros link; apply set_members_sub|]. split; [exact Hcover|].
  intros s. split; [apply set_members_sub|].
  intros Hin. destruct (Hcover _ Hin) as (kept & Hkept & Heq).
  rewrite (py_eq_string _ _ Heq) in Hkept. exact Hkept.
Qed.

End Kept.

#[local] Existing Instance MiniJson.lib.

Lemma scrape_properties_keeps_every_link_witness :
  let gathered := (scrape_properties_try "02118" Fixtures.area_url Fixtures.padded).1.1 in
  (forall link, link ∈ [JStr Fixtures.listing; JStr (Fixtures.listing +:+ " ")] ->
                link ∈ gathered)
  /\ (forall link, link ∈ gathered ->
                   exists kept,
                     kept ∈ [JStr Fixtures.listing; JStr (Fixtures.listing +:+ " ")]
                     /\ py_eq link kept = true)
  /\ (forall s, JStr s ∈ [JStr Fixtures.listing; JStr (Fixtures.listing +:+ " ")]
                <-> JStr s ∈ gathered).
Proof.
  apply (scrape_properties_keeps_every_link "02118" Fixtures.area_url Fixtures.padded).
  vm_compute. reflexivity.
Defined.

End LinkSetMore.

(** * What the extractor does with a page that lacks a field *)

Module ExtractMore.
Import Propertyfields.

Lemma title_fields_raises (soup : Html) (e : PyExn) :
  title_fields soup = Raise e ->
  (e = AttributeError /\ Bs4.find_in (Bs4.has_tag "title") soup = None)
  \/ (e = ValueError /\ Bs4.find_in (Bs4.has_tag "title") soup <> None).
Proof.
  unfold title_fields.
  destruct (Bs4.find_in (Bs4.has_tag "title") soup) as [title|]; [|intros [= <-]; auto].
  destruct (firstn 2 (PyStr.split "|" (Bs4.text title))) as [|a [|m [|x l]]];
    cbv zeta; try discriminate; intros [= <-]; right; (split; [reflexivity|]);
    intros Hnone; discriminate Hnone.
Qed.

Lemma strong_text_raises (dt_elements : list Node) (i : nat) (e : PyExn) :
  strong_text dt_elements i = Raise e -> e = AttributeError.
Proof.
  unfold strong_text. destruct (dt_elements !! i) as [dt|]; [|discriminate].
  destruct (Bs4.find_in _ _); [discriminate|]. intros [= <-]. reflexivity.
Qed.

Lemma extractPropertyInfo_outcomes (soup : Html) :
  match extractPropertyInfo soup with
  | Ok (address, MLS, listed_price) =>
    (Bs4.find_in (Bs4.has_tag "title") soup = None -> address = NA /\ MLS = NA)
    /\ (Bs4.find_in (Bs4.has_tag_attr "meta" "name" "description") soup = None ->
        listed_price = NA)
  | Raise e =>
    e = IndexError
    /\ Bs4.find_in (Bs4.has_tag_attr "meta" "name" "description") soup <> None
  end.
Proof.
  unfold extractPropertyInfo.
  assert (Hfields : exists address MLS,
             match title_fields soup with
             | Ok fields => Ok fields
             | Raise AttributeError | Raise ValueError => Ok (NA, NA)
             | Raise e => Raise e
             end = Ok (address, MLS)
             /\ (Bs4.find_in (Bs4.has_tag "title") soup = None ->
                 address = NA /\ MLS = NA)).
  { destruct (title_fields soup) as [[address MLS]|e] eqn:E.
    - exists address, MLS. split; [reflexivity|]. intros Hnone.
      unfold title_fields in E. rewrite Hnone in E. discriminate.
    - exists NA, NA.
      destruct (title_fields_raises _ _ E) as [[-> _]|[-> _]]; split; auto. }
  destruct Hfields as (address & MLS & -> & Htitle). cbn [mbind Res_bind].
  destruct (Bs4.find_in (Bs4.has_tag_attr "meta" "name" "description") soup)
    as [meta_tag|]; cbn [mbind Res_bind].
  - destruct (PyStr.split "$" (attr_or meta_tag "content" EmptyString))
      as [|part0 [|part1 parts]]; cbn [mbind Res_bind].
    + split; [exact Htitle | discriminate].
    + split; [exact Htitle | discriminate].
    + destruct (PyStr.split_ws part1) as [|price rest]; cbn [mbind Res_bind].
      * split; [reflexivity | discriminate].
      * split; [exact Htitle | discriminate].
  - split; [exact Htitle | reflexivity].
Qed.

Lemma extractStats_outcomes (soup : Html) :
  match extractStats soup with
  | Ok (days_on_zillow, views, saves) =>
    Bs4.find_in (Bs4.has_tag_attr_containing "dl" "class" "StyledOverviewStats") soup = None ->
    days_on_zillow = NA /\ views = NA /\ saves = NA
  | Raise e =>
    e = AttributeError
    /\ Bs4.find_in (Bs4.has_tag_attr_containing "dl" "class" "StyledOverviewStats") soup
       <> None
  end.
Proof.
  unfold extractStats.
  destruct (Bs4.find_in (Bs4.has_tag_attr_containing "dl" "class" "StyledOverviewStats") soup)
    as [stats|]; [|auto].
  set (dt_elements := filter _ _).
  destruct (strong_text dt_elements 0) as [d|e] eqn:E0; cbn [mbind Res_bind];
    [|split; [exact (strong_text_raises _ _ _ E0) | discriminate]].
  destruct (strong_text dt_elements 1) as [v|e] eqn:E1; cbn [mbind Res_bind];
    [|split; [exact (strong_text_raises _ _ _ E1) | discriminate]].
  destruct (strong_text dt_elements 2) as [s|e] eqn:E2; cbn [mbind Res_bind];
    [|split; [exact (strong_text_raises _ _ _ E2) | discriminate]].
  discriminate.
Qed.

(** [parsePropertyFields] on any page.  When it returns, the record
    carries the URL it was given and the marker [N/A] for every field
    whose place in the page is missing: address and MLS number without a
    title, price without a description, the three statistics without a
    statistics list.  When it raises, it is [IndexError] on a page that
    has a description or [AttributeError] on a page that has a statistics
    list, and nothing else: a page with neither always yields a record. *)
Theorem parsePropertyFields_outcomes (html : Html) (page_url : string) :
  match parsePropertyFields html page_url with
  | Ok details =>
    url details = page_url
    /\ (Bs4.find_in (Bs4.has_tag "title") html = None ->
        address details = NA /\ MLS details = NA)
    /\ (Bs4.find_in (Bs4.has_tag_attr "meta" "name" "description") html = None ->
        listed_price details = NA)
    /\ (Bs4.find_in (Bs4.has_tag_attr_containing "dl" "class" "StyledOverviewStats") html
        = None ->
        days_on_zillow details = NA /\ views details = NA /\ saves details = NA)
  | Raise e =>
    (e = IndexError
     /\ Bs4.find_in (Bs4.has_tag_attr "meta" "name" "description") html <> None)
    \/ (e = AttributeError
        /\ Bs4.find_in (Bs4.has_tag_attr_containing "dl" "class" "StyledOverviewStats") html
           <> None)
  end.
Proof.
  unfold parsePropertyFields. cbn [Bs4.BeautifulSoup mbind Res_bind].
  pose proof (extractPropertyInfo_outcomes html) as Hinfo.
  pose proof (extractStats_outcomes html) as Hstats.
  destruct (extractPropertyInfo html) as [[[a m] p]|e]; cbn [mbind Res_bind];
    [|left; exact Hinfo].
  destruct (extractStats html) as [[[d v] s]|e]; cbn [mbind Res_bind];
    [|right; exact Hstats].
  cbn. destruct Hinfo as [Htitle Hmeta]. auto.
Qed.

End ExtractMore.

(** * A city's two passes

    Step 2 and step 3 of [main]: the harvest pass over the links on file
    and the retry pass over the ledger the first pass left. *)

Module MainSpec.
Import Zipwiseproperties Scraper Sinks HarvestSpec.

(** ** What scrape_city and retry_failed_urls hand to the pool *)

Lemma scrape_city_pool (schedule : list nat) (city csv_filename : string)
    (max_workers : nat) (w : World) (header : Row) (rows : list Row) :
  fs w !! csv_filename = Some (header :: rows) ->
  Forall (fun row => row <> []) rows ->
  scrape_city schedule city csv_filename max_workers w
  = run_pool (results_path city w) (error_path city w) schedule
             (column 0 (header :: rows)) (mkPass w [] []).
Proof.
  intros Hfile Hrows. unfold scrape_city. cbv zeta. unfold File in *.
  rewrite Hfile, (first_column_ok header rows Hrows). reflexivity.
Qed.

Lemma retry_pool (schedule : list nat) (city : string) (max_workers : nat) (w : World)
    (header : Row) (rows : list Row) :
  fs w !! error_path city w = Some (header :: rows) ->
  Forall (fun row => row <> []) rows ->
  retry_failed_urls schedule city max_workers w
  = match column 0 (header :: rows) with
    | [] => (Ok (), mkPass w [] [])
    | _ :: _ =>
      run_pool (results_path city w) (error_path city w) schedule
               (column 0 (header :: rows))
               (mkPass (set_fs (delete (error_path city w) (fs w)) w) [] [])
    end.
Proof.
  intros Hfile Hrows. unfold retry_failed_urls. cbv zeta. unfold File in *.
  rewrite Hfile, (first_column_ok header rows Hrows).
  destruct (column 0 (header :: rows)); reflexivity.
Qed.

(** ** The rows of a sink that has grown *)

Lemma written_rows (header : Row) (writes : list (bool * Row)) (row : Row) :
  row ∈ writes.*2 -> row ∈ written header writes.
Proof.
  induction writes as [|[empty r] writes IH]; cbn; intros Hin.
  - apply elem_of_nil in Hin. contradiction.
  - apply elem_of_cons in Hin as [->|Hin].
    + apply elem_of_app. left. destruct empty; cbn.
      * apply list_elem_of_further, list_elem_of_here.
      * apply list_elem_of_here.
    + apply elem_of_app. right. exact (IH Hin).
Qed.

Lemma rows_written (header : Row) (writes : list (bool * Row)) (row : Row) :
  row ∈ written header writes -> row = header \/ row ∈ writes.*2.
Proof.
  induction writes as [|[empty r] writes IH]; cbn; intros Hin.
  - apply elem_of_nil in Hin. contradiction.
  - apply elem_of_app in Hin as [Hin|Hin].
    + destruct empty; cbn in Hin.
      * apply elem_of_cons in Hin as [->|Hin]; [left; reflexivity|].
        apply list_elem_of_singleton in Hin as ->. right. apply list_elem_of_here.
      * apply list_elem_of_singleton in Hin as ->. right. apply list_elem_of_here.
    + destruct (IH Hin) as [->|Hrow]; [left; reflexivity|].
      right. apply list_elem_of_further, Hrow.
Qed.

Lemma drop_1_app {A : Type} (a b : list A) (x : A) :
  x ∈ drop 1 (a ++ b) -> x ∈ drop 1 a \/ x ∈ b.
Proof.
  destruct a as [|y a]; cbn.
  - intros Hin. right. destruct b as [|z b]; [exact Hin|].
    cbn in Hin. rewrite ?drop_0 in Hin. apply list_elem_of_further, Hin.
  - rewrite ?drop_0. apply elem_of_app.
Qed.

(** A row a worker saved stands under the first row of the sink. *)
Lemma saved_under_header (header : Row) (old new : File) (writes : list (bool * Row))
    (row : Row) :
  grown header old new writes -> row ∈ writes.*2 -> row ∈ drop 1 new.
Proof.
  intros (-> & _ & Hfirst) Hin. destruct old as [|first old].
  - destruct writes as [|[empty r] writes]; [apply elem_of_nil in Hin; contradiction|].
    specialize (Hfirst eq_refl (empty, r) eq_refl). cbn in Hfirst. subst empty.
    cbn. rewrite ?drop_0. cbn in Hin. apply elem_of_cons in Hin as [->|Hin].
    + apply list_elem_of_here.
    + apply list_elem_of_further, written_rows, Hin.
  - cbn. rewrite ?drop_0. apply elem_of_app. right. apply written_rows, Hin.
Qed.

(** A row under the first row of a sink was there before, or is a header,
    or is a row a worker saved. *)
Lemma under_header_saved (header : Row) (old new : File) (writes : list (bool * Row))
    (row : Row) :
  grown header old new writes -> row ∈ drop 1 new ->
  row ∈ drop 1 old \/ row = header \/ row ∈ writes.*2.
Proof.
  intros (-> & _) Hin. apply drop_1_app in Hin as [Hin|Hin]; [left; exact Hin|].
  right. apply rows_written, Hin.
Qed.

(** A row in the ledger column of a pool is a URL with a message. *)
Lemma saved_error_row (p0 p : Pass) (pool : Pool) (row : Row) :
  Forall (settled p0 p) pool -> row ∈ saved Error pool ->
  exists url message, row = [url; message].
Proof.
  induction 1 as [|[url worker] pool Hjob _ IH]; unfold saved; cbn [flat_map]; intros Hin.
  - apply elem_of_nil in Hin. contradiction.
  - apply elem_of_app in Hin as [Hin|Hin]; [|exact (IH Hin)].
    destruct Hjob as (k0 & ks & result & _ & _ & Hend). cbn [fst snd] in *. subst worker.
    unfold ending in Hin.
    destruct (content result) as [page|].
    + destruct (Propertyfields.parsePropertyFields page url);
        cbn in Hin; apply elem_of_nil in Hin; contradiction.
    + cbn in Hin. apply list_elem_of_singleton in Hin as ->. eauto.
Qed.

Lemma column_rows (i : nat) (file : File) (cell : string) :
  cell ∈ column i file <-> exists row, row ∈ drop 1 file /\ row !! i = Some cell.
Proof. unfold column. apply list_elem_of_omap. Qed.
Lemma read_file_some (f : string) (w : World) (file : File) :
  fs w !! f = Some file -> read_file f w = file.
Proof. intros Hfile. unfold read_file. unfold File in *. rewrite Hfile. reflexivity. Qed.

Lemma read_file_none (f : string) (w : World) :
  fs w !! f = None -> read_file f w = [].
Proof. intros Hfile. unfold read_file. unfold File in *. rewrite Hfile. reflexivity. Qed.

Lemma written_nil (header : Row) (writes : list (bool * Row)) :
  written header writes = [] -> writes = [].
Proof.
  destruct writes as [|[[|] row] writes]; [reflexivity| |]; cbn; discriminate.
Qed.

(** A pass leaves the ledger a file with a header and no blank row. *)
Lemma ledger_kept (results_file error_file : string) (p0 : Pass) (urls : list string)
    (pool : Pool) (p : Pass) :
  harvested results_file error_file p0 urls pool p ->
  kept_ledger error_file (world p0) -> kept_ledger error_file (world p).
Proof.
  intros (_ & Hsettled & Hsinks & _ & Hfresh & _) Hkept file Hfile.
  destruct (Hsinks Error) as (writes & Hgrown & Hperm). cbn [sink header_row] in Hgrown.
  pose proof (read_file_some _ _ _ Hfile) as Hread.
  rewrite Hread in Hgrown.
  assert (Hold : read_file error_file (world p0) = []
                 \/ exists header rows,
                      read_file error_file (world p0) = header :: rows
                      /\ Forall (fun row : Row => row <> []) rows).
  { destruct (fs (world p0) !! error_file) as [old|] eqn:Eold.
    - right. rewrite (read_file_some _ _ _ Eold). exact (Hkept old Eold).
    - left. exact (read_file_none _ _ Eold). }
  destruct file as [|first rows].
  - exfalso. destruct Hgrown as (Hnew & _). symmetry in Hnew.
    apply app_eq_nil in Hnew as [Hnone Hwritten]. apply written_nil in Hwritten.
    subst writes. cbn in Hperm. symmetry in Hperm. apply Permutation_nil_r in Hperm.
    specialize (Hfresh Error Hperm). cbn [sink] in Hfresh.
    pose proof (eq_trans (eq_sym Hfresh) Hfile) as Hwas.
    destruct (Hkept _ Hwas) as (header & rows & Hshape & _). discriminate.
  - exists first, rows. split; [reflexivity|]. apply Forall_forall. intros row Hin.
    assert (Hunder : row ∈ drop 1 (first :: rows)) by (cbn; rewrite ?drop_0; exact Hin).
    destruct (under_header_saved _ _ _ _ _ Hgrown Hunder) as [Hin0|[->|Hnew]].
    + destruct Hold as [Hold|(header & rows0 & Hold & Hrows0)]; rewrite Hold in Hin0.
      * apply elem_of_nil in Hin0. contradiction.
      * cbn in Hin0. rewrite ?drop_0 in Hin0.
        exact (proj1 (Forall_forall _ _) Hrows0 row Hin0).
    + discriminate.
    + rewrite Hperm in Hnew.
      destruct (saved_error_row _ _ _ _ Hsettled Hnew) as (url & message & ->).
      discriminate.
Qed.

(** [scrape_city] on a links file with a header row and no blank
    row starts a worker for every link of the first column.  Under any
    schedule of the workers, when the pool is left every worker has
    returned with the row [process_url] makes of its own fetch, or has
    raised; the results file and the ledger have grown by the rows of the
    workers that saved to them, behind what they held; and [scrape_city]
    raises what the first worker that raised, in submission order,
    raised, and returns when none did. *)
Theorem scrape_city_sorts_every_link (schedule : list nat) (city csv_filename : string)
    (max_workers : nat) (w : World) (header : Row) (rows : list Row) :
  let results_file := results_path city w in
  let error_file := error_path city w in
  let pass := scrape_city schedule city csv_filename max_workers w in
  fs w !! csv_filename = Some (header :: rows) ->
  Forall (fun row => row <> []) rows ->
  exists pool,
    harvested results_file error_file (mkPass w [] []) (column 0 (header :: rows))
              pool pass.2
    /\ pass.1 = match raised pool with
                | [] => Ok ()
                | e :: _ => Raise e
                end.
Proof.
  intros results_file error_file pass Hfile Hrows. subst pass.
  rewrite (scrape_city_pool schedule city csv_filename max_workers w header rows Hfile Hrows).
  rewrite collect_run_pool. cbn [fst snd].
  exists (run_workers results_file error_file schedule (column 0 (header :: rows))
                      (mkPass w [] [])).1.
  split; [|reflexivity]. apply run_workers_harvested, paths_differ.
Qed.

Lemma scrape_city_sorts_every_link_witness :
  let w := Fixtures.city in
  let pass := scrape_city [2; 1; 0; 2; 1; 0]%nat "boston" Fixtures.links_csv 14 w in
  exists pool,
    harvested Fixtures.results_csv Fixtures.errors_csv (mkPass w [] [])
              [Fixtures.listing; Fixtures.second_listing; Fixtures.third_listing]
              pool pass.2
    /\ pass.1 = match raised pool with
                | [] => Ok ()
                | e :: _ => Raise e
                end.
Proof.
  apply (scrape_city_sorts_every_link [2; 1; 0; 2; 1; 0]%nat "boston" Fixtures.links_csv 14
           Fixtures.city ["Property Link"]
           [[Fixtures.listing]; [Fixtures.second_listing]; [Fixtures.third_listing]]).
  - reflexivity.
  - repeat constructor; discriminate.
Defined.

(** Steps 2 and 3 of [main] for one city, when no worker of the
    first pass raises and the ledger, if there is one, has a header and no
    blank row.  The retry pass starts a worker for every row the ledger
    holds under its first row when the first pass is over, against the
    same results file.  Every URL the first pass failed on is among them;
    each of them is a URL the ledger held before, or a URL the first pass
    failed on, or the text of the header, which is in the ledger a second
    time when two workers opened it empty.  When the ledger holds no row
    the run ends with the first pass. *)
Theorem main_retries_what_failed (first second : list nat) (city filename : string)
    (w : World) (header : Row) (rows : list Row) :
  let results_file := results_path city w in
  let error_file := error_path city w in
  let pass1 := scrape_city first city filename 14 w in
  let w1 := world pass1.2 in
  let pending := ledger_urls error_file w1 in
  let cleared := mkPass (set_fs (delete error_file (fs w1)) w1) [] [] in
  let final := main_scrape_and_retry first second city filename w in
  fs w !! filename = Some (header :: rows) ->
  Forall (fun row => row <> []) rows ->
  kept_ledger error_file w ->
  pass1.1 = Ok () ->
  exists pool1,
    harvested results_file error_file (mkPass w [] []) (column 0 (header :: rows))
              pool1 pass1.2
    /\ raised pool1 = []
    /\ (forall row, row ∈ saved Error pool1 ->
                    exists url message, row = [url; message] /\ url ∈ pending)
    /\ (forall url, url ∈ pending ->
                    url ∈ ledger_urls error_file w
                    \/ url = "Error URL"
                    \/ exists message, [url; message] ∈ saved Error pool1)
    /\ match pending with
       | [] => final = (Ok (), w1)
       | _ :: _ =>
         exists pool2 p2,
           harvested results_file error_file cleared pending pool2 p2
           /\ final = (match raised pool2 with
                       | [] => Ok ()
                       | e :: _ => Raise e
                       end, world p2)
       end.
Proof.
  intros results_file error_file pass1 w1 pending cleared final Hfile Hrows Hkept Hok.
  subst final. unfold main_scrape_and_retry.
  subst cleared pending w1 pass1. revert Hok.
  rewrite (scrape_city_pool first city filename 14 w header rows Hfile Hrows).
  rewrite collect_run_pool. fold results_file error_file.
  pose proof (run_workers_harvested results_file error_file first
                (column 0 (header :: rows)) (mkPass w [] []) (paths_differ city w))
    as Hpass.
  destruct (run_workers results_file error_file first (column 0 (header :: rows))
                        (mkPass w [] [])) as [pool1 p1].
  cbn [fst snd] in *. intros Hok.
  destruct (raised pool1) as [|e rest] eqn:Eraised; [clear Hok|discriminate Hok].
  pose proof (ledger_kept _ _ _ _ _ _ Hpass Hkept) as Hkept1.
  exists pool1. split; [exact Hpass|]. split; [exact Eraised|].
  destruct Hpass as (Hurls & Hsettled & Hsinks & Hcounters & Hfresh & Htoday & Hup & Hother).
  cbn [world] in *.
  destruct (Hsinks Error) as (writes & Hgrown & Hperm). cbn [sink header_row] in Hgrown.
  split; [|split].
  - intros row Hin.
    destruct (saved_error_row _ _ _ _ Hsettled Hin) as (url & message & ->).
    exists url, message. split; [reflexivity|].
    apply column_rows. exists [url; message]. split; [|reflexivity].
    apply (saved_under_header _ _ _ _ _ Hgrown). rewrite Hperm. exact Hin.
  - intros url Hin. apply column_rows in Hin as (row & Hrow & Hcell).
    destruct (under_header_saved _ _ _ _ _ Hgrown Hrow) as [Hold|[->|Hnew]].
    + left. apply column_rows. exists row. split; assumption.
    + right. left. cbn in Hcell. congruence.
    + right. right. rewrite Hperm in Hnew.
      destruct (saved_error_row _ _ _ _ Hsettled Hnew) as (url' & message & ->).
      cbn in Hcell. injection Hcell as ->. exists message. exact Hnew.
  - assert (Hresults : results_path city (world p1) = results_file)
      by (unfold results_file, results_path; rewrite Htoday; reflexivity).
    assert (Herrors : error_path city (world p1) = error_file)
      by (unfold error_file, error_path; rewrite Htoday; reflexivity).
    unfold ledger_urls.
    destruct (fs (world p1) !! error_file) as [file|] eqn:Eledger.
    + rewrite (read_file_some _ _ _ Eledger).
      destruct (Hkept1 file Eledger) as (first_row & rows1 & -> & Hrows1).
      rewrite <- Herrors in Eledger.
      rewrite (retry_pool second city 14 (world p1) first_row rows1 Eledger Hrows1).
      rewrite Hresults, Herrors.
      destruct (column 0 (first_row :: rows1)) as [|url urls] eqn:Epending;
        [reflexivity|].
      rewrite collect_run_pool. cbn [fst snd].
      eexists _, _. split; [|reflexivity].
      apply run_workers_harvested. apply paths_differ.
    + rewrite (read_file_none _ _ Eledger). change (column 0 []) with (@nil string).
      unfold retry_failed_urls. cbv zeta. rewrite Herrors.
      change (fs (world p1) !! error_file) with (fs (world p1) !! error_file) in Eledger.
      unfold File in *. rewrite Eledger. reflexivity.
Qed.
Lemma main_retries_what_failed_witness :
  let w := Fixtures.city in
  let first := [1; 1; 1; 2; 2; 2]%nat in
  let pass1 := scrape_city first "boston" Fixtures.links_csv 14 w in
  let w1 := world pass1.2 in
  let pending := ledger_urls Fixtures.errors_csv w1 in
  let cleared := mkPass (set_fs (delete Fixtures.errors_csv (fs w1)) w1) [] [] in
  let final := main_scrape_and_retry first [1; 0]%nat "boston" Fixtures.links_csv w in
  exists pool1,
    harvested Fixtures.results_csv Fixtures.errors_csv (mkPass w [] [])
              [Fixtures.listing; Fixtures.second_listing; Fixtures.third_listing]
              pool1 pass1.2
    /\ raised pool1 = []
    /\ (forall row, row ∈ saved Error pool1 ->
                    exists url message, row = [url; message] /\ url ∈ pending)
    /\ (forall url, url ∈ pending ->
                    url ∈ ledger_urls Fixtures.errors_csv w
                    \/ url = "Error URL"
                    \/ exists message, [url; message] ∈ saved Error pool1)
    /\ match pending with
       | [] => final = (Ok (), w1)
       | _ :: _ =>
         exists pool2 p2,
           harvested Fixtures.results_csv Fixtures.errors_csv cleared pending pool2 p2
           /\ final = (match raised pool2 with
                       | [] => Ok ()
                       | e :: _ => Raise e
                       end, world p2)
       end.
Proof.
  apply (main_retries_what_failed [1; 1; 1; 2; 2; 2]%nat [1; 0]%nat "boston"
           Fixtures.links_csv Fixtures.city ["Property Link"]
           [[Fixtures.listing]; [Fixtures.second_listing]; [Fixtures.third_listing]]).
  - reflexivity.
  - repeat constructor; discriminate.
  - intros file Hfile. vm_compute in Hfile. discriminate Hfile.
  - vm_compute. reflexivity.
Defined.

(** When a worker of the first pass raises, [main] stops there:
    what [scrape_city] raises leaves [main], it is what the first worker
    that raised, in submission order, raised, no retry pass is run, and
    the world is as the first pass left it, with the rows of the workers
    that failed in the ledger. *)
Theorem main_stops_at_first_crash (first second : list nat) (city filename : string)
    (w : World) (header : Row) (rows : list Row) (e : PyExn) :
  let results_file := results_path city w in
  let error_file := error_path city w in
  let pass1 := scrape_city first city filename 14 w in
  let final := main_scrape_and_retry first second city filename w in
  fs w !! filename = Some (header :: rows) ->
  Forall (fun row => row <> []) rows ->
  pass1.1 = Raise e ->
  final = (Raise e, world pass1.2)
  /\ exists pool1,
       harvested results_file error_file (mkPass w [] []) (column 0 (header :: rows))
                 pool1 pass1.2
       /\ (exists rest, raised pool1 = e :: rest)
       /\ (forall row, row ∈ saved Error pool1 ->
                       row ∈ drop 1 (read_file error_file (world pass1.2))).
Proof.
  intros results_file error_file pass1 final Hfile Hrows Hraise.
  subst final. unfold main_scrape_and_retry. subst pass1. revert Hraise.
  rewrite (scrape_city_pool first city filename 14 w header rows Hfile Hrows).
  rewrite collect_run_pool. fold results_file error_file.
  pose proof (run_workers_harvested results_file error_file first
                (column 0 (header :: rows)) (mkPass w [] []) (paths_differ city w))
    as Hpass.
  destruct (run_workers results_file error_file first (column 0 (header :: rows))
                        (mkPass w [] [])) as [pool1 p1].
  cbn [fst snd] in *. intros Hraise.
  destruct (raised pool1) as [|e' rest] eqn:Eraised; [discriminate Hraise|].
  injection Hraise as ->. split; [reflexivity|].
  exists pool1. split; [exact Hpass|]. split; [exists rest; exact Eraised|].
  destruct Hpass as (_ & _ & Hsinks & _).
  destruct (Hsinks Error) as (writes & Hgrown & Hperm). cbn [sink header_row] in Hgrown.
  intros row Hin. apply (saved_under_header _ _ _ _ _ Hgrown). rewrite Hperm. exact Hin.
Qed.

Lemma main_stops_at_first_crash_witness :
  let w := Fixtures.broken_city in
  let first := [2; 1; 0; 2; 1; 0]%nat in
  let pass1 := scrape_city first "boston" Fixtures.links_csv 14 w in
  let final := main_scrape_and_retry first [] "boston" Fixtures.links_csv w in
  final = (Raise AttributeError, world pass1.2)
  /\ exists pool1,
       harvested Fixtures.results_csv Fixtures.errors_csv (mkPass w [] [])
                 [Fixtures.listing; Fixtures.second_listing; Fixtures.third_listing]
                 pool1 pass1.2
       /\ (exists rest, raised pool1 = AttributeError :: rest)
       /\ (forall row, row ∈ saved Error pool1 ->
                       row ∈ drop 1 (read_file Fixtures.errors_csv (world pass1.2))).
Proof.
  apply (main_stops_at_first_crash [2; 1; 0; 2; 1; 0]%nat [] "boston" Fixtures.links_csv
           Fixtures.broken_city ["Property Link"]
           [[Fixtures.listing]; [Fixtures.second_listing]; [Fixtures.third_listing]]
           AttributeError).
  - reflexivity.
  - repeat constructor; discriminate.
  - vm_compute. reflexivity.
Defined.

(** Two workers that open the empty ledger before either leaves
    its [with] block both find [file.tell() == 0] and both write the
    header.  In the city of the fixtures, where the second and third
    listings are refused at first, such a schedule leaves the header in
    the ledger twice; the retry pass reads the second one as a row, POSTs
    for the URL [Error URL], and, the upstream serving a page for it,
    writes a record for it into the results file. *)
Theorem header_is_written_twice_and_retried :
  let first := [1; 1; 1; 2; 2; 2]%nat in
  let pass1 := scrape_city first "boston" Fixtures.links_csv 14 Fixtures.city in
  let final := main_scrape_and_retry first [] "boston" Fixtures.links_csv Fixtures.city in
  pass1.1 = Ok ()
  /\ read_file Fixtures.errors_csv (world pass1.2)
     = [["Error URL"; "Error Message"]; [Fixtures.second_listing; "Connection aborted"];
        ["Error URL"; "Error Message"]; [Fixtures.third_listing; "Connection aborted"]]
  /\ ledger_urls Fixtures.errors_csv (world pass1.2)
     = [Fixtures.second_listing; "Error URL"; Fixtures.third_listing]
  /\ final.1 = Ok ()
  /\ drop (posts (world pass1.2)) (events final.2)
     = [EvPost Fixtures.second_listing; EvPost "Error URL"; EvPost Fixtures.third_listing]
  /\ result_urls Fixtures.results_csv final.2
     = [Fixtures.listing; Fixtures.second_listing; "Error URL"]
  /\ read_file Fixtures.errors_csv final.2
     = [["Error URL"; "Error Message"]; [Fixtures.third_listing; "Connection aborted"]].
Proof. vm_compute. repeat split. Qed.

(** The same city under a schedule that lets each worker end before the
    next begins: one header, and the retry harvests the second listing. *)
Example city_run :
  let final := main_scrape_and_retry [] [] "boston" Fixtures.links_csv Fixtures.city in
  final.1 = Ok ()
  /\ result_urls Fixtures.results_csv final.2
     = [Fixtures.listing; Fixtures.second_listing]
  /\ read_file Fixtures.errors_csv final.2
     = [["Error URL"; "Error Message"]; [Fixtures.third_listing; "Connection aborted"]].
Proof. vm_compute. repeat split. Qed.

End MainSpec.

(** * The search URL of a zip code, read back

    [generate_zipcode_url] writes the query state into the URL as the
    JSON text itself; the URL mutators read a URL by cutting it at the
    separator and percent-decoding what follows. *)

Module ZipcodeSpec.
Import PyStr Urllib Zipwiseproperties Zipcodes CodecSpec.

Lemma unquote_plain (s : string) : has_char "%" s = false -> unquote s = s.
Proof.
  induction s as [|c s IH]; intros Hs; [reflexivity|].
  cbn [has_char] in Hs. apply orb_false_iff in Hs as [Hc Hs].
  cbn [unquote]. rewrite (Ascii.eqb_sym c "%"), Hc, (IH Hs). reflexivity.
Qed.

Lemma bind_Ok {A B : Type} (r : Res A) (k : A -> Res B) (b : B) :
  r ≫= k = Ok b -> exists a, r = Ok a /\ k a = Ok b.
Proof. destruct r as [a|e]; cbn; [eauto | discriminate]. Qed.

Lemma store_truthy (k : string) (v : Json) (d : list (string * Json)) :
  falsy (JObj (PyDict.store k v d)) = false.
Proof. destruct d as [|[k' v'] d]; cbn; [reflexivity|]. destruct (String.eqb k k'); reflexivity. Qed.

Lemma normalize_filters_truthy (queryState normal : Json) :
  normalize_filters queryState = Ok normal -> falsy normal = false.
Proof.
  unfold normalize_filters. intros Hn.
  apply bind_Ok in Hn as (f0 & _ & Hn).
  apply bind_Ok in Hn as (has_all & _ & Hn).
  apply bind_Ok in Hn as (f1 & _ & Hn).
  apply bind_Ok in Hn as (has_sort & _ & Hn).
  apply bind_Ok in Hn as (f2 & _ & Hn).
  destruct queryState; try discriminate. cbn in Hn. injection Hn as <-.
  apply store_truthy.
Qed.

Section Generated.
Context `{JsonLib}.
Variable py_repr : Json -> string.

Lemma parse_queryState_truthy (html : option Html) (baseurl queryState : Json) :
  parse_queryState html = Ok (Some (baseurl, queryState)) -> falsy queryState = false.
Proof.
  unfold parse_queryState. intros Hp.
  apply bind_Ok in Hp as (soup & _ & Hp).
  destruct (find_next_data soup); [|discriminate].
  repeat (apply bind_Ok in Hp as (? & ? & Hp)).
  injection Hp as _ <-.
  match goal with
  | Hn : normalize_filters _ = Ok _ |- _ => exact (normalize_filters_truthy _ _ Hn)
  end.
Qed.

Lemma parse_soldQueryState_truthy (html : option Html) (baseurl queryState : Json) :
  parse_soldQueryState html = Ok (Some (baseurl, queryState)) -> falsy queryState = false.
Proof.
  unfold parse_soldQueryState. intros Hp.
  apply bind_Ok in Hp as (soup & _ & Hp).
  destruct (find_next_data soup); [|discriminate].
  repeat (apply bind_Ok in Hp as (? & ? & Hp)).
  injection Hp as _ <-.
  match goal with
  | Hn : normalize_filters _ = Ok _ |- _ => exact (normalize_filters_truthy _ _ Hn)
  end.
Qed.

(** A URL that carries the JSON text as it is reads back as the state the
    text was written from when the text holds no percent sign and no
    second separator. *)
Lemma raw_url_decodes (front : string) (queryState : Json) :
  has_char "?" front = false ->
  find_sep separator (json_dumps queryState) = None ->
  has_char "%" (json_dumps queryState) = false ->
  json_loads (json_dumps queryState) = Ok queryState ->
  split_url (front +:+ separator +:+ json_dumps queryState)
  = Ok (rstrip_char "/" front, queryState).
Proof.
  intros Hfront Hnone Hplain Hloads. unfold split_url.
  assert (Hcut : find_sep separator (front +:+ separator +:+ json_dumps queryState)
                 = Some (front, json_dumps queryState))
    by exact (CodecMore.find_sep_after_clean "?" "searchQueryState=" front _ Hfront).
  rewrite (split_two separator _ front (json_dumps queryState) Hcut Hnone).
  rewrite (unquote_plain _ Hplain), Hloads. reflexivity.
Qed.

(** When the page of a zip code is fetched and parsed,
    [generate_zipcode_url] returns the base URL and the JSON text of the
    rewritten query state joined by the separator, and the URL mutators
    read that URL back as that query state - provided the base URL holds
    no question mark and the JSON text holds no percent sign and no
    separator, since the text is written into the URL as it is and read
    back through [unquote]. *)
Theorem generate_zipcode_url_decodes (zipcode : string) (w : World) (page : Html)
    (base : string) (queryState : Json) :
  (fetch_html_with_zyte ("https://www.zillow.com/homes/" +:+ zipcode +:+ "_rb/") w).1.1
  = Some page ->
  truthy_html page = true ->
  parse_queryState (Some page) = Ok (Some (JStr base, queryState)) ->
  is_empty base = false ->
  has_char "?" base = false ->
  find_sep separator (json_dumps queryState) = None ->
  has_char "%" (json_dumps queryState) = false ->
  json_loads (json_dumps queryState) = Ok queryState ->
  let url := "https://www.zillow.com/homes" +:+ base +:+ "?searchQueryState="
             +:+ json_dumps queryState in
  (generate_zipcode_url py_repr zipcode w).1 = Ok (Some url)
  /\ split_url url
     = Ok (rstrip_char "/" ("https://www.zillow.com/homes" +:+ base), queryState).
Proof.
  intros Hfetch Hpage Hparse Hbase Hclean Hnone Hplain Hloads url. subst url. split.
  - unfold generate_zipcode_url, fetch_zipcode_url.
    destruct (fetch_html_with_zyte _ w) as [[html error] w']. cbn [fst snd] in *.
    subst html. rewrite Hpage. cbn [fst]. unfold final_url. rewrite Hparse.
    cbn [falsy formatted]. rewrite Hbase, (parse_queryState_truthy _ _ _ Hparse).
    reflexivity.
  - apply (raw_url_decodes ("https://www.zillow.com/homes" +:+ base) queryState);
      assumption.
Qed.

(** The same for sold listings: [generate_zipcode_url_sold] puts [sold/]
    between the base URL and the separator, and the URL reads back as the
    query state [parse_soldQueryState] wrote, under a base part that ends
    in [sold]. *)
Theorem generate_zipcode_url_sold_decodes (zipcode : string) (w : World) (page : Html)
    (base : string) (queryState : Json) :
  (fetch_html_with_zyte ("https://www.zillow.com/homes/" +:+ zipcode +:+ "_rb/") w).1.1
  = Some page ->
  truthy_html page = true ->
  parse_soldQueryState (Some page) = Ok (Some (JStr base, queryState)) ->
  is_empty base = false ->
  has_char "?" base = false ->
  find_sep separator (json_dumps queryState) = None ->
  has_char "%" (json_dumps queryState) = false ->
  json_loads (json_dumps queryState) = Ok queryState ->
  let url := "https://www.zillow.com" +:+ base +:+ "sold/?searchQueryState="
             +:+ json_dumps queryState in
  (generate_zipcode_url_sold py_repr zipcode w).1 = Ok (Some url)
  /\ split_url url = Ok ("https://www.zillow.com" +:+ base +:+ "sold", queryState).
Proof.
  intros Hfetch Hpage Hparse Hbase Hclean Hnone Hplain Hloads url. subst url. split.
  - unfold generate_zipcode_url_sold, fetch_zipcode_url.
    destruct (fetch_html_with_zyte _ w) as [[html error] w']. cbn [fst snd] in *.
    subst html. rewrite Hpage. cbn [fst]. unfold final_url. rewrite Hparse.
    cbn [falsy formatted]. rewrite Hbase, (parse_soldQueryState_truthy _ _ _ Hparse).
    reflexivity.
  - assert (Hfront : has_char "?" (("https://www.zillow.com" +:+ base) +:+ "sold/") = false)
      by (rewrite !has_char_app, Hclean; reflexivity).
    pose proof (raw_url_decodes _ queryState Hfront Hnone Hplain Hloads) as Hsplit.
    rewrite (CodecMore.rstrip_char_app "/" ("https://www.zillow.com" +:+ base) "sold/" eq_refl)
      in Hsplit.
    rewrite !append_assoc in Hsplit. exact Hsplit.
Qed.

End Generated.

#[local] Existing Instance MiniJson.lib.

(** The query state the fixtures' zip code page is rewritten to. *)
Lemma generate_zipcode_url_decodes_witness :
  exists queryState,
    parse_queryState (Some Fixtures.zip_page)
    = Ok (Some (JStr "/boston-ma-02118/", queryState))
    /\ let url := "https://www.zillow.com/homes" +:+ "/boston-ma-02118/"
                  +:+ "?searchQueryState=" +:+ json_dumps queryState in
       (generate_zipcode_url (fun _ => EmptyString) "02118"
                             (Fixtures.serving (fun _ => Fixtures.zip_page))).1
       = Ok (Some url)
       /\ split_url url
          = Ok (rstrip_char "/" ("https://www.zillow.com/homes" +:+ "/boston-ma-02118/"),
                queryState).
Proof.
  destruct (parse_queryState (Some Fixtures.zip_page)) as [[[baseurl queryState]|]|e] eqn:E;
    vm_compute in E; try discriminate E.
  injection E as <- <-. eexists. split; [reflexivity|].
  apply (generate_zipcode_url_decodes (fun _ => EmptyString) "02118"
           (Fixtures.serving (fun _ => Fixtures.zip_page)) Fixtures.zip_page).
  all: vm_compute; reflexivity.
Defined.

Lemma generate_zipcode_url_sold_decodes_witness :
  exists queryState,
    parse_soldQueryState (Some Fixtures.zip_page)
    = Ok (Some (JStr "/boston-ma-02118/", queryState))
    /\ let url := "https://www.zillow.com" +:+ "/boston-ma-02118/"
                  +:+ "sold/?searchQueryState=" +:+ json_dumps queryState in
       (generate_zipcode_url_sold (fun _ => EmptyString) "02118"
                                  (Fixtures.serving (fun _ => Fixtures.zip_page))).1
       = Ok (Some url)
       /\ split_url url
          = Ok ("https://www.zillow.com" +:+ "/boston-ma-02118/" +:+ "sold", queryState).
Proof.
  destruct (parse_soldQueryState (Some Fixtures.zip_page))
    as [[[baseurl queryState]|]|e] eqn:E;
    vm_compute in E; try discriminate E.
  injection E as <- <-. eexists. split; [reflexivity|].
  apply (generate_zipcode_url_sold_decodes (fun _ => EmptyString) "02118"
           (Fixtures.serving (fun _ => Fixtures.zip_page)) Fixtures.zip_page).
  all: vm_compute; reflexivity.
Defined.

(** Why the text must hold no percent sign: a search term with one is
    read back as another search term. *)
Example percent_sign_is_decoded :
  split_url ("https://www.zillow.com/homes/boston/" +:+ separator
             +:+ json_dumps (JObj [("usersSearchTerm", JStr "A%42")]))
  = Ok ("https://www.zillow.com/homes/boston", JObj [("usersSearchTerm", JStr "AB")]).
Proof. vm_compute. reflexivity. Qed.

End ZipcodeSpec.

(** * The links of a metropolitan area *)

Module MsaSpec.
Import Zipwiseproperties Scraper Zipcodes Msa Sinks Plan.

(** ** What link discovery leaves alone *)

Lemma untouched_refl (w : World) : untouched w w.
Proof. repeat split. Qed.

Lemma untouched_trans (w w1 w2 : World) :
  untouched w w1 -> untouched w1 w2 -> untouched w w2.
Proof. unfold untouched. intros (?&?&?) (?&?&?). repeat split; congruence. Qed.

Lemma fetch_untouched (url : string) (w : World) :
  untouched w (fetch_html_with_zyte url w).2.
Proof.
  destruct (HarvestSpec.retry_loop_frame url 5 1 None w) as (Hfs & Ht & _ & Hu).
  repeat split; assumption.
Qed.

Lemma for_each_untouched {A : Type} (xs : list A) (body : A -> Step) :
  (forall x all_links w, untouched w (body x all_links w).1.2) ->
  forall all_links w, untouched w (for_each xs body all_links w).1.2.
Proof.
  intros Hbody. induction xs as [|x xs IH]; intros all_links w; cbn [for_each].
  - apply untouched_refl.
  - pose proof (Hbody x all_links w) as Hx.
    destruct (body x all_links w) as [[all_links' w'] [e|]]; cbn [fst snd] in *.
    + exact Hx.
    + exact (untouched_trans _ _ _ Hx (IH all_links' w')).
Qed.

Section Frames.
Context `{JsonLib}.

Lemma page_step_untouched (base_url : string) (page_number : Z) all_links w :
  untouched w (page_step base_url page_number all_links w).1.2.
Proof.
  unfold page_step.
  destruct (update_url_with_page base_url page_number) as [url|e];
    [|apply untouched_refl].
  pose proof (fetch_untouched url w) as Hf.
  destruct (fetch_html_with_zyte url w) as [[html error] w1]. cbn [fst snd] in *.
  destruct (truthy html); [|exact Hf].
  destruct (parse_properties html) as [links|e]; [|exact Hf].
  destruct (truthy_links links); exact Hf.
Qed.

Lemma scrape_all_pages_untouched (zip_code base_url : string) (count : Json) w :
  untouched w (scrape_all_pages zip_code base_url count w).2.
Proof.
  unfold scrape_all_pages. destruct (as_int count) as [n|e]; [|apply untouched_refl].
  pose proof (for_each_untouched (range 2 (n + 1)) (page_step base_url)
                (page_step_untouched base_url) [] w) as Hf.
  destruct (for_each _ _ [] w) as [[all_links w'] [e|]]; exact Hf.
Qed.

Lemma bed_step_untouched (zip_code filtered_url : string) (beds : Z * option Z)
    all_links w :
  untouched w (bed_step zip_code filtered_url beds all_links w).1.2.
Proof.
  unfold bed_step. destruct beds as [min_beds max_beds].
  destruct (update_url_with_beds filtered_url min_beds max_beds) as [url|e];
    [|apply untouched_refl].
  pose proof (fetch_untouched url w) as Hf.
  destruct (fetch_html_with_zyte url w) as [[html error] w1]. cbn [fst snd] in *.
  destruct (total_pages html) as [pages_count|e]; [|exact Hf].
  destruct (parse_properties html) as [[links|]|e]; try exact Hf.
  pose proof (scrape_all_pages_untouched zip_code url pages_count w1) as Hs.
  destruct (scrape_all_pages zip_code url pages_count w1) as [[more|e] w2];
    exact (untouched_trans _ _ _ Hf Hs).
Qed.

Lemma price_step_untouched (zip_code base_url : string) (price : Z * option Z)
    all_links w :
  untouched w (price_step zip_code base_url price all_links w).1.2.
Proof.
  unfold price_step. destruct price as [min_price max_price].
  destruct (update_url_with_price base_url min_price max_price) as [url|e];
    [|apply untouched_refl].
  apply for_each_untouched. apply bed_step_untouched.
Qed.

Lemma walk_untouched (zip_code base_url : string) (html : option Html) all_links w :
  untouched w (walk zip_code base_url html all_links w).1.2.
Proof.
  unfold walk.
  destruct (parse_properties html) as [links|e]; [|apply untouched_refl].
  destruct (total_pages html) as [count|e]; [|apply untouched_refl].
  destruct (at_least count 20) as [[|]|e]; [| |apply untouched_refl].
  - apply for_each_untouched. apply price_step_untouched.
  - pose proof (scrape_all_pages_untouched zip_code base_url count w) as Hs.
    destruct (scrape_all_pages zip_code base_url count w) as [[more|e] w']; exact Hs.
Qed.

Lemma scrape_properties_untouched (zip_code base_url : string) (w : World) :
  untouched w (scrape_properties zip_code base_url w).2.
Proof.
  unfold scrape_properties, scrape_properties_try.
  pose proof (fetch_untouched base_url w) as Hf.
  destruct (fetch_html_with_zyte base_url w) as [[html error] w1]. cbn [fst snd] in *.
  destruct (truthy html); cbn [negb]; [|exact Hf].
  pose proof (walk_untouched zip_code base_url html [] w1) as Hw.
  destruct (walk zip_code base_url html [] w1) as [[all_links w'] e].
  exact (untouched_trans _ _ _ Hf Hw).
Qed.

Variable py_repr : Json -> string.

Lemma generate_zipcode_url_untouched (zip_code : string) (w : World) :
  untouched w (generate_zipcode_url py_repr zip_code w).2.
Proof.
  unfold generate_zipcode_url, fetch_zipcode_url.
  pose proof (fetch_untouched ("https://www.zillow.com/homes/" +:+ zip_code +:+ "_rb/") w)
    as Hf.
  destruct (fetch_html_with_zyte _ w) as [[html error] w1]. cbn [fst snd] in *.
  destruct html as [page|]; [destruct (truthy_html page)|]; exact Hf.
Qed.

End Frames.

Lemma await_raises (results : list (nat * Res unit)) (i : nat) (e : PyExn) :
  (i, Raise e) ∈ results -> await results = Raise TypeError.
Proof.
  induction results as [|[j [[]|e']] results IH]; intros Hin.
  - apply elem_of_nil in Hin. contradiction.
  - apply elem_of_cons in Hin as [Heq|Hin]; [discriminate|]. exact (IH Hin).
  - reflexivity.
Qed.

Section Area.
Context `{JsonLib}.
Variable py_repr : Json -> string.
Variable pandas_drop_duplicates : File -> Res File.
Variable schedule : list Job -> list Job.

(** ** One zip code *)

Lemma process_zip_code_upstream (zip_code filename : string) (w : World) :
  upstream (process_zip_code py_repr zip_code filename w).2 = upstream w.
Proof.
  unfold process_zip_code.
  pose proof (generate_zipcode_url_untouched py_repr zip_code w) as (Hu1 & _).
  destruct (generate_zipcode_url py_repr zip_code w) as [[[base_url|]|e] w1];
    cbn [fst snd] in *; try exact Hu1.
  destruct (PyStr.is_empty base_url); [exact Hu1|].
  pose proof (scrape_properties_untouched zip_code base_url w1) as (Hu2 & _).
  destruct (scrape_properties zip_code base_url w1) as [[[|link links]|e] w2];
    unfold save_links_to_csv, set_fs; cbn [fst snd upstream] in *; congruence.
Qed.

(** [process_zip_code] changes one file only, the links file, and
    only by adding rows at its end: when [generate_zipcode_url] builds a
    URL and [scrape_properties] returns links for it, one single-cell row
    for each of them, in the order returned, and it returns.  When either
    raises, it raises the same and no file changes; when no URL is built
    or no link is found, it returns and no file changes.  The date and
    the upstream are as they were in every case. *)
Theorem process_zip_code_appends_links (zip_code filename : string) (w : World) :
  let generated := generate_zipcode_url py_repr zip_code w in
  let found :=
    match generated.1 with
    | Raise e => Raise e
    | Ok None => Ok []
    | Ok (Some base_url) =>
      if PyStr.is_empty base_url then Ok []
      else (scrape_properties zip_code base_url generated.2).1
    end in
  let done := process_zip_code py_repr zip_code filename w in
  upstream done.2 = upstream w
  /\ today done.2 = today w
  /\ match found with
     | Raise e => done.1 = Raise e /\ fs done.2 = fs w
     | Ok [] => done.1 = Ok () /\ fs done.2 = fs w
     | Ok (link :: links) =>
       done.1 = Ok ()
       /\ fs done.2
          = <[filename := read_file filename w
                          ++ map (fun link => [match link with
                                               | JStr s => s
                                               | _ => csv_cell py_repr link
                                               end]) (link :: links)]>
              (fs w)
     end.
Proof.
  cbv zeta. unfold process_zip_code.
  pose proof (generate_zipcode_url_untouched py_repr zip_code w) as (Hu1 & Hf1 & Ht1).
  destruct (generate_zipcode_url py_repr zip_code w) as [generated w1].
  cbn [fst snd] in *.
  destruct generated as [[base_url|]|e]; cbn [fst snd]; try (repeat split; assumption).
  destruct (PyStr.is_empty base_url); [repeat split; assumption|].
  pose proof (scrape_properties_untouched zip_code base_url w1) as (Hu2 & Hf2 & Ht2).
  destruct (scrape_properties zip_code base_url w1) as [scraped w2].
  cbn [fst snd] in *.
  destruct scraped as [[|link links]|e]; cbn [fst snd];
    try (repeat split; congruence).
  unfold save_links_to_csv, set_fs, read_file. cbn [upstream today fs].
  rewrite Hf2, Hf1. split; [congruence|]. split; [congruence|]. split; [reflexivity|].
  do 2 f_equal. apply map_ext. intros [| | | | |]; reflexivity.
Qed.

(** ** The pool over the zip codes *)

Variable site : string -> Html.

Lemma process_zip_code_served (zip_code filename : string) (w : World) :
  served site w -> served site (process_zip_code py_repr zip_code filename w).2.
Proof.
  intros Hs k url. rewrite process_zip_code_upstream. apply Hs.
Qed.

(** A zip code whose page holds a data block that [parse_queryState]
    cannot read makes its worker raise what [parse_queryState] raised. *)
Lemma unparsed_page_raises (zip_code filename : string) (e : PyExn) (w : World) :
  served site w ->
  truthy_html (site ("https://www.zillow.com/homes/" +:+ zip_code +:+ "_rb/")) = true ->
  parse_queryState (Some (site ("https://www.zillow.com/homes/" +:+ zip_code +:+ "_rb/")))
  = Raise e ->
  (process_zip_code py_repr zip_code filename w).1 = Raise e.
Proof.
  intros Hs Hpage Hparse.
  unfold process_zip_code, generate_zipcode_url, fetch_zipcode_url.
  destruct (DiscoverySpec.fetch_served
              site ("https://www.zillow.com/homes/" +:+ zip_code +:+ "_rb/") w Hs)
    as (w1 & -> & _).
  rewrite Hpage. unfold final_url. rewrite Hparse. reflexivity.
Qed.

Lemma run_zip_codes_served (filename : string) (jobs : list Job) :
  forall w, served site w ->
    served site (run_zip_codes py_repr filename jobs w).2
    /\ forall i zip_code,
         (i, zip_code) ∈ jobs ->
         (forall w', served site w' ->
                     exists e, (process_zip_code py_repr zip_code filename w').1 = Raise e) ->
         exists e, (i, Raise e) ∈ (run_zip_codes py_repr filename jobs w).1.
Proof.
  induction jobs as [|[j z] jobs IH]; intros w Hs.
  - split; [exact Hs|]. intros i zip_code Hin. apply elem_of_nil in Hin. contradiction.
  - cbn [run_zip_codes].
    pose proof (process_zip_code_served z filename w Hs) as Hs1.
    destruct (process_zip_code py_repr z filename w) as [r w1] eqn:E. cbn [snd] in Hs1.
    destruct (IH w1 Hs1) as [Hs2 Hraised].
    destruct (run_zip_codes py_repr filename jobs w1) as [rs w2]. cbn [fst snd] in *.
    split; [exact Hs2|]. intros i zip_code Hin Hcrash.
    apply elem_of_cons in Hin as [[= -> ->]|Hin].
    + destruct (Hcrash w Hs) as [e He]. rewrite E in He. cbn in He. subst r.
      exists e. apply list_elem_of_here.
    + destruct (Hraised i zip_code Hin Hcrash) as [e He].
      exists e. apply list_elem_of_further, He.
Qed.


End Area.

#[local] Existing Instance MiniJson.lib.

(** On a site that lists two links for the zip code, the links file
    gains their two rows. *)
Example process_zip_code_run :
  let done := process_zip_code (fun _ => EmptyString) "02118" Fixtures.links_csv
                               (Fixtures.serving Fixtures.listed_site) in
  done.1 = Ok ()
  /\ read_file Fixtures.links_csv done.2
     = [[Fixtures.listing]; [Fixtures.second_listing]].
Proof. vm_compute. split; reflexivity. Qed.


End MsaSpec.
